(** * sash-app: crop engine and overlay compositor

    A shallow embedding of [src/components/ImageCropper.tsx] and
    [src/utils/overlayUtils.ts], followed by the properties of the
    specification that concern them.  Further on, the callers of these two
    files are embedded as well: the persistence service, the history
    gallery and the handlers of [src/App.tsx], with properties read off
    their code.

    Modelling conventions.
    - A JavaScript [number] is an exact rational ([Q]); equality of numbers is
      [Qeq] ([==]).  [NaN] and the infinities are not represented, so a
      division whose divisor is zero is outside the model (the theorems
      that divide assume a non-zero divisor).  The gesture handlers of the
      crop engine compute percentages, which rounding perturbs in the last
      place only; they are embedded in exact arithmetic.  Where the program
      keeps the integer part of a product of doubles, in the downscale
      guard and in the size of the crop canvas, rounding decides the
      integer: there every operation is rounded to the nearest binary64
      value ([Double.round]).
    - A JavaScript string is a byte string in UTF-8 ([string]).
    - React state is a record; an event handler is a function from the state
      of the render it closes over to the state after its setters have run.
    - Host objects (canvas, 2D context, blob encoder, text metrics) are
      records and section variables: the program only calls them. *)

From Stdlib Require Import ZArith QArith Qround Qminmax Qpower.
From Stdlib Require Import Bool List String Ascii DecimalString.
From Stdlib Require Import Permutation Sorted.
From Stdlib Require Import Lia Lqa.
From Stdlib Require PrimFloat FloatOps SpecFloat.
Import ListNotations.

(** ** The fragment of the JavaScript library the program uses *)

Module JS.

Definition Math_max (a b : Q) : Q := Qmax a b.
Definition Math_min (a b : Q) : Q := Qmin a b.
Definition Math_floor (a : Q) : Z := Qfloor a.

(** [hay.includes(needle)] *)
Fixpoint includes (hay needle : string) : bool :=
  if String.prefix needle hay then true
  else match hay with
       | EmptyString => false
       | String _ rest => includes rest needle
       end.

Definition is_empty (s : string) : bool :=
  match s with EmptyString => true | String _ _ => false end.

(** ECMAScript WhiteSpace and LineTerminator code points, in UTF-8. *)
Definition ws1 (a : ascii) : bool :=
  let n := N_of_ascii a in
  ((9 <=? n) && (n <=? 13) || (n =? 32))%N.

(** U+00A0 *)
Definition ws2 (a b : ascii) : bool :=
  ((N_of_ascii a =? 194) && (N_of_ascii b =? 160))%N.

(** U+1680, U+2000..U+200A, U+2028, U+2029, U+202F, U+205F, U+3000,
    U+FEFF *)
Definition ws3 (a b c : ascii) : bool :=
  let '(p, q, r) := (N_of_ascii a, N_of_ascii b, N_of_ascii c) in
  ((p =? 225) && (q =? 154) && (r =? 128)
   || (p =? 226) && (q =? 128)
      && ((128 <=? r) && (r <=? 138) || (r =? 168) || (r =? 169)
          || (r =? 175))
   || (p =? 226) && (q =? 129) && (r =? 159)
   || (p =? 227) && (q =? 128) && (r =? 128)
   || (p =? 239) && (q =? 187) && (r =? 191))%N.

Fixpoint trimStart (s : string) : string :=
  match s with
  | EmptyString => EmptyString
  | String a r =>
      if ws1 a then trimStart r
      else match r with
           | EmptyString => s
           | String b r2 =>
               if ws2 a b then trimStart r2
               else match r2 with
                    | EmptyString => s
                    | String c r3 => if ws3 a b c then trimStart r3 else s
                    end
           end
  end.

(** A suffix is dropped as soon as it consists of white space only. *)
Fixpoint trimEnd (s : string) : string :=
  match s with
  | EmptyString => EmptyString
  | String a r =>
      if is_empty (trimStart s) then EmptyString else String a (trimEnd r)
  end.

(** [s.trim()] *)
Definition trim (s : string) : string := trimEnd (trimStart s).

(** [String(n)] for an integral number *)
Definition string_of_Z (n : Z) : string :=
  NilZero.string_of_int (Z.to_int n).

(** How a call ends: it returns, or it throws. *)
Inductive Completion (A : Type) : Type :=
| Normal (a : A)
| Throw (name : string).
Arguments Normal {A} a.
Arguments Throw {A} name.

(** How a promise settles. *)
Inductive Settled (A : Type) : Type :=
| Resolved (a : A)
| Rejected (message : string).
Arguments Resolved {A} a.
Arguments Rejected {A} message.

End JS.

(** ** IEEE 754 binary64 arithmetic

    An operation on doubles returns the double nearest to its exact
    result, ties going to the even significand.  [round] is that rounding,
    on rationals, with a significand of 53 bits and an exponent without
    bounds: it is the rounding of binary64 wherever the result is zero or
    of a magnitude in the normal range, from [2^-1022] up to [2^1024].
    Overflow and subnormal results are not represented; the scaled sizes
    computed from natural sizes below [2^32] are far from both. *)

Module Double.
Local Open Scope Q_scope.

Definition pow2 (k : Z) : Q := Qpower 2 k.

(** The integer part of the binary logarithm of a positive rational. *)
Definition ilog2 (q : Q) : Z :=
  let k := (Z.log2 (Qnum q) - Z.log2 (Zpos (Qden q)))%Z in
  if Qle_bool (pow2 k) q then k else (k - 1)%Z.

(** The nearest integer, ties to even. *)
Definition roundHalfEven (t : Q) : Z :=
  let f := Qfloor t in
  match Qcompare (t - inject_Z f) (1 # 2) with
  | Lt => f
  | Gt => (f + 1)%Z
  | Eq => if Z.even f then f else (f + 1)%Z
  end.

(** The nearest double of a positive rational [q]: with [e] such that
    [2^52 <= q / 2^e < 2^53], the nearest integer to [q / 2^e], times
    [2^e]. *)
Definition roundPositive (q : Q) : Q :=
  let e := (ilog2 q - 52)%Z in
  inject_Z (roundHalfEven (q / pow2 e)) * pow2 e.

Definition round (q : Q) : Q :=
  match Qnum q with
  | Z0 => 0
  | Zpos _ => roundPositive q
  | Zneg _ => - roundPositive (- q)
  end.

(** The unit roundoff of binary64. *)
Definition unit_roundoff : Q := 1 # (2 ^ 53).

(** [a / b] and [a * b] on doubles. *)
Definition div (a b : Q) : Q := round (a / b).
Definition mul (a b : Q) : Q := round (a * b).

End Double.

(** ** Host objects *)

Module Dom.

Record Image : Type := { naturalWidth : Z; naturalHeight : Z }.

Record DOMRect : Type := { width : Q; height : Q }.

Record PointerEvent : Type :=
  { clientX : Q; clientY : Q; pointerId : Z }.

Inductive PathCmd : Type :=
| moveTo (px py : Q)
| lineTo (px py : Q)
| quadraticCurveTo (cpx cpy px py : Q)
| closePath.

(** What a 2D context was asked to draw; the context state in force
    ([font], [fillStyle], [textBaseline]) is recorded with each call. *)
Inductive DrawOp : Type :=
| drawImage5 (img : Image) (dx dy dw dh : Q)
| drawImage9 (img : Image) (sx sy sw sh dx dy dw dh : Q)
| fill (fillStyle : string) (path : list PathCmd)
| fillText (font fillStyle textBaseline text : string) (tx ty : Q).

(** A canvas: the dimensions last assigned, whether [getContext('2d')]
    yields a context, and the drawing calls received since the last
    assignment of a dimension (which clears the bitmap). *)
Record Canvas : Type :=
  { canvasWidth : Q; canvasHeight : Q; context2d : bool;
    drawn : list DrawOp }.

(** [document.createElement('canvas')] *)
Definition createCanvas (context2d : bool) : Canvas :=
  {| canvasWidth := 300; canvasHeight := 150; context2d := context2d;
     drawn := [] |}.

(** The conversion of a number to the IDL type [unsigned long]: the
    fraction is dropped and the result taken modulo [2^32]. *)
Definition toUnsignedLong (v : Q) : Z :=
  (Z.quot (Qnum v) (Zpos (Qden v))) mod 2 ^ 32.

(** What the [width] or [height] attribute of a canvas holds after [v] has
    been assigned to it: [v] as an unsigned long, and the default of the
    attribute when that is above 2147483647. *)
Definition canvasDimension (default : Z) (v : Q) : Q :=
  let n := toUnsignedLong v in
  inject_Z (if (n <=? 2147483647)%Z then n else default).

(** [canvas.width = v] *)
Definition setWidth (c : Canvas) (v : Q) : Canvas :=
  {| canvasWidth := canvasDimension 300 v; canvasHeight := canvasHeight c;
     context2d := context2d c; drawn := [] |}.

(** [canvas.height = v] *)
Definition setHeight (c : Canvas) (v : Q) : Canvas :=
  {| canvasWidth := canvasWidth c; canvasHeight := canvasDimension 150 v;
     context2d := context2d c; drawn := [] |}.

Definition draw (c : Canvas) (ops : list DrawOp) : Canvas :=
  {| canvasWidth := canvasWidth c; canvasHeight := canvasHeight c;
     context2d := context2d c; drawn := drawn c ++ ops |}.

(** The state of the request of an [img] element. *)
Inductive RequestState : Type :=
| unavailable | partiallyAvailable | completelyAvailable | broken.

(** An [img] element: its image and the state of its request. *)
Record ImageElement : Type :=
  { imageOf : Image; requestState : RequestState }.

(** Whether an [img] element can be drawn: a broken one makes the call
    throw; one that is not completely available, or has a natural
    dimension of zero, is skipped. *)
Inductive Usability : Type := good | bad.

Definition usability (element : ImageElement) : JS.Completion Usability :=
  match requestState element with
  | broken => JS.Throw "InvalidStateError"
  | completelyAvailable =>
      if ((naturalWidth (imageOf element) =? 0)
          || (naturalHeight (imageOf element) =? 0))%Z
      then JS.Normal bad else JS.Normal good
  | unavailable | partiallyAvailable => JS.Normal bad
  end.

(** [ctx.drawImage(element, sx, sy, sw, sh, dx, dy, dw, dh)]: nothing is
    painted when the element is skipped or the source region is empty. *)
Definition drawImageRegion (c : Canvas) (element : ImageElement)
    (sx sy sw sh dx dy dw dh : Q) : JS.Completion Canvas :=
  match usability element with
  | JS.Throw name => JS.Throw name
  | JS.Normal bad => JS.Normal c
  | JS.Normal good =>
      if Qeq_bool sw 0 || Qeq_bool sh 0 then JS.Normal c
      else JS.Normal
             (draw c [drawImage9 (imageOf element) sx sy sw sh dx dy dw dh])
  end.

End Dom.

(** ** src/components/ImageCropper.tsx *)

Module ImageCropper.
Import JS Dom.
Local Open Scope Q_scope.

(** The crop selection, in percentages of the displayed image. *)
Record Rect : Type := { x : Q; y : Q; w : Q; h : Q }.

Record Point : Type := { px : Q; py : Q }.

(** The non-null values of the [action] state. *)
Inductive Action : Type := move | nw | ne | sw | se.

Definition action_string (a : Action) : string :=
  match a with
  | move => "move" | nw => "nw" | ne => "ne" | sw => "sw" | se => "se"
  end.

Definition is_move (a : Action) : bool :=
  match a with move => true | _ => false end.

(** The component's state ([useState]) and the pointer capture its
    handlers set and release on the event target. *)
Record State : Type :=
  { crop : Rect;
    isDragging : bool;
    dragStart : Point;
    startCrop : Rect;
    action : option Action;
    capture : option Z }.

(** The state of the first render. *)
Definition initial : State :=
  {| crop := {| x := 0; y := 0; w := 100; h := 100 |};
     isDragging := false;
     dragStart := {| px := 0; py := 0 |};
     startCrop := {| x := 0; y := 0; w := 0; h := 0 |};
     action := None;
     capture := None |}.

Definition setCrop (s : State) (r : Rect) : State :=
  {| crop := r; isDragging := isDragging s; dragStart := dragStart s;
     startCrop := startCrop s; action := action s; capture := capture s |}.

(** [handlePointerDown(e, act)]; [containerRef] is [containerRef.current]. *)
Definition handlePointerDown (s : State) (containerRef : option DOMRect)
    (e : PointerEvent) (act : option Action) : Completion State :=
  match containerRef with
  | None => Normal s
  | Some _ =>
      Normal {| crop := crop s;
                isDragging := true;
                dragStart := {| px := clientX e; py := clientY e |};
                startCrop := crop s;
                action := act;
                capture := Some (pointerId e) |}
  end.

(** Lines 40-61 of [handlePointerMove]: the rectangle handed to [setCrop],
    from the action, the start rectangle and the deltas in percent. *)
Definition newCrop (act : Action) (start : Rect) (deltaX deltaY : Q)
    : Rect :=
  let nc := start in
  if is_move act then
    let nc := {| x := Math_max 0 (Math_min (100 - w nc) (x start + deltaX));
                 y := y nc; w := w nc; h := h nc |} in
    {| x := x nc;
       y := Math_max 0 (Math_min (100 - h nc) (y start + deltaY));
       w := w nc; h := h nc |}
  else
    let name := action_string act in
    let nc :=
      if includes name "e" then
        {| x := x nc; y := y nc;
           w := Math_max 10 (Math_min (100 - x start) (w start + deltaX));
           h := h nc |}
      else nc in
    let nc :=
      if includes name "s" then
        {| x := x nc; y := y nc; w := w nc;
           h := Math_max 10 (Math_min (100 - y start) (h start + deltaY)) |}
      else nc in
    let nc :=
      if includes name "w" then
        let maxDelta := w start - 10 in
        let validDelta := Math_min maxDelta deltaX in
        {| x := Math_max 0 (x start + validDelta); y := y nc;
           w := w start - validDelta; h := h nc |}
      else nc in
    let nc :=
      if includes name "n" then
        let maxDelta := h start - 10 in
        let validDelta := Math_min maxDelta deltaY in
        {| x := x nc; y := Math_max 0 (y start + validDelta);
           w := w nc; h := h start - validDelta |}
      else nc in
    nc.

(** [handlePointerMove(e)] *)
Definition handlePointerMove (s : State) (containerRef : option DOMRect)
    (e : PointerEvent) : Completion State :=
  if negb (isDragging s) then Normal s
  else match containerRef, action s with
       | None, _ => Normal s
       | Some _, None => Normal s
       | Some containerRect, Some act =>
           let deltaX :=
             ((clientX e - px (dragStart s)) / width containerRect) * 100 in
           let deltaY :=
             ((clientY e - py (dragStart s)) / height containerRect) * 100 in
           Normal (setCrop s (newCrop act (startCrop s) deltaX deltaY))
       end.

(** [handlePointerUp(e)] *)
Definition handlePointerUp (s : State) (e : PointerEvent)
    : Completion State :=
  Normal {| crop := crop s; isDragging := false; dragStart := dragStart s;
            startCrop := startCrop s; action := None; capture := None |}.

(** The source region of [performCrop] (lines 78-84), in image pixels:
    the formulas in exact arithmetic, then on doubles. *)
Record PixelRect : Type :=
  { pixelX : Q; pixelY : Q; pixelW : Q; pixelH : Q }.

Definition rectToPixels (r : Rect) (naturalW naturalH : Z) : PixelRect :=
  {| pixelX := (x r / 100) * inject_Z naturalW;
     pixelY := (y r / 100) * inject_Z naturalH;
     pixelW := (w r / 100) * inject_Z naturalW;
     pixelH := (h r / 100) * inject_Z naturalH |}.

(** The same lines on doubles.  The canvas keeps the integer part of
    [pixelW] and [pixelH] only, so the rounding of the quotients and of
    the products shows in its size. *)
Definition pixelRect (r : Rect) (naturalW naturalH : Z) : PixelRect :=
  {| pixelX := Double.mul (Double.div (x r) 100) (inject_Z naturalW);
     pixelY := Double.mul (Double.div (y r) 100) (inject_Z naturalH);
     pixelW := Double.mul (Double.div (w r) 100) (inject_Z naturalW);
     pixelH := Double.mul (Double.div (h r) 100) (inject_Z naturalH) |}.

Section PerformCrop.
Variable Blob : Type.
(** [canvas.toBlob(callback, type, quality)]: the argument the host
    passes to the callback, [None] for [null]. *)
Variable toBlob : Canvas -> string -> Q -> option Blob.

(** [performCrop()]: the canvas it builds and the arguments of the calls
    it makes to [onCrop], in order, or the exception [drawImage] throws.
    [imageRef] is [imageRef.current]; [context2d] tells whether the new
    canvas yields a 2D context. *)
Definition performCrop (s : State) (imageRef : option ImageElement)
    (context2d : bool) : Completion (option Canvas * list Blob) :=
  match imageRef with
  | None => Normal (None, [])
  | Some img =>
      let canvas := createCanvas context2d in
      let p := pixelRect (crop s) (naturalWidth (imageOf img))
                         (naturalHeight (imageOf img)) in
      let canvas := setWidth canvas (pixelW p) in
      let canvas := setHeight canvas (pixelH p) in
      if Dom.context2d canvas then
        match drawImageRegion canvas img (pixelX p) (pixelY p) (pixelW p)
                              (pixelH p) 0 0 (pixelW p) (pixelH p) with
        | Throw name => Throw name
        | Normal canvas =>
            match toBlob canvas "image/jpeg" 0.92 with
            | Some blob => Normal (Some canvas, [blob])
            | None => Normal (Some canvas, [])
            end
        end
      else Normal (Some canvas, [])
  end.
End PerformCrop.

(** The invariants of a normalized rectangle. *)
Definition NormalizedRect (r : Rect) : Prop :=
  0 <= x r /\ 0 <= y r /\ x r + w r <= 100 /\ y r + h r <= 100
  /\ 10 <= w r /\ 10 <= h r.

Definition normalizedRectb (r : Rect) : bool :=
  Qle_bool 0 (x r) && Qle_bool 0 (y r)
  && Qle_bool (x r + w r) 100 && Qle_bool (y r + h r) 100
  && Qle_bool 10 (w r) && Qle_bool 10 (h r).

(** [clamp(v, lo, hi)] as the specification uses it for the east and south
    edges, where it stands for [Math.max(lo, Math.min(hi, v))]. *)
Definition clamp (v lo hi : Q) : Q := Qmax lo (Qmin hi v).

(** The deltas of [handlePointerMove], in percent of the container. *)
Definition deltaX (s : State) (box : DOMRect) (e : PointerEvent) : Q :=
  ((clientX e - px (dragStart s)) / width box) * 100.

Definition deltaY (s : State) (box : DOMRect) (e : PointerEvent) : Q :=
  ((clientY e - py (dragStart s)) / height box) * 100.

End ImageCropper.

(** ** src/utils/overlayUtils.ts *)

Module OverlayUtils.
Import JS Dom.
Local Open Scope Q_scope.
Local Open Scope string_scope.

(** [TemperatureReadings] of the repository's type declarations. *)
Record TemperatureReadings : Type :=
  { t1 : string; t2 : string; t3 : string; t4 : string; pt : string }.

Definition MAX_DIMENSION : Z := 2560.

(** Lines 15-23 of [drawOverlayOnBitmap]: [(drawWidth, drawHeight)].  The
    two quotients and the two products are operations on doubles. *)
Definition drawSize (image : Image) : Z * Z :=
  let drawWidth := naturalWidth image in
  let drawHeight := naturalHeight image in
  if ((drawWidth >? MAX_DIMENSION) || (drawHeight >? MAX_DIMENSION))%Z then
    let ratio :=
      Math_min (Double.div (inject_Z MAX_DIMENSION) (inject_Z drawWidth))
               (Double.div (inject_Z MAX_DIMENSION) (inject_Z drawHeight)) in
    (Math_floor (Double.mul (inject_Z drawWidth) ratio),
     Math_floor (Double.mul (inject_Z drawHeight) ratio))
  else (drawWidth, drawHeight).

(** Lines 41-51: the text lines. *)
Definition overlayLines (readings : TemperatureReadings) : list string :=
  let lines :=
    [ "T1: " ++ t1 readings ++ "°C";
      "T2: " ++ t2 readings ++ "°C";
      "T3: " ++ t3 readings ++ "°C";
      "T4: " ++ t4 readings ++ "°C" ] in
  if negb (is_empty (pt readings))
     && negb (String.eqb (trim (pt readings)) EmptyString)
  then List.app lines [ "P.T: " ++ pt readings ++ "°C" ]
  else lines.

(** Lines 72-82: the outline of the rounded box. *)
Definition boxPath (boxX boxY boxWidth boxHeight radius : Q)
    : list PathCmd :=
  [ moveTo (boxX + radius) boxY;
    lineTo (boxX + boxWidth - radius) boxY;
    quadraticCurveTo (boxX + boxWidth) boxY (boxX + boxWidth)
                     (boxY + radius);
    lineTo (boxX + boxWidth) (boxY + boxHeight - radius);
    quadraticCurveTo (boxX + boxWidth) (boxY + boxHeight)
                     (boxX + boxWidth - radius) (boxY + boxHeight);
    lineTo (boxX + radius) (boxY + boxHeight);
    quadraticCurveTo boxX (boxY + boxHeight) boxX
                     (boxY + boxHeight - radius);
    lineTo boxX (boxY + radius);
    quadraticCurveTo boxX boxY (boxX + radius) boxY;
    closePath ].

(** [lines.forEach((line, index) => ctx.fillText(...))] *)
Fixpoint fillLines (font : string) (tx ty0 lineHeight : Q) (index : nat)
    (lines : list string) : list DrawOp :=
  match lines with
  | [] => []
  | line :: rest =>
      fillText font "#FFFFFF" "top" line tx
               (ty0 + inject_Z (Z.of_nat index) * lineHeight)
      :: fillLines font tx ty0 lineHeight (S index) rest
  end.

Section Compositor.
(** [ctx.measureText(line).width] under the font [ctx.font]. *)
Variable measureText : string -> string -> Q.

(** Lines 56-60. *)
Definition maxTextWidth (font : string) (lines : list string) : Q :=
  fold_left
    (fun acc line =>
       let metrics := measureText font line in
       if Qle_bool metrics acc then acc else metrics)
    lines 0.

(** [drawOverlayOnBitmap(canvas, image, readings, fontScale = 1.0)]:
    the canvas after the call.  [fontScale] is [None] when the argument
    is omitted.  [fontSize] is integral and kept in [Z]. *)
Definition drawOverlayOnBitmap (canvas : Canvas) (image : Image)
    (readings : TemperatureReadings) (fontScale : option Q)
    : Completion Canvas :=
  let fontScale := match fontScale with Some v => v | None => 1.0 end in
  if negb (context2d canvas) then Normal canvas
  else
    let '(drawWidth, drawHeight) := drawSize image in
    let canvas := setWidth canvas (inject_Z drawWidth) in
    let canvas := setHeight canvas (inject_Z drawHeight) in
    let canvas :=
      draw canvas [drawImage5 image 0 0 (inject_Z drawWidth)
                              (inject_Z drawHeight)] in
    let w := canvasWidth canvas in
    let baseSize := w * 0.03 in
    let fontSize := Z.max 24 (Math_floor (baseSize * fontScale)) in
    let lineHeight := inject_Z fontSize * 1.4 in
    let padding := inject_Z fontSize in
    let margin := inject_Z fontSize in
    let lines := overlayLines readings in
    let font := "bold " ++ string_of_Z fontSize ++ "px sans-serif" in
    let boxWidth := maxTextWidth font lines + padding * 2 in
    let boxHeight :=
      inject_Z (Z.of_nat (List.length lines)) * lineHeight
      + padding * 2 in
    let boxX := margin in
    let boxY := margin in
    let radius := inject_Z fontSize * 0.5 in
    let canvas :=
      draw canvas
           [fill "rgba(0, 0, 0, 0.6)"
                 (boxPath boxX boxY boxWidth boxHeight radius)] in
    let canvas :=
      draw canvas
           (fillLines font (boxX + padding) (boxY + padding) lineHeight
                      0 lines) in
    Normal canvas.

Variable Blob : Type.
(** [canvas.toBlob(callback, type, quality)]: the argument the host
    passes to the callback, [None] for [null]. *)
Variable toBlob : Canvas -> string -> Q -> option Blob.

(** [canvasToBlob(canvas)] *)
Definition canvasToBlob (canvas : Canvas) : Settled Blob :=
  match toBlob canvas "image/jpeg" 0.92 with
  | Some blob => Resolved blob
  | None => Rejected "Canvas conversion failed"
  end.
End Compositor.

(** The line format of the specification, [<KEY>: <value>°C] with the key
    in upper case. *)
Definition upper (c : ascii) : ascii :=
  let n := N_of_ascii c in
  if ((97 <=? n) && (n <=? 122))%N then ascii_of_N (n - 32) else c.

Fixpoint toUpperCase (s : string) : string :=
  match s with
  | EmptyString => EmptyString
  | String c rest => String (upper c) (toUpperCase rest)
  end.

Definition readingLine (key value : string) : string :=
  toUpperCase key ++ ": " ++ value ++ "°C".

End OverlayUtils.

(** ** The scaling of the downscale guard on machine doubles

    This module repeats the products whose floor [drawOverlayOnBitmap]
    takes on the primitive binary64 numbers of the proof assistant, so
    that [Double.round] can be compared with them on concrete sizes. *)

Module Doubles.
Import PrimFloat.
Local Open Scope float_scope.

(** [Math.min] of two numbers, neither of them [NaN]. *)
Definition Math_min (a b : float) : float := if a <? b then a else b.

(** [d * ratio] for a dimension [d] of a [drawWidth] by [drawHeight] image. *)
Definition scaled (d drawWidth drawHeight : float) : float :=
  d * Math_min (2560 / drawWidth) (2560 / drawHeight).

(** The same product with the operations of [Double]. *)
Definition scaledModel (d drawWidth drawHeight : Q) : Q :=
  Double.mul d (JS.Math_min (Double.div 2560%Q drawWidth)
                            (Double.div 2560%Q drawHeight)).

(** The rational a finite machine double stands for. *)
Definition toQ (f : float) : option Q :=
  match FloatOps.Prim2SF f with
  | SpecFloat.S754_zero _ => Some 0%Q
  | SpecFloat.S754_finite sign m e =>
      let magnitude := (inject_Z (Zpos m) * Double.pow2 e)%Q in
      Some (if sign then (- magnitude)%Q else magnitude)
  | _ => None
  end.

(** Whether a machine double stands for the rational [q]. *)
Definition sameNumber (f : float) (q : Q) : bool :=
  match toQ f with
  | Some v => Qeq_bool v q
  | None => false
  end.

End Doubles.

(** ** Concrete inputs for the examples *)

Module Examples.
Import JS Dom.
Local Open Scope Q_scope.

(** A container of 200 by 100 pixels, a pointer-down in its middle and a
    pointer-move half a container width to the left of it. *)
Definition box0 : DOMRect := {| width := 200; height := 100 |}.
Definition down0 : PointerEvent :=
  {| clientX := 100; clientY := 50; pointerId := 1 |}.
Definition left0 : PointerEvent :=
  {| clientX := 0; clientY := 50; pointerId := 1 |}.

(** The state of a session begun at [down0] with the given action on the
    rectangle [{x: 20, y: 30, w: 50, h: 40}]. *)
Definition session0 (act : ImageCropper.Action) : ImageCropper.State :=
  let r := {| ImageCropper.x := 20; ImageCropper.y := 30;
              ImageCropper.w := 50; ImageCropper.h := 40 |} in
  {| ImageCropper.crop := r;
     ImageCropper.isDragging := true;
     ImageCropper.dragStart :=
       {| ImageCropper.px := 100; ImageCropper.py := 50 |};
     ImageCropper.startCrop := r;
     ImageCropper.action := Some act;
     ImageCropper.capture := Some 1%Z |}.

(** A text metric: one unit per byte of the line. *)
Definition measure0 (font line : string) : Q :=
  inject_Z (Z.of_nat (String.length line)).

(** An encoder that never produces bytes. *)
Definition noBlob (c : Canvas) (type : string) (quality : Q)
    : option unit := None.

Definition image3000x1500 : Image :=
  {| naturalWidth := 3000; naturalHeight := 1500 |}.
Definition image1200x800 : Image :=
  {| naturalWidth := 1200; naturalHeight := 800 |}.
Definition image10000x2 : Image :=
  {| naturalWidth := 10000; naturalHeight := 2 |}.
Definition image4928x3264 : Image :=
  {| naturalWidth := 4928; naturalHeight := 3264 |}.
Definition image1001x667 : Image :=
  {| naturalWidth := 1001; naturalHeight := 667 |}.
Definition image1x1 : Image :=
  {| naturalWidth := 1; naturalHeight := 1 |}.

(** A loaded [img] element and a broken one. *)
Definition loaded (image : Image) : ImageElement :=
  {| imageOf := image; requestState := completelyAvailable |}.
Definition brokenElement : ImageElement :=
  {| imageOf := {| naturalWidth := 0; naturalHeight := 0 |};
     requestState := broken |}.

(** An encoder that yields no bytes for a canvas without pixels, and the
    number of drawing calls the canvas received otherwise. *)
Definition pixelBlob (c : Canvas) (type : string) (quality : Q)
    : option nat :=
  if Qeq_bool (canvasWidth c) 0 || Qeq_bool (canvasHeight c) 0 then None
  else Some (List.length (drawn c)).

Definition readings0 (pt : string) : OverlayUtils.TemperatureReadings :=
  {| OverlayUtils.t1 := "21.0"; OverlayUtils.t2 := "22.5";
     OverlayUtils.t3 := "19"; OverlayUtils.t4 := "-3";
     OverlayUtils.pt := pt |}.

End Examples.

(** ** The layout of the label box (overlayUtils.ts, lines 32-38, 53) *)

Module Layout.
Import JS Dom.
Local Open Scope Q_scope.
Local Open Scope string_scope.

(** Lines 34-35: [fontSize], from the canvas width and the font scale. *)
Definition fontSize (w fontScale : Q) : Z :=
  Z.max 24 (Math_floor (w * 0.03 * fontScale)).

(** Line 53: the value given to [ctx.font]. *)
Definition fontOf (fontSize : Z) : string :=
  "bold " ++ string_of_Z fontSize ++ "px sans-serif".

(** The default of the [fontScale] parameter. *)
Definition scaleOf (fontScale : option Q) : Q :=
  match fontScale with Some v => v | None => 1.0 end.

(** The texts of the [fillText] calls among drawing calls, in order. *)
Definition texts (ops : list DrawOp) : list string :=
  flat_map
    (fun op => match op with fillText _ _ _ text _ _ => [text] | _ => [] end)
    ops.

End Layout.

(** ** [processImageFromFile] (overlayUtils.ts, lines 111-133) *)

Module ProcessImage.
Import JS Dom OverlayUtils.
Local Open Scope Q_scope.
Local Open Scope string_scope.

(** Calls to [URL.createObjectURL] and [URL.revokeObjectURL]; a URL is
    identified with the object it was created for. *)
Inductive UrlEvent (Obj : Type) : Type :=
| createObjectURL (o : Obj)
| revokeObjectURL (o : Obj).
Arguments createObjectURL {Obj} o.
Arguments revokeObjectURL {Obj} o.

(** The returned object [{ original, processed }]. *)
Record Processed (File Blob : Type) : Type :=
  { original : File; processed : Blob }.
Arguments original {File Blob} _.
Arguments processed {File Blob} _.

Section ProcessImage.
Variable File Blob : Type.
(** [file.name] *)
Variable fileName : File -> string.
(** The image element once the file's URL has loaded into it; [None] when
    [onerror] fires instead of [onload]. *)
Variable loadImage : File -> option Image.
(** Whether a canvas made by [document.createElement] yields a context. *)
Variable offscreen2d : bool.
Variable measureText : string -> string -> Q.
Variable toBlob : Canvas -> string -> Q -> option Blob.

(** [processImageFromFile(file, readings, fontScale)]: the URL calls made
    and the settlement of the returned promise. *)
Definition processImageFromFile (file : File)
    (readings : TemperatureReadings) (fontScale : Q)
    : list (UrlEvent File) * Settled (Processed File Blob) :=
  let url := createObjectURL file in
  match loadImage file with
  | None => ([url], Rejected ("Failed to load image " ++ fileName file))
  | Some img =>
      let canvas := createCanvas offscreen2d in
      match drawOverlayOnBitmap measureText canvas img readings
                                (Some fontScale) with
      | Throw name => ([url], Rejected name)
      | Normal canvas =>
          match canvasToBlob Blob toBlob canvas with
          | Rejected message => ([url], Rejected message)
          | Resolved processedBlob =>
              ([url; revokeObjectURL file],
               Resolved {| original := file; processed := processedBlob |})
          end
      end
  end.

End ProcessImage.
End ProcessImage.

(** ** [Array.prototype.sort] *)

Module JSArray.

(** [x] goes before the first element it need not follow. *)
Fixpoint insert {A : Type} (compare : A -> A -> Z) (x : A) (l : list A)
    : list A :=
  match l with
  | [] => [x]
  | y :: rest =>
      if (0 <? compare x y)%Z then y :: insert compare x rest else x :: l
  end.

(** [l.sort(compare)]; the sort of the language is stable, which for a
    consistent comparison function determines its result: this one. *)
Definition sort {A : Type} (compare : A -> A -> Z) (l : list A) : list A :=
  fold_right (insert compare) [] l.

End JSArray.

(** ** The persistence service (services/database)

    The database is taken to open and its requests to succeed; the object
    store [readings] has the key path [id] and a key generator. *)

Module Database.
Import JS.

Section Database.
Variable File Blob : Type.

(** [ExperimentRecord] of the repository's type declarations. *)
Record ExperimentRecord : Type :=
  { id : Z;
    timestamp : Z;
    readings : OverlayUtils.TemperatureReadings;
    originalImageBlob : File;
    processedImageBlob : Blob }.

(** The object store: its records in key order and the current number of
    its key generator. *)
Record ObjectStore : Type :=
  { records : list ExperimentRecord; keyGenerator : Z }.

(** The store [onupgradeneeded] creates. *)
Definition createObjectStore : ObjectStore :=
  {| records := []; keyGenerator := 1 |}.

(** [saveReading(readings, originalBlob, processedBlob)]: the store after
    [store.add(record)] and the key the promise resolves to.  [now] is the
    value of [Date.now()]. *)
Definition saveReading (db : ObjectStore) (now : Z)
    (readings : OverlayUtils.TemperatureReadings) (originalBlob : File)
    (processedBlob : Blob) : ObjectStore * Z :=
  let key := keyGenerator db in
  let record := {| id := key;
                   timestamp := now;
                   readings := readings;
                   originalImageBlob := originalBlob;
                   processedImageBlob := processedBlob |} in
  ({| records := records db ++ [record]; keyGenerator := (key + 1)%Z |}, key).

(** [(a, b) => b.timestamp - a.timestamp] *)
Definition newestFirst (a b : ExperimentRecord) : Z :=
  (timestamp b - timestamp a)%Z.

(** [getAllReadings()]: [store.getAll()], sorted. *)
Definition getAllReadings (db : ObjectStore) : list ExperimentRecord :=
  JSArray.sort newestFirst (records db).

(** [deleteReading(id)]: the store after [store.delete(id)]. *)
Definition deleteReading (db : ObjectStore) (key : Z) : ObjectStore :=
  {| records := filter (fun r => negb (id r =? key)%Z) (records db);
     keyGenerator := keyGenerator db |}.

(** A request of a later transaction on the store: a [saveReading] with
    its arguments and the time of the call, or a [deleteReading]. *)
Inductive Request : Type :=
| saveRequest (now : Z) (readings : OverlayUtils.TemperatureReadings)
              (originalBlob : File) (processedBlob : Blob)
| deleteRequest (key : Z).

Definition serve (db : ObjectStore) (request : Request) : ObjectStore :=
  match request with
  | saveRequest now readings originalBlob processedBlob =>
      fst (saveReading db now readings originalBlob processedBlob)
  | deleteRequest key => deleteReading db key
  end.

(** The store after a sequence of requests, served in order. *)
Definition serveAll (db : ObjectStore) (requests : list Request)
    : ObjectStore :=
  fold_left serve requests db.

(** The keys are in ascending order and below the key generator. *)
Fixpoint ascending (lo : Z) (l : list ExperimentRecord) : Prop :=
  match l with
  | [] => True
  | r :: rest => (lo <= id r)%Z /\ ascending (id r + 1) rest
  end.

Fixpoint below (hi : Z) (l : list ExperimentRecord) : Prop :=
  match l with
  | [] => True
  | r :: rest => (id r < hi)%Z /\ below hi rest
  end.

Definition wellFormed (db : ObjectStore) : Prop :=
  (1 <= keyGenerator db)%Z
  /\ ascending 1 (records db) /\ below (keyGenerator db) (records db).

End Database.

Arguments id {File Blob} _.
Arguments timestamp {File Blob} _.
Arguments readings {File Blob} _.
Arguments originalImageBlob {File Blob} _.
Arguments processedImageBlob {File Blob} _.
Arguments records {File Blob} _.
Arguments keyGenerator {File Blob} _.
Arguments createObjectStore {File Blob}.
Arguments saveReading {File Blob} db now readings originalBlob processedBlob.
Arguments newestFirst {File Blob} a b.
Arguments getAllReadings {File Blob} db.
Arguments deleteReading {File Blob} db key.
Arguments saveRequest {File Blob} now readings originalBlob processedBlob.
Arguments deleteRequest {File Blob} key.
Arguments serve {File Blob} db request.
Arguments serveAll {File Blob} db requests.
Arguments ascending {File Blob} lo l.
Arguments below {File Blob} hi l.
Arguments wellFormed {File Blob} db.

End Database.

(** ** The history gallery (components/HistoryGallery) *)

Module HistoryGallery.
Import JS.
Local Open Scope string_scope.

(** [Object.entries(record.readings)], in the order the keys were created. *)
Definition entries (r : OverlayUtils.TemperatureReadings)
    : list (string * string) :=
  [ ("t1", OverlayUtils.t1 r); ("t2", OverlayUtils.t2 r);
    ("t3", OverlayUtils.t3 r); ("t4", OverlayUtils.t4 r);
    ("pt", OverlayUtils.pt r) ].

(** [value && value.trim() !== ''] *)
Definition filled (value : string) : bool :=
  negb (is_empty value) && negb (String.eqb (trim value) EmptyString).

(** The readings a card and the detail view show. *)
Definition shownEntries (r : OverlayUtils.TemperatureReadings)
    : list (string * string) :=
  filter (fun entry => filled (snd entry)) (entries r).

(** The file name [downloadImage] gives the download. *)
Definition downloadName (id : Z) : string :=
  "experiment_overlay_" ++ string_of_Z id ++ ".jpg".

Section HistoryGallery.
Variable File Blob : Type.

Record State : Type :=
  { history : list (Database.ExperimentRecord File Blob);
    loading : bool;
    selectedRecord : option (Database.ExperimentRecord File Blob) }.

(** The state of the first render. *)
Definition initial : State :=
  {| history := []; loading := true; selectedRecord := None |}.

(** [loadHistory()], once its promise has settled. *)
Definition loadHistory (s : State) (db : Database.ObjectStore File Blob)
    : State :=
  {| history := Database.getAllReadings db;
     loading := false;
     selectedRecord := selectedRecord s |}.

(** [handleDelete(e, id)], once the deletion and the reload have settled;
    [confirmed] is the answer to the [confirm] dialog. *)
Definition handleDelete (s : State) (db : Database.ObjectStore File Blob)
    (confirmed : bool) (id : Z)
    : State * Database.ObjectStore File Blob :=
  if confirmed then
    let db := Database.deleteReading db id in
    let reloaded := loadHistory s db in
    let isSelected :=
      match selectedRecord s with
      | Some record => (Database.id record =? id)%Z
      | None => false
      end in
    (if isSelected then
       {| history := history reloaded; loading := loading reloaded;
          selectedRecord := None |}
     else reloaded,
     db)
  else (s, db).

End HistoryGallery.

Arguments history {File Blob} _.
Arguments loading {File Blob} _.
Arguments selectedRecord {File Blob} _.
Arguments loadHistory {File Blob} s db.
Arguments handleDelete {File Blob} s db confirmed id.

End HistoryGallery.

(** ** [handleApplyAndSave] and [canSave] (App.tsx, lines 91-151) *)

Module App.
Import JS Dom OverlayUtils ProcessImage.
Local Open Scope string_scope.

Section App.
Variable File Blob : Type.
Variable fileName : File -> string.
Variable loadImage : File -> option Image.
Variable offscreen2d : bool.
Variable measureText : string -> string -> Q.
Variable toBlob : Canvas -> string -> Q -> option Blob.
(** The value of the [k]-th call of [Date.now()]. *)
Variable now : nat -> Z.

(** The part of the component's state the handler reads and writes. *)
Record State : Type :=
  { selectedFiles : list File;
    readings : TemperatureReadings;
    fontScale : Q;
    isProcessing : bool;
    refreshHistory : Z }.

(** The state together with what else the handler acts on: the preview
    image and the hidden canvas behind the two refs, the object store, the
    number of [Date.now()] calls made, and the calls made to [URL], to the
    download anchor, to [alert] and to [console.error]. *)
Record World : Type :=
  { state : State;
    imageRef : option Image;
    canvasRef : option Canvas;
    db : Database.ObjectStore File Blob;
    clock : nat;
    urls : list (UrlEvent (File + Blob));
    downloads : list (string * Blob);
    alerts : list string;
    consoleErrors : list string }.

Definition withState (w : World) (s : State) : World :=
  {| state := s; imageRef := imageRef w; canvasRef := canvasRef w;
     db := db w; clock := clock w; urls := urls w;
     downloads := downloads w; alerts := alerts w;
     consoleErrors := consoleErrors w |}.

Definition setIsProcessing (w : World) (v : bool) : World :=
  withState w
    {| selectedFiles := selectedFiles (state w);
       readings := readings (state w); fontScale := fontScale (state w);
       isProcessing := v; refreshHistory := refreshHistory (state w) |}.

(** [setRefreshHistory(prev => prev + 1)] *)
Definition bumpRefreshHistory (w : World) : World :=
  withState w
    {| selectedFiles := selectedFiles (state w);
       readings := readings (state w); fontScale := fontScale (state w);
       isProcessing := isProcessing (state w);
       refreshHistory := (refreshHistory (state w) + 1)%Z |}.

Definition setCanvas (w : World) (canvas : Canvas) : World :=
  {| state := state w; imageRef := imageRef w; canvasRef := Some canvas;
     db := db w; clock := clock w; urls := urls w;
     downloads := downloads w; alerts := alerts w;
     consoleErrors := consoleErrors w |}.

Definition logUrls (w : World) (events : list (UrlEvent (File + Blob)))
    : World :=
  {| state := state w; imageRef := imageRef w; canvasRef := canvasRef w;
     db := db w; clock := clock w; urls := urls w ++ events;
     downloads := downloads w; alerts := alerts w;
     consoleErrors := consoleErrors w |}.

Definition alert (w : World) (message : string) : World :=
  {| state := state w; imageRef := imageRef w; canvasRef := canvasRef w;
     db := db w; clock := clock w; urls := urls w;
     downloads := downloads w; alerts := alerts w ++ [message];
     consoleErrors := consoleErrors w |}.

Definition consoleError (w : World) (message : string) : World :=
  {| state := state w; imageRef := imageRef w; canvasRef := canvasRef w;
     db := db w; clock := clock w; urls := urls w;
     downloads := downloads w; alerts := alerts w;
     consoleErrors := consoleErrors w ++ [message] |}.

(** [await saveReading(readings, file, processedBlob)] *)
Definition save (w : World) (file : File) (processedBlob : Blob) : World :=
  {| state := state w; imageRef := imageRef w; canvasRef := canvasRef w;
     db := fst (Database.saveReading (db w) (now (clock w))
                                     (readings (state w)) file processedBlob);
     clock := S (clock w); urls := urls w;
     downloads := downloads w; alerts := alerts w;
     consoleErrors := consoleErrors w |}.

(** The anchor named [sash_overlay_<Date.now()>.jpg], clicked. *)
Definition download (w : World) (processedBlob : Blob) : World :=
  {| state := state w; imageRef := imageRef w; canvasRef := canvasRef w;
     db := db w; clock := S (clock w); urls := urls w;
     downloads :=
       downloads w
       ++ [("sash_overlay_" ++ string_of_Z (now (clock w)) ++ ".jpg",
            processedBlob)];
     alerts := alerts w; consoleErrors := consoleErrors w |}.

Definition liftUrl (e : UrlEvent File) : UrlEvent (File + Blob) :=
  match e with
  | createObjectURL f => createObjectURL (inl f)
  | revokeObjectURL f => revokeObjectURL (inl f)
  end.

(** The message of the batch branch; its line break is U+000A. *)
Definition successMessage (savedCount : Z) : string :=
  "Success! processed " ++ string_of_Z savedCount ++ " images."
  ++ String (ascii_of_nat 10) "They have been saved to your History below.".

(** The loop of the batch branch (lines 98-105): the world when the loop
    is left, and [savedCount] or the error that left it. *)
Fixpoint batch (files : list File) (w : World) (savedCount : Z)
    : World * Settled Z :=
  match files with
  | [] => (w, Resolved savedCount)
  | file :: rest =>
      let '(events, outcome) :=
        processImageFromFile File Blob fileName loadImage offscreen2d
          measureText toBlob file (readings (state w))
          (fontScale (state w)) in
      let w := logUrls w (map liftUrl events) in
      match outcome with
      | Rejected message => (w, Rejected message)
      | Resolved result =>
          batch rest (save w file (processed result)) (savedCount + 1)%Z
      end
  end.

(** The [try] block: the world when it is left, and whether it was left
    by an error. *)
Definition tryBlock (w : World) (first : File) : World * Settled unit :=
  if (1 <? List.length (selectedFiles (state w)))%nat then
    let '(w, outcome) := batch (selectedFiles (state w)) w 0 in
    match outcome with
    | Rejected message => (w, Rejected message)
    | Resolved savedCount =>
        (alert (bumpRefreshHistory w) (successMessage savedCount),
         Resolved tt)
    end
  else
    match imageRef w, canvasRef w with
    | Some image, Some canvas =>
        match drawOverlayOnBitmap measureText canvas image
                (readings (state w)) (Some (fontScale (state w))) with
        | Throw name => (w, Rejected name)
        | Normal canvas =>
            let w := setCanvas w canvas in
            match canvasToBlob Blob toBlob canvas with
            | Rejected message => (w, Rejected message)
            | Resolved processedBlob =>
                let w := save w first processedBlob in
                let w := logUrls w [createObjectURL (inr processedBlob)] in
                let w := download w processedBlob in
                let w := logUrls w [revokeObjectURL (inr processedBlob)] in
                (alert (bumpRefreshHistory w) "Image processed and saved!",
                 Resolved tt)
            end
        end
    | _, _ => (w, Resolved tt)
    end.

(** [handleApplyAndSave()], once its promise has settled. *)
Definition handleApplyAndSave (w : World) : World :=
  match selectedFiles (state w) with
  | [] => w
  | first :: _ =>
      let w := setIsProcessing w true in
      let '(w, outcome) := tryBlock w first in
      let w :=
        match outcome with
        | Rejected message =>
            alert (consoleError w message) "Failed to process image(s)."
        | Resolved _ => w
        end in
      setIsProcessing w false
  end.

(** [canSave] *)
Definition canSave (s : State) : bool :=
  (0 <? List.length (selectedFiles s))%nat
  && negb (String.eqb (trim (t1 (readings s))) EmptyString)
  && negb (String.eqb (trim (t2 (readings s))) EmptyString)
  && negb (String.eqb (trim (t3 (readings s))) EmptyString)
  && negb (String.eqb (trim (t4 (readings s))) EmptyString).

End App.

Arguments selectedFiles {File} _.
Arguments readings {File} _.
Arguments fontScale {File} _.
Arguments isProcessing {File} _.
Arguments refreshHistory {File} _.
Arguments state {File Blob} _.
Arguments imageRef {File Blob} _.
Arguments canvasRef {File Blob} _.
Arguments db {File Blob} _.
Arguments clock {File Blob} _.
Arguments urls {File Blob} _.
Arguments downloads {File Blob} _.
Arguments alerts {File Blob} _.
Arguments consoleErrors {File Blob} _.
Arguments canSave {File} s.

End App.

(** ** A stream of pointer moves *)

Module GestureStream.
Import JS Dom ImageCropper.

(** [handlePointerMove] called for each event in turn, each call seeing
    the state the previous one left. *)
Fixpoint pointerMoves (s : State) (containerRef : option DOMRect)
    (events : list PointerEvent) : Completion State :=
  match events with
  | [] => Normal s
  | e :: rest =>
      match handlePointerMove s containerRef e with
      | Normal s' => pointerMoves s' containerRef rest
      | Throw name => Throw name
      end
  end.

End GestureStream.

(** ** The edges an action drags (ImageCropper.tsx, lines 49 and 55) *)

Module Edges.
Import JS ImageCropper.

(** [action.includes('w')] and [action.includes('n')] *)
Definition dragsWest (act : Action) : bool :=
  includes (action_string act) "w".
Definition dragsNorth (act : Action) : bool :=
  includes (action_string act) "n".

End Edges.

(** ** The order of the history *)

Module RecordOrder.

(** [a] is at least as recent as [b]. *)
Definition notOlder {File Blob : Type}
    (a b : Database.ExperimentRecord File Blob) : Prop :=
  (Database.timestamp b <= Database.timestamp a)%Z.

End RecordOrder.

(** ** Selection, preview and cropping (App.tsx, lines 35-79)

    An object URL is the number of the [URL.createObjectURL] call that
    made it.  A handler runs, the component renders again, and when one of
    the dependencies [previewUrl], [originalFileUrl] of the cleanup effect
    has changed, the cleanup registered by the previous render runs, with
    the values of that render. *)

Module Selection.
Import JS Dom OverlayUtils.
Local Open Scope string_scope.

Section Selection.
Variable File Blob : Type.

(** The part of the component's state these handlers and the effect read
    and write. *)
Record State : Type :=
  { selectedFiles : list File;
    previewUrl : option nat;
    originalFileUrl : option nat;
    isCropping : bool;
    readings : TemperatureReadings;
    fontScale : Q }.

(** The state, the number of URLs created so far and the URLs passed to
    [URL.revokeObjectURL], in the order of the calls. *)
Record World : Type :=
  { state : State; created : nat; revoked : list nat }.

(** The state of the first render. *)
Definition initial : World :=
  {| state :=
       {| selectedFiles := []; previewUrl := None;
          originalFileUrl := None; isCropping := false;
          readings := {| t1 := EmptyString; t2 := EmptyString;
                         t3 := EmptyString; t4 := EmptyString;
                         pt := EmptyString |};
          fontScale := 1.0 |};
     created := 0; revoked := [] |}.

(** [handleFileChange(e)], for the files of [e.target.files] (none when it
    is [null]). *)
Definition handleFileChange (w : World) (files : list File) : World :=
  match files with
  | [] => w
  | firstFile :: _ =>
      let url := created w in
      {| state :=
           {| selectedFiles := files;
              previewUrl := Some url;
              originalFileUrl := Some url;
              isCropping := false;
              readings :=
                if (List.length (selectedFiles (state w)) =? 0)%nat
                then {| t1 := EmptyString; t2 := EmptyString;
                        t3 := EmptyString; t4 := EmptyString;
                        pt := EmptyString |}
                else readings (state w);
              fontScale :=
                if (List.length (selectedFiles (state w)) =? 0)%nat
                then 1.0 else fontScale (state w) |};
         created := S (created w);
         revoked := revoked w |}
  end.

(** [handleCropComplete(blob)] *)
Definition handleCropComplete (w : World) (blob : Blob) : World :=
  let croppedUrl := created w in
  {| state :=
       {| selectedFiles := selectedFiles (state w);
          previewUrl := Some croppedUrl;
          originalFileUrl := originalFileUrl (state w);
          isCropping := false;
          readings := readings (state w);
          fontScale := fontScale (state w) |};
     created := S (created w);
     revoked := revoked w |}.

(** [handleCropCancel()] *)
Definition handleCropCancel (w : World) : World :=
  {| state :=
       {| selectedFiles := selectedFiles (state w);
          previewUrl := previewUrl (state w);
          originalFileUrl := originalFileUrl (state w);
          isCropping := false;
          readings := readings (state w);
          fontScale := fontScale (state w) |};
     created := created w;
     revoked := revoked w |}.

(** [onClick={() => setIsCropping(true)}] of the crop button *)
Definition startCropping (w : World) : World :=
  {| state :=
       {| selectedFiles := selectedFiles (state w);
          previewUrl := previewUrl (state w);
          originalFileUrl := originalFileUrl (state w);
          isCropping := true;
          readings := readings (state w);
          fontScale := fontScale (state w) |};
     created := created w;
     revoked := revoked w |}.

Definition sameUrl (a b : option nat) : bool :=
  match a, b with
  | Some m, Some n => (m =? n)%nat
  | None, None => true
  | _, _ => false
  end.

(** The cleanup of lines 37-40, for the values of one render. *)
Definition cleanup (s : State) : list nat :=
  List.app (match previewUrl s with Some url => [url] | None => [] end)
           (match originalFileUrl s with Some url => [url] | None => [] end).

(** The render after a handler has taken the world from [before] to
    [after]: the cleanup of the previous render runs when a dependency
    changed. *)
Definition rerender (before after : World) : World :=
  if sameUrl (previewUrl (state before)) (previewUrl (state after))
     && sameUrl (originalFileUrl (state before))
                (originalFileUrl (state after))
  then after
  else {| state := state after; created := created after;
          revoked := List.app (revoked after) (cleanup (state before)) |}.

(** The image source the cropper modal is rendered with, if it is
    rendered (line 156). *)
Definition cropperSource (s : State) : option nat :=
  if isCropping s && (List.length (selectedFiles s) =? 1)%nat
  then originalFileUrl s else None.

(** Every URL in use or revoked has been created. *)
Definition urlsCreated (w : World) : Prop :=
  (forall url, previewUrl (state w) = Some url -> (url < created w)%nat)
  /\ (forall url, originalFileUrl (state w) = Some url ->
        (url < created w)%nat)
  /\ Forall (fun url => (url < created w)%nat) (revoked w).

End Selection.

Arguments selectedFiles {File} _.
Arguments previewUrl {File} _.
Arguments originalFileUrl {File} _.
Arguments isCropping {File} _.
Arguments readings {File} _.
Arguments fontScale {File} _.
Arguments state {File} _.
Arguments created {File} _.
Arguments revoked {File} _.
Arguments initial {File}.
Arguments handleFileChange {File} w files.
Arguments handleCropComplete {File Blob} w blob.
Arguments handleCropCancel {File} w.
Arguments startCropping {File} w.
Arguments cleanup {File} s.
Arguments rerender {File} before after.
Arguments cropperSource {File} s.
Arguments urlsCreated {File} w.

End Selection.

(** ** Concrete inputs for the examples of the application *)

Module AppExamples.
Import JS Dom.
Local Open Scope string_scope.

(** Files are named by their file name, blobs by the number of drawing
    calls the encoded canvas had received. *)
Definition fileName0 (file : string) : string := file.

(** Every file loads as a 1200 by 800 image, except [bad.jpg]. *)
Definition loadImage0 (file : string) : option Image :=
  if String.eqb file "bad.jpg" then None
  else Some Examples.image1200x800.

Definition toBlob0 (c : Canvas) (type : string) (quality : Q)
    : option nat :=
  Some (List.length (drawn c)).

Definition now0 (k : nat) : Z := (1700000000000 + Z.of_nat k)%Z.

(** A world with the given selection, filled readings, both refs bound
    and an empty store. *)
Definition world0 (files : list string) : App.World string nat :=
  {| App.state :=
       {| App.selectedFiles := files;
          App.readings := Examples.readings0 "12.5";
          App.fontScale := 1;
          App.isProcessing := false;
          App.refreshHistory := 0 |};
     App.imageRef := Some Examples.image1200x800;
     App.canvasRef := Some (createCanvas true);
     App.db := Database.createObjectStore;
     App.clock := 0;
     App.urls := [];
     App.downloads := [];
     App.alerts := [];
     App.consoleErrors := [] |}.

(** The same world with a hidden canvas that yields no 2D context. *)
Definition world0_no_context (files : list string)
    : App.World string nat :=
  {| App.state := App.state (world0 files);
     App.imageRef := Some Examples.image1200x800;
     App.canvasRef := Some (createCanvas false);
     App.db := Database.createObjectStore;
     App.clock := 0;
     App.urls := [];
     App.downloads := [];
     App.alerts := [];
     App.consoleErrors := [] |}.

(** [handleApplyAndSave] in this setting. *)
Definition apply0 (w : App.World string nat) : App.World string nat :=
  App.handleApplyAndSave string nat fileName0 loadImage0 true
    Examples.measure0 toBlob0 now0 w.

End AppExamples.

(** * Properties *)

Import JS Dom.
Local Open Scope Q_scope.

(** ** Arithmetic of [Math.max], [Math.min] and [clamp] *)

(** Names every [Qmax]/[Qmin] in sight, keeps its defining property, and
    leaves the rest to linear arithmetic. *)
Ltac name_minmax :=
  unfold Math_max, Math_min, ImageCropper.clamp in *;
  repeat match goal with
    | |- context [Qmax ?a ?b] =>
        let H := fresh "Hmax" in
        let m := fresh "m" in
        pose proof (Q.max_spec a b) as H;
        set (m := Qmax a b) in *; clearbody m
    | |- context [Qmin ?a ?b] =>
        let H := fresh "Hmin" in
        let m := fresh "m" in
        pose proof (Q.min_spec a b) as H;
        set (m := Qmin a b) in *; clearbody m
    | _ : context [Qmax ?a ?b] |- _ =>
        let H := fresh "Hmax" in
        let m := fresh "m" in
        pose proof (Q.max_spec a b) as H;
        set (m := Qmax a b) in *; clearbody m
    | _ : context [Qmin ?a ?b] |- _ =>
        let H := fresh "Hmin" in
        let m := fresh "m" in
        pose proof (Q.min_spec a b) as H;
        set (m := Qmin a b) in *; clearbody m
    end.

Ltac minmax_lra := name_minmax; lra.

Lemma clamp_within (v lo hi : Q) :
  lo <= hi -> lo <= ImageCropper.clamp v lo hi <= hi.
Proof. intros; minmax_lra. Qed.

Lemma clamp_inside (v lo hi : Q) :
  lo <= v <= hi -> ImageCropper.clamp v lo hi == v.
Proof. intros; minmax_lra. Qed.

Lemma clamp_below (v lo hi : Q) :
  lo <= hi -> v <= lo -> ImageCropper.clamp v lo hi == lo.
Proof. intros; minmax_lra. Qed.

Lemma clamp_above (v lo hi : Q) :
  lo <= hi -> hi <= v -> ImageCropper.clamp v lo hi == hi.
Proof. intros; minmax_lra. Qed.

Lemma normalizedRectb_spec (r : ImageCropper.Rect) :
  ImageCropper.normalizedRectb r = true <-> ImageCropper.NormalizedRect r.
Proof.
  unfold ImageCropper.normalizedRectb, ImageCropper.NormalizedRect.
  rewrite !andb_true_iff, !Qle_bool_iff. tauto.
Qed.

(** ** Rounding to the nearest double *)

Module DoubleFacts.
Import Double.

Lemma pow2_pos (k : Z) : 0 < pow2 k.
Proof. apply Qpower_0_lt. reflexivity. Qed.

Lemma pow2_plus (a b : Z) : pow2 (a + b) == pow2 a * pow2 b.
Proof. apply Qpower_plus. intros H. discriminate H. Qed.

Lemma pow2_inject (k : Z) : (0 <= k)%Z -> pow2 k == inject_Z (2 ^ k).
Proof.
  intros Hk. unfold pow2. rewrite Zpower_Qpower by exact Hk. reflexivity.
Qed.

(** [2 ^ ilog2 q] is not above [q]. *)
Lemma ilog2_lower (q : Q) : 0 < q -> pow2 (ilog2 q) <= q.
Proof.
  intros Hq. unfold ilog2.
  set (n := Qnum q). set (d := Zpos (Qden q)).
  destruct (Qle_bool (pow2 (Z.log2 n - Z.log2 d)) q) eqn:E.
  - apply Qle_bool_iff. exact E.
  - assert (Hn : (0 < n)%Z).
    { unfold n. destruct q as [qn qd]. unfold Qlt in Hq. cbn in *. lia. }
    assert (Hd : (0 < d)%Z) by (unfold d; lia).
    destruct (Z.log2_spec n Hn) as [Hn1 _].
    destruct (Z.log2_spec d Hd) as [_ Hd2].
    pose proof (Z.log2_nonneg n) as Ha. pose proof (Z.log2_nonneg d) as Hb.
    assert (Hnq : pow2 (Z.log2 n) <= inject_Z n).
    { rewrite pow2_inject by exact Ha. rewrite <- Zle_Qle. exact Hn1. }
    assert (Hdq : inject_Z d <= pow2 (Z.log2 d + 1)).
    { rewrite pow2_inject by lia. rewrite <- Zle_Qle.
      change (Z.succ (Z.log2 d)) with (Z.log2 d + 1)%Z in Hd2. lia. }
    assert (Hsplit : pow2 (Z.log2 n - Z.log2 d - 1) * pow2 (Z.log2 d + 1)
                     == pow2 (Z.log2 n)).
    { rewrite <- pow2_plus.
      replace (Z.log2 n - Z.log2 d - 1 + (Z.log2 d + 1))%Z
        with (Z.log2 n) by lia.
      reflexivity. }
    assert (Hqd : q == inject_Z n / inject_Z d).
    { unfold n, d. destruct q as [qn qd]. cbn. apply Qmake_Qdiv. }
    rewrite Hqd. apply Qle_shift_div_l.
    + change 0 with (inject_Z 0). rewrite <- Zlt_Qlt. exact Hd.
    + pose proof (pow2_pos (Z.log2 n - Z.log2 d - 1)) as Hp.
      apply Qle_trans with (pow2 (Z.log2 n - Z.log2 d - 1)
                            * pow2 (Z.log2 d + 1)).
      * apply Qmult_le_l; [exact Hp | exact Hdq].
      * rewrite Hsplit. exact Hnq.
Qed.

(** The nearest integer is within a half. *)
Lemma roundHalfEven_near (t : Q) :
  t - (1 # 2) <= inject_Z (roundHalfEven t) <= t + (1 # 2).
Proof.
  unfold roundHalfEven. pose proof (Qfloor_le t) as Hf.
  pose proof (Qlt_floor t) as Hc. rewrite inject_Z_plus in Hc.
  change (inject_Z 1) with 1 in Hc.
  destruct (Qcompare (t - inject_Z (Qfloor t)) (1 # 2)) eqn:E.
  - apply Qeq_alt in E.
    destruct (Z.even (Qfloor t)); [lra|].
    rewrite inject_Z_plus. change (inject_Z 1) with 1. lra.
  - apply Qlt_alt in E. lra.
  - apply Qgt_alt in E. rewrite inject_Z_plus.
    change (inject_Z 1) with 1. lra.
Qed.

Lemma roundHalfEven_nonneg (t : Q) : 0 <= t -> (0 <= roundHalfEven t)%Z.
Proof.
  intros Ht. assert (Hf : (0 <= Qfloor t)%Z).
  { change 0%Z with (Qfloor (inject_Z 0)) at 1.
    apply Qfloor_resp_le. exact Ht. }
  unfold roundHalfEven.
  destruct (Qcompare (t - inject_Z (Qfloor t)) (1 # 2));
    [destruct (Z.even (Qfloor t))| |]; lia.
Qed.

Lemma unit_roundoff_value : unit_roundoff = 1 # 9007199254740992.
Proof. reflexivity. Qed.

(** The relative error of rounding is at most the unit roundoff. *)
Lemma roundPositive_near (q : Q) :
  0 < q ->
  q * (1 - unit_roundoff) <= roundPositive q <= q * (1 + unit_roundoff).
Proof.
  intros Hq. unfold roundPositive.
  set (e := (ilog2 q - 52)%Z).
  pose proof (pow2_pos e) as He.
  destruct (roundHalfEven_near (q / pow2 e)) as [Hlo Hhi].
  pose proof (ilog2_lower q Hq) as Hlow.
  assert (Hsplit : pow2 (ilog2 q) == pow2 e * pow2 52).
  { rewrite <- pow2_plus. unfold e.
    replace (ilog2 q - 52 + 52)%Z with (ilog2 q) by lia. reflexivity. }
  assert (H52 : pow2 52 == inject_Z (2 ^ 52)) by (apply pow2_inject; lia).
  assert (Hup : inject_Z (roundHalfEven (q / pow2 e)) * pow2 e
                <= (q / pow2 e + (1 # 2)) * pow2 e).
  { apply Qmult_le_compat_r; [exact Hhi | lra]. }
  assert (Hdn : (q / pow2 e - (1 # 2)) * pow2 e
                <= inject_Z (roundHalfEven (q / pow2 e)) * pow2 e).
  { apply Qmult_le_compat_r; [exact Hlo | lra]. }
  assert (Eup : (q / pow2 e + (1 # 2)) * pow2 e == q + (1 # 2) * pow2 e).
  { field. lra. }
  assert (Edn : (q / pow2 e - (1 # 2)) * pow2 e == q - (1 # 2) * pow2 e).
  { field. lra. }
  rewrite Eup in Hup. rewrite Edn in Hdn.
  assert (Hpe : pow2 e * inject_Z (2 ^ 52) <= q).
  { rewrite <- H52, <- Hsplit. exact Hlow. }
  rewrite unit_roundoff_value.
  assert (Hu : (1 # 2) * pow2 e <= q * (1 # 9007199254740992)).
  { assert (Hc : (1 # 2) * pow2 e
                 == (pow2 e * inject_Z (2 ^ 52)) * (1 # 9007199254740992)).
    { set (p := pow2 e). vm_compute (inject_Z (2 ^ 52)). field. }
    rewrite Hc. apply Qmult_le_compat_r; [exact Hpe | discriminate]. }
  split; lra.
Qed.

Lemma roundPositive_nonneg (q : Q) : 0 < q -> 0 <= roundPositive q.
Proof.
  intros Hq. unfold roundPositive. apply Qmult_le_0_compat.
  - change 0 with (inject_Z 0). rewrite <- Zle_Qle.
    apply roundHalfEven_nonneg. apply Qle_shift_div_l; [apply pow2_pos|].
    lra.
  - apply Qlt_le_weak. apply pow2_pos.
Qed.

Lemma round_nonneg_cases (q : Q) :
  0 <= q -> q == 0 /\ round q = 0 \/ 0 < q /\ round q = roundPositive q.
Proof.
  intros Hq. unfold round. destruct q as [n d]. cbn [Qnum].
  destruct n as [|p|p].
  - left. split; reflexivity.
  - right. split; reflexivity.
  - exfalso. unfold Qle in Hq. cbn in Hq. lia.
Qed.

Lemma round_near (q : Q) :
  0 <= q ->
  q * (1 - unit_roundoff) <= round q <= q * (1 + unit_roundoff).
Proof.
  intros Hq. destruct (round_nonneg_cases q Hq) as [[H0 ->] | [Hpos ->]].
  - rewrite H0. split; discriminate.
  - apply roundPositive_near. exact Hpos.
Qed.

Lemma round_nonneg (q : Q) : 0 <= q -> 0 <= round q.
Proof.
  intros Hq. destruct (round_nonneg_cases q Hq) as [[H0 ->] | [Hpos ->]].
  - discriminate.
  - apply roundPositive_nonneg. exact Hpos.
Qed.

(** A quotient of doubles. *)
Lemma div_near (a b : Q) :
  0 <= a -> 0 < b ->
  0 <= div a b
  /\ (a / b) * (1 - unit_roundoff) <= div a b
     <= (a / b) * (1 + unit_roundoff).
Proof.
  intros Ha Hb. assert (H : 0 <= a / b) by (apply Qle_shift_div_l; lra).
  unfold div. split; [apply round_nonneg | apply round_near]; exact H.
Qed.

(** Rounding a number that approximates [y]. *)
Lemma round_of_near (p y : Q) :
  0 <= y ->
  y * (1 - unit_roundoff) <= p <= y * (1 + unit_roundoff) ->
  0 <= round p
  /\ y * (1 - unit_roundoff) * (1 - unit_roundoff) <= round p
     <= y * (1 + unit_roundoff) * (1 + unit_roundoff).
Proof.
  rewrite unit_roundoff_value. intros Hy [Hlo Hhi].
  assert (Hp : 0 <= p) by lra.
  pose proof (round_near p Hp) as Hround.
  rewrite unit_roundoff_value in Hround.
  pose proof (round_nonneg p Hp) as H0.
  split; [exact H0|]. set (v := round p) in *. split; lra.
Qed.

(** A product of doubles, one of which approximates [r]. *)
Lemma mul_near_r (n r' r : Q) :
  0 <= n -> 0 <= r ->
  r * (1 - unit_roundoff) <= r' <= r * (1 + unit_roundoff) ->
  0 <= mul n r'
  /\ (n * r) * (1 - unit_roundoff) * (1 - unit_roundoff) <= mul n r'
     <= (n * r) * (1 + unit_roundoff) * (1 + unit_roundoff).
Proof.
  intros Hn Hr [Hlo Hhi]. unfold mul. apply round_of_near.
  - apply Qmult_le_0_compat; assumption.
  - rewrite unit_roundoff_value in *.
    assert (P1 : 0 <= n * (r' - r * (1 - (1 # 9007199254740992))))
      by (apply Qmult_le_0_compat; lra).
    assert (P2 : 0 <= n * (r * (1 + (1 # 9007199254740992)) - r'))
      by (apply Qmult_le_0_compat; lra).
    assert (E1 : n * (r' - r * (1 - (1 # 9007199254740992)))
                 == n * r' - (n * r) * (1 - (1 # 9007199254740992)))
      by ring.
    assert (E2 : n * (r * (1 + (1 # 9007199254740992)) - r')
                 == (n * r) * (1 + (1 # 9007199254740992)) - n * r')
      by ring.
    rewrite E1 in P1. rewrite E2 in P2.
    set (y := n * r) in *. set (z := n * r') in *. split; lra.
Qed.

Lemma mul_near_l (r' r n : Q) :
  0 <= n -> 0 <= r ->
  r * (1 - unit_roundoff) <= r' <= r * (1 + unit_roundoff) ->
  0 <= mul r' n
  /\ (r * n) * (1 - unit_roundoff) * (1 - unit_roundoff) <= mul r' n
     <= (r * n) * (1 + unit_roundoff) * (1 + unit_roundoff).
Proof.
  intros Hn Hr [Hlo Hhi]. unfold mul. apply round_of_near.
  - apply Qmult_le_0_compat; assumption.
  - rewrite unit_roundoff_value in *.
    assert (P1 : 0 <= (r' - r * (1 - (1 # 9007199254740992))) * n)
      by (apply Qmult_le_0_compat; lra).
    assert (P2 : 0 <= (r * (1 + (1 # 9007199254740992)) - r') * n)
      by (apply Qmult_le_0_compat; lra).
    assert (E1 : (r' - r * (1 - (1 # 9007199254740992))) * n
                 == r' * n - (r * n) * (1 - (1 # 9007199254740992)))
      by ring.
    assert (E2 : (r * (1 + (1 # 9007199254740992)) - r') * n
                 == (r * n) * (1 + (1 # 9007199254740992)) - r' * n)
      by ring.
    rewrite E1 in P1. rewrite E2 in P2.
    set (y := r * n) in *. set (z := r' * n) in *. split; lra.
Qed.

End DoubleFacts.

(** ** Canvas dimensions *)

Module CanvasFacts.

Lemma toUnsignedLong_floor (v : Q) :
  0 <= v -> (Qfloor v < 2 ^ 32)%Z -> toUnsignedLong v = Qfloor v.
Proof.
  intros Hv Hlt. unfold toUnsignedLong. destruct v as [n d].
  assert (Hn : (0 <= n)%Z) by (unfold Qle in Hv; cbn in Hv; lia).
  cbn [Qnum Qden] in *. unfold Qfloor in *.
  rewrite Z.quot_div_nonneg by lia.
  apply Z.mod_small. split; [apply Z.div_pos; lia | exact Hlt].
Qed.

(** A canvas dimension keeps the integer part of a number that is not
    negative and below [2^31]. *)
Lemma canvasDimension_floor (default : Z) (v : Q) :
  0 <= v -> (Qfloor v <= 2147483647)%Z ->
  canvasDimension default v = inject_Z (Qfloor v).
Proof.
  intros Hv Hle. unfold canvasDimension.
  rewrite toUnsignedLong_floor by (try exact Hv; lia).
  destruct (Z.leb_spec (Qfloor v) 2147483647); [reflexivity | lia].
Qed.

Lemma canvasDimension_integer (default n : Z) :
  (0 <= n <= 2147483647)%Z ->
  canvasDimension default (inject_Z n) = inject_Z n.
Proof.
  intros [H0 H1].
  rewrite canvasDimension_floor; rewrite ?Qfloor_Z; try lia.
  - reflexivity.
  - change 0 with (inject_Z 0). rewrite <- Zle_Qle. exact H0.
Qed.

End CanvasFacts.

(** ** The crop engine *)

Module CropEngine.
Import ImageCropper.

Lemma handlePointerMove_dragging s box e act :
  isDragging s = true -> action s = Some act ->
  handlePointerMove s (Some box) e
  = Normal (setCrop s (newCrop act (startCrop s)
                               (deltaX s box e) (deltaY s box e))).
Proof.
  intros Hd Ha. unfold handlePointerMove. rewrite Hd, Ha. reflexivity.
Qed.

(** A pointer move outside a gesture changes nothing. *)
Lemma handlePointerMove_idle s box e :
  isDragging s = false \/ action s = None \/ box = None ->
  handlePointerMove s box e = Normal s.
Proof.
  unfold handlePointerMove. intros [H | [H | H]].
  - rewrite H. reflexivity.
  - rewrite H. destruct (isDragging s), box; reflexivity.
  - subst box. destruct (isDragging s); reflexivity.
Qed.

(** [Examples.session0] is the state a pointer-down leaves. *)
Lemma session0_begun (act : Action) :
  handlePointerDown
    (setCrop initial {| x := 20; y := 30; w := 50; h := 40 |})
    (Some Examples.box0) Examples.down0 (Some act)
  = Normal (Examples.session0 act).
Proof. reflexivity. Qed.

(** The lower bounds of the invariant survive every action. *)
Lemma newCrop_lower_bounds act start dX dY :
  NormalizedRect start ->
  let r := newCrop act start dX dY in
  0 <= x r /\ 0 <= y r /\ 10 <= w r /\ 10 <= h r.
Proof.
  unfold NormalizedRect. intros (Hx & Hy & Hxw & Hyh & Hw & Hh).
  destruct act; cbn; repeat split; minmax_lra.
Qed.

(** A move keeps the whole invariant. *)
Lemma newCrop_move_normalized start dX dY :
  NormalizedRect start -> NormalizedRect (newCrop move start dX dY).
Proof.
  unfold NormalizedRect. intros (Hx & Hy & Hxw & Hyh & Hw & Hh).
  cbn; repeat split; minmax_lra.
Qed.

(** So does a drag of the south-east handle. *)
Lemma newCrop_se_normalized start dX dY :
  NormalizedRect start -> NormalizedRect (newCrop se start dX dY).
Proof.
  unfold NormalizedRect. intros (Hx & Hy & Hxw & Hyh & Hw & Hh).
  cbn; repeat split; minmax_lra.
Qed.

(** A west or north edge keeps the invariant as long as it is not dragged
    past the border of the image. *)
Lemma newCrop_inside_normalized act start dX dY :
  NormalizedRect start ->
  0 <= x start + dX -> 0 <= y start + dY ->
  NormalizedRect (newCrop act start dX dY).
Proof.
  unfold NormalizedRect. intros (Hx & Hy & Hxw & Hyh & Hw & Hh) HdX HdY.
  destruct act; cbn; repeat split; minmax_lra.
Qed.

End CropEngine.

Section CropEngineClaims.
Import ImageCropper CropEngine Examples.

(** C1, evaluated where it fails.  From the full-frame rectangle of the
    first render a drag of the north-west handle half a container width to
    the left returns the rectangle [{x: 0, y: 0, w: 150, h: 100}]: the
    start rectangle satisfies the invariants of a normalized rectangle and
    the returned one does not, since [x + w = 150 > 100]. *)
Theorem west_drag_breaks_normalized_rect :
  exists s1 s2,
    handlePointerDown initial (Some box0) down0 (Some nw) = Normal s1
    /\ handlePointerMove s1 (Some box0) left0 = Normal s2
    /\ NormalizedRect (startCrop s1)
    /\ x (crop s2) == 0 /\ y (crop s2) == 0
    /\ w (crop s2) == 150 /\ h (crop s2) == 100
    /\ ~ NormalizedRect (crop s2).
Proof.
  eexists. eexists. split; [reflexivity|]. split; [reflexivity|].
  split; [apply normalizedRectb_spec; reflexivity|].
  repeat (split; [reflexivity|]).
  rewrite <- normalizedRectb_spec. vm_compute. discriminate.
Qed.

(** C4.  A move-gesture update returns a rectangle with the width and the
    height of the start rectangle, with
    [x = clamp(startRect.x + deltaX, 0, 100 - startRect.w)] and
    [y = clamp(startRect.y + deltaY, 0, 100 - startRect.h)]. *)
Theorem move_translates_only (s : State) (box : DOMRect)
    (e : PointerEvent) :
  isDragging s = true -> action s = Some move ->
  ~ width box == 0 -> ~ height box == 0 ->
  exists s',
    handlePointerMove s (Some box) e = Normal s'
    /\ w (crop s') = w (startCrop s)
    /\ h (crop s') = h (startCrop s)
    /\ x (crop s')
       == clamp (x (startCrop s) + deltaX s box e) 0
                (100 - w (startCrop s))
    /\ y (crop s')
       == clamp (y (startCrop s) + deltaY s box e) 0
                (100 - h (startCrop s)).
Proof.
  intros Hd Ha _ _. eexists. split.
  - apply handlePointerMove_dragging; eassumption.
  - cbn. unfold clamp, Math_max, Math_min. repeat split; reflexivity.
Qed.

Lemma move_translates_only_witness :
  exists s',
    handlePointerMove (session0 move) (Some box0) left0 = Normal s'
    /\ w (crop s') = w (startCrop (session0 move))
    /\ h (crop s') = h (startCrop (session0 move))
    /\ x (crop s')
       == clamp (x (startCrop (session0 move))
                 + deltaX (session0 move) box0 left0) 0
                (100 - w (startCrop (session0 move)))
    /\ y (crop s')
       == clamp (y (startCrop (session0 move))
                 + deltaY (session0 move) box0 left0) 0
                (100 - h (startCrop (session0 move))).
Proof.
  apply (move_translates_only (session0 move) box0 left0).
  - reflexivity.
  - reflexivity.
  - vm_compute. discriminate.
  - vm_compute. discriminate.
Defined.

(** C5.  A west-edge resize (nw, sw) returns
    [x = max(0, startRect.x + validDelta)] and
    [w = startRect.w - validDelta] for
    [validDelta = min(startRect.w - 10, deltaX)], hence [x >= 0] and
    [w >= 10]; a north-edge resize (nw, ne) does the same on [y] and [h].
    The bounds need no assumption on the start rectangle. *)
Theorem west_north_resize_bounds (s : State) (box : DOMRect)
    (e : PointerEvent) (act : Action) :
  isDragging s = true -> action s = Some act ->
  ~ width box == 0 -> ~ height box == 0 ->
  exists s',
    handlePointerMove s (Some box) e = Normal s'
    /\ (act = nw \/ act = sw ->
        let validDelta := Qmin (w (startCrop s) - 10) (deltaX s box e) in
        x (crop s') == Qmax 0 (x (startCrop s) + validDelta)
        /\ w (crop s') == w (startCrop s) - validDelta
        /\ 0 <= x (crop s') /\ 10 <= w (crop s'))
    /\ (act = nw \/ act = ne ->
        let validDelta := Qmin (h (startCrop s) - 10) (deltaY s box e) in
        y (crop s') == Qmax 0 (y (startCrop s) + validDelta)
        /\ h (crop s') == h (startCrop s) - validDelta
        /\ 0 <= y (crop s') /\ 10 <= h (crop s')).
Proof.
  intros Hd Ha _ _. eexists. split.
  - apply handlePointerMove_dragging; eassumption.
  - split; intros [-> | ->]; cbn; unfold Math_max, Math_min;
      repeat split; try reflexivity; minmax_lra.
Qed.

Lemma west_north_resize_bounds_witness :
  exists s',
    handlePointerMove (session0 nw) (Some box0) left0 = Normal s'
    /\ 0 <= x (crop s') /\ 10 <= w (crop s')
    /\ 0 <= y (crop s') /\ 10 <= h (crop s').
Proof.
  destruct (west_north_resize_bounds (session0 nw) box0 left0 nw)
    as (s' & Hs & Hw & Hn).
  - reflexivity.
  - reflexivity.
  - vm_compute. discriminate.
  - vm_compute. discriminate.
  - exists s'. split; [exact Hs|].
    destruct (Hw (or_introl eq_refl)) as (_ & _ & Hx0 & Hw0).
    destruct (Hn (or_introl eq_refl)) as (_ & _ & Hy0 & Hh0).
    repeat split; assumption.
Defined.

(** C6, as stated, fails: a pointer-down whose action is [null], the one
    value of the parameter's type outside the five kinds, is not rejected.
    It returns normally and starts a drag session. *)
Lemma pointer_down_null_action_not_rejected :
  handlePointerDown initial (Some box0) down0 None
  <> Throw "InvalidArgument"
  /\ exists s',
      handlePointerDown initial (Some box0) down0 None = Normal s'
      /\ isDragging s' = true /\ action s' = None.
Proof.
  split; [discriminate|].
  eexists. split; [reflexivity|]. split; reflexivity.
Qed.

(** C6, amended.  [handlePointerDown] validates nothing and never signals
    an error.  It always leaves the current rectangle as it is.  With no
    container mounted it changes nothing; otherwise it starts a session
    with the given action, [null] included: the pointer position and the
    current rectangle are recorded and the pointer is captured.  After a
    pointer-down with a [null] action every pointer move is ignored. *)
Theorem pointer_down_never_rejects (s : State) (box : option DOMRect)
    (e : PointerEvent) (act : option Action) :
  exists s',
    handlePointerDown s box e act = Normal s'
    /\ crop s' = crop s
    /\ match box with
       | None => s' = s
       | Some _ =>
           isDragging s' = true
           /\ dragStart s' = {| px := clientX e; py := clientY e |}
           /\ startCrop s' = crop s
           /\ action s' = act
           /\ capture s' = Some (pointerId e)
           /\ match act with
              | Some _ => True
              | None =>
                  forall box' e', handlePointerMove s' box' e' = Normal s'
              end
       end.
Proof.
  destruct box as [b|]; cbn; eexists; (split; [reflexivity|]); cbn.
  - repeat (split; [reflexivity|]). destruct act; [exact I|].
    intros box' e'. destruct box'; reflexivity.
  - split; reflexivity.
Qed.


End CropEngineClaims.

(** ** The crop export and the blob encoder *)

Section EncodeClaims.
Import ImageCropper OverlayUtils Examples.
Variable Blob : Type.
Variable toBlob : Canvas -> string -> Q -> option Blob.

(** [drawImage] returns unless the element is broken, and leaves the size
    and the context of the canvas as they are. *)
Lemma drawImageRegion_returns (c : Canvas) (img : ImageElement)
    (sx sy sw sh dx dy dw dh : Q) :
  requestState img <> broken ->
  exists c',
    drawImageRegion c img sx sy sw sh dx dy dw dh = Normal c'
    /\ canvasWidth c' = canvasWidth c /\ canvasHeight c' = canvasHeight c
    /\ context2d c' = context2d c.
Proof.
  intros Hstate. unfold drawImageRegion, usability.
  destruct (requestState img); try contradiction;
    repeat match goal with
      | |- context [if ?b then _ else _] => destruct b
      end;
    eexists; (split; [reflexivity|]); repeat split; reflexivity.
Qed.

Lemma drawImageRegion_broken (c : Canvas) (img : ImageElement)
    (sx sy sw sh dx dy dw dh : Q) :
  requestState img = broken ->
  drawImageRegion c img sx sy sw sh dx dy dw dh = Throw "InvalidStateError".
Proof.
  intros Hstate. unfold drawImageRegion, usability. rewrite Hstate.
  reflexivity.
Qed.

(** [performCrop] returns unless it draws a broken element, and calls
    [onCrop] at most once. *)
Lemma performCrop_calls (s : State) (imageRef : option ImageElement)
    (ctx : bool) :
  (forall img, imageRef = Some img -> requestState img <> broken) ->
  exists canvas calls,
    performCrop Blob toBlob s imageRef ctx = Normal (canvas, calls)
    /\ (List.length calls <= 1)%nat.
Proof.
  intros Hstate. unfold performCrop. destruct imageRef as [img|]; [|eauto].
  destruct ctx; cbn [Dom.context2d setHeight setWidth createCanvas];
    [|eauto].
  match goal with |- context [drawImageRegion ?c ?i ?a1 ?a2 ?a3 ?a4 ?a5
                                               ?a6 ?a7 ?a8] =>
    destruct (drawImageRegion_returns c i a1 a2 a3 a4 a5 a6 a7 a8
                (Hstate img eq_refl)) as (c' & -> & _)
  end.
  destruct (toBlob c' "image/jpeg"%string 0.92); eauto.
Qed.

(** With a context, an element that is not broken and an encoder that
    yields bytes, [onCrop] is called once, with these bytes. *)
Lemma performCrop_calls_onCrop (s : State) (img : ImageElement)
    (blob : Blob) :
  requestState img <> broken ->
  (forall c, toBlob c "image/jpeg" 0.92 = Some blob) ->
  exists canvas,
    performCrop Blob toBlob s (Some img) true = Normal (canvas, [blob]).
Proof.
  intros Hstate Hblob. unfold performCrop.
  cbn [Dom.context2d setHeight setWidth createCanvas].
  match goal with |- context [drawImageRegion ?c ?i ?a1 ?a2 ?a3 ?a4 ?a5
                                               ?a6 ?a7 ?a8] =>
    destruct (drawImageRegion_returns c i a1 a2 a3 a4 a5 a6 a7 a8 Hstate)
      as (c' & -> & _)
  end.
  rewrite Hblob. eauto.
Qed.

(** C9.  In the crop export, with an image element [drawImage] accepts
    and a canvas that yields a context, [performCrop] returns normally
    with the canvas it handed to the encoder.  When the encoder yields no
    bytes for that canvas, [onCrop] is called not once (and once, with the
    bytes, when it yields some), whereas [canvasToBlob] rejects its
    promise with the message [Canvas conversion failed] for a canvas the
    encoder yields no bytes for. *)
Theorem crop_export_drops_null_blob (s : State) (img : ImageElement)
    (canvas : Canvas) :
  requestState img <> broken ->
  exists built calls,
    performCrop Blob toBlob s (Some img) true = Normal (Some built, calls)
    /\ (toBlob built "image/jpeg" 0.92 = None -> calls = [])
    /\ (forall blob,
          toBlob built "image/jpeg" 0.92 = Some blob -> calls = [blob])
    /\ (toBlob canvas "image/jpeg" 0.92 = None ->
        canvasToBlob Blob toBlob canvas
        = Rejected "Canvas conversion failed").
Proof.
  intros Hstate. unfold performCrop.
  cbn [Dom.context2d setHeight setWidth createCanvas].
  match goal with |- context [drawImageRegion ?c ?i ?a1 ?a2 ?a3 ?a4 ?a5
                                               ?a6 ?a7 ?a8] =>
    destruct (drawImageRegion_returns c i a1 a2 a3 a4 a5 a6 a7 a8 Hstate)
      as (built & -> & _)
  end.
  assert (Hreject : toBlob canvas "image/jpeg" 0.92 = None ->
                    canvasToBlob Blob toBlob canvas
                    = Rejected "Canvas conversion failed").
  { intros Hnull. unfold canvasToBlob. rewrite Hnull. reflexivity. }
  destruct (toBlob built "image/jpeg" 0.92) as [blob|] eqn:Hblob.
  - exists built, [blob]. rewrite Hblob. split; [reflexivity|].
    split; [discriminate|]. split; [|exact Hreject].
    intros blob' E. injection E as <-. reflexivity.
  - exists built, []. rewrite Hblob. split; [reflexivity|].
    split; [reflexivity|]. split; [|exact Hreject].
    intros blob E. discriminate E.
Qed.

End EncodeClaims.

Lemma crop_export_drops_null_blob_witness :
  (exists built,
      ImageCropper.performCrop nat Examples.pixelBlob
        (Examples.session0 ImageCropper.move)
        (Some (Examples.loaded Examples.image1x1)) true
      = Normal (Some built, []))
  /\ OverlayUtils.canvasToBlob nat Examples.pixelBlob
       (setWidth (createCanvas true) 0)
     = Rejected "Canvas conversion failed".
Proof.
  destruct (crop_export_drops_null_blob nat Examples.pixelBlob
              (Examples.session0 ImageCropper.move)
              (Examples.loaded Examples.image1x1)
              (setWidth (createCanvas true) 0))
    as (built & calls & Hrun & Hnull & _ & Hreject).
  - discriminate.
  - split; [|apply Hreject; reflexivity].
    exists built. rewrite Hrun. rewrite Hnull; [reflexivity|].
    vm_compute in Hrun. injection Hrun as <- _. reflexivity.
Defined.

(** ** The overlay compositor *)

Module Compositor.
Import OverlayUtils DoubleFacts.

Lemma drawSize_small (image : Image) :
  (naturalWidth image <= 2560)%Z -> (naturalHeight image <= 2560)%Z ->
  drawSize image = (naturalWidth image, naturalHeight image).
Proof.
  intros Hw Hh. unfold drawSize, MAX_DIMENSION.
  destruct (Z.gtb_spec (naturalWidth image) 2560); [lia|].
  destruct (Z.gtb_spec (naturalHeight image) 2560); [lia|].
  reflexivity.
Qed.

Lemma drawSize_large (image : Image) :
  (2560 < naturalWidth image \/ 2560 < naturalHeight image)%Z ->
  let ratio := Qmin (Double.div 2560 (inject_Z (naturalWidth image)))
                    (Double.div 2560 (inject_Z (naturalHeight image))) in
  drawSize image
  = (Qfloor (Double.mul (inject_Z (naturalWidth image)) ratio),
     Qfloor (Double.mul (inject_Z (naturalHeight image)) ratio)).
Proof.
  intros Hbig. unfold drawSize, MAX_DIMENSION.
  destruct (Z.gtb_spec (naturalWidth image) 2560);
    destruct (Z.gtb_spec (naturalHeight image) 2560);
    try reflexivity; lia.
Qed.

(** The ratio on doubles is within a unit roundoff of the exact ratio. *)
Lemma ratio_near (a b : Q) :
  0 < a -> 0 < b ->
  let ideal := Qmin (2560 / a) (2560 / b) in
  let ratio := Qmin (Double.div 2560 a) (Double.div 2560 b) in
  0 <= ideal
  /\ ideal * (1 - Double.unit_roundoff) <= ratio
     <= ideal * (1 + Double.unit_roundoff).
Proof.
  intros Ha Hb.
  destruct (div_near 2560 a ltac:(lra) Ha) as (_ & Ha1 & Ha2).
  destruct (div_near 2560 b ltac:(lra) Hb) as (_ & Hb1 & Hb2).
  assert (Hqa : 0 <= 2560 / a) by (apply Qle_shift_div_l; lra).
  assert (Hqb : 0 <= 2560 / b) by (apply Qle_shift_div_l; lra).
  rewrite unit_roundoff_value in *. cbv zeta.
  set (qa := 2560 / a) in *. set (qb := 2560 / b) in *.
  set (da := Double.div 2560 a) in *. set (db := Double.div 2560 b) in *.
  minmax_lra.
Qed.

(** The exact scaled dimensions are at most 2560. *)
Lemma scaled_le_max (a b : Q) :
  0 < a -> 0 < b ->
  a * Qmin (2560 / a) (2560 / b) <= 2560
  /\ b * Qmin (2560 / a) (2560 / b) <= 2560.
Proof.
  intros Ha Hb.
  assert (Ea : a * (2560 / a) == 2560) by (field; lra).
  assert (Eb : b * (2560 / b) == 2560) by (field; lra).
  split.
  - apply Qle_trans with (a * (2560 / a)); [|rewrite Ea; apply Qle_refl].
    apply Qmult_le_l; [exact Ha | apply Q.le_min_l].
  - apply Qle_trans with (b * (2560 / b)); [|rewrite Eb; apply Qle_refl].
    apply Qmult_le_l; [exact Hb | apply Q.le_min_r].
Qed.

(** A scaled dimension on doubles against the exact one. *)
Lemma scaled_near (n a b : Q) :
  0 <= n -> 0 < a -> 0 < b ->
  let ideal := n * Qmin (2560 / a) (2560 / b) in
  let scaled :=
    Double.mul n (Qmin (Double.div 2560 a) (Double.div 2560 b)) in
  0 <= ideal /\ 0 <= scaled
  /\ ideal * (1 - Double.unit_roundoff) * (1 - Double.unit_roundoff)
     <= scaled
     <= ideal * (1 + Double.unit_roundoff) * (1 + Double.unit_roundoff).
Proof.
  intros Hn Ha Hb. destruct (ratio_near a b Ha Hb) as (H0 & Hnear).
  destruct (mul_near_r n _ _ Hn H0 Hnear) as (Hs & Hbounds).
  cbv zeta. split; [apply Qmult_le_0_compat; assumption|].
  split; [exact Hs | exact Hbounds].
Qed.

Lemma floor_nonneg (v : Q) : 0 <= v -> (0 <= Qfloor v)%Z.
Proof.
  intros Hv. change 0%Z with (Qfloor (inject_Z 0)).
  apply Qfloor_resp_le. exact Hv.
Qed.

Lemma floor_below (v : Q) (n : Z) :
  v < inject_Z (n + 1) -> (Qfloor v <= n)%Z.
Proof.
  intros Hv. pose proof (Qfloor_le v) as Hf.
  assert (H : inject_Z (Qfloor v) < inject_Z (n + 1))
    by (eapply Qle_lt_trans; [exact Hf | exact Hv]).
  rewrite <- Zlt_Qlt in H. lia.
Qed.

Lemma positive_Q (n : Z) : (0 < n)%Z -> 0 < inject_Z n.
Proof. intros H. change 0 with (inject_Z 0). rewrite <- Zlt_Qlt. exact H. Qed.

(** Both dimensions [drawSize] computes lie between 0 and 2560. *)
Lemma drawSize_bounds (image : Image) :
  (0 < naturalWidth image)%Z -> (0 < naturalHeight image)%Z ->
  (0 <= fst (drawSize image) <= 2560)%Z
  /\ (0 <= snd (drawSize image) <= 2560)%Z.
Proof.
  intros Hw Hh.
  destruct (Z_lt_le_dec 2560 (naturalWidth image)) as [Hbw | Hsw];
    [| destruct (Z_lt_le_dec 2560 (naturalHeight image)) as [Hbh | Hsh] ].
  3: { rewrite drawSize_small by assumption. cbn. lia. }
  all: rewrite drawSize_large by lia; cbn [fst snd].
  all: pose proof (positive_Q _ Hw) as Ha; pose proof (positive_Q _ Hh) as Hb.
  all: destruct (scaled_le_max _ _ Ha Hb) as [Ua Ub].
  all: destruct (scaled_near _ _ _ (Qlt_le_weak _ _ Ha) Ha Hb)
         as (Xa & Va & _ & Wa).
  all: destruct (scaled_near _ _ _ (Qlt_le_weak _ _ Hb) Ha Hb)
         as (Xb & Vb & _ & Wb).
  all: rewrite unit_roundoff_value in Wa, Wb.
  all: split; (split; [apply floor_nonneg; assumption|]).
  all: apply floor_below; change (inject_Z (2560 + 1)) with 2561; lra.
Qed.

(** The output never exceeds the source. *)
Lemma drawSize_no_upscale (image : Image) :
  (0 < naturalWidth image)%Z -> (0 < naturalHeight image)%Z ->
  (fst (drawSize image) <= naturalWidth image)%Z
  /\ (snd (drawSize image) <= naturalHeight image)%Z.
Proof.
  intros Hw Hh.
  assert (Hside : forall n m : Z,
            (0 < n <= 2560)%Z -> (2560 < m)%Z ->
            forall v r : Q,
              r <= 2560 / inject_Z m ->
              v <= inject_Z n * r * (1 + Double.unit_roundoff)
                   * (1 + Double.unit_roundoff) ->
              (Qfloor v <= n)%Z).
  { intros n m Hn Hm v r Hr Hv.
    assert (Hnq : 0 < inject_Z n) by (apply positive_Q; lia).
    assert (Hmq : inject_Z 2561 <= inject_Z m)
      by (rewrite <- Zle_Qle; lia).
    change (inject_Z 2561) with 2561 in Hmq.
    assert (Hq : 2560 / inject_Z m <= 2560 / 2561).
    { apply Qle_shift_div_r; [lra|].
      assert (E : 2560 / 2561 * inject_Z m
                  == 2560 + (2560 # 2561) * (inject_Z m - 2561)) by field.
      rewrite E. lra. }
    assert (Hx : inject_Z n * r <= inject_Z n * (2560 / 2561)).
    { apply Qmult_le_l; [exact Hnq | lra]. }
    rewrite unit_roundoff_value in Hv.
    assert (Hle : v <= inject_Z n).
    { set (x := inject_Z n * r) in *. set (q := inject_Z n) in *.
      assert (E : q * (2560 / 2561) == q * (2560 # 2561)) by field.
      rewrite E in Hx. lra. }
    apply Qfloor_resp_le in Hle. rewrite Qfloor_Z in Hle. exact Hle. }
  pose proof (drawSize_bounds image Hw Hh) as [[_ Bw] [_ Bh]].
  destruct (Z_lt_le_dec 2560 (naturalWidth image)) as [Hbw | Hsw];
    destruct (Z_lt_le_dec 2560 (naturalHeight image)) as [Hbh | Hsh].
  4: { rewrite drawSize_small by assumption. cbn. lia. }
  1: lia.
  all: split; [try lia | try lia].
  all: rewrite drawSize_large by lia; cbn [fst snd].
  all: pose proof (positive_Q _ Hw) as Ha; pose proof (positive_Q _ Hh) as Hb.
  - destruct (scaled_near _ _ _ (Qlt_le_weak _ _ Hb) Ha Hb)
      as (_ & _ & _ & Wb).
    eapply (Hside _ (naturalWidth image)); [lia | lia | | exact Wb].
    apply Q.le_min_l.
  - destruct (scaled_near _ _ _ (Qlt_le_weak _ _ Ha) Ha Hb)
      as (_ & _ & _ & Wa).
    eapply (Hside _ (naturalHeight image)); [lia | lia | | exact Wa].
    apply Q.le_min_r.
Qed.

(** The gap between a fraction and the next integer above its floor. *)
Lemma floor_gap (n m : Z) :
  (0 < m)%Z ->
  inject_Z n / inject_Z m + 1 / inject_Z m
  <= inject_Z (Qfloor (inject_Z n / inject_Z m) + 1).
Proof.
  intros Hm. rewrite <- Zdiv_Qdiv.
  pose proof (positive_Q _ Hm) as Hmq.
  assert (Hz : (n + 1 <= m * (n / m + 1))%Z).
  { pose proof (Z.div_mod n m ltac:(lia)) as Hdm.
    pose proof (Z.mod_pos_bound n m Hm) as Hb. nia. }
  rewrite Zle_Qle in Hz. rewrite inject_Z_mult, !inject_Z_plus in Hz.
  rewrite inject_Z_plus.
  change (inject_Z 1) with 1 in *.
  assert (E : inject_Z n / inject_Z m + 1 / inject_Z m
              == (inject_Z n + 1) / inject_Z m) by (field; lra).
  rewrite E. apply Qle_shift_div_r; [exact Hmq|].
  set (k := inject_Z (n / m)) in *. lra.
Qed.

(** The floor of the scaled dimension on doubles is the floor of the
    exact one, or one less. *)
Lemma scaled_floor_near (n a b : Z) :
  (0 < a <= 4294967295)%Z -> (0 < b <= 4294967295)%Z ->
  n = a \/ n = b ->
  let ideal := inject_Z n * Qmin (2560 / inject_Z a) (2560 / inject_Z b) in
  let scaled :=
    Double.mul (inject_Z n)
               (Qmin (Double.div 2560 (inject_Z a))
                     (Double.div 2560 (inject_Z b))) in
  (Qfloor ideal - 1 <= Qfloor scaled <= Qfloor ideal)%Z.
Proof.
  intros Ha Hb Hn. cbv zeta.
  assert (Hn0 : (0 < n)%Z) by (destruct Hn; lia).
  pose proof (positive_Q _ (proj1 Ha)) as Haq.
  pose proof (positive_Q _ (proj1 Hb)) as Hbq.
  pose proof (positive_Q _ Hn0) as Hnq.
  destruct (scaled_near _ _ _ (Qlt_le_weak _ _ Hnq) Haq Hbq)
    as (X0 & V0 & W1 & W2).
  assert (Hmax : inject_Z n * Qmin (2560 / inject_Z a) (2560 / inject_Z b)
                 <= 2560).
  { destruct (scaled_le_max _ _ Haq Hbq) as [Ua Ub].
    destruct Hn as [-> | ->]; assumption. }
  rewrite unit_roundoff_value in W1, W2.
  set (ideal := inject_Z n * Qmin (2560 / inject_Z a) (2560 / inject_Z b))
    in *.
  set (scaled := Double.mul _ _) in *.
  split.
  - pose proof (Qfloor_le ideal) as Hf.
    assert (Hle : inject_Z (Qfloor ideal - 1) <= scaled).
    { unfold Z.sub. rewrite inject_Z_plus, inject_Z_opp.
      change (inject_Z 1) with 1. lra. }
    apply Qfloor_resp_le in Hle. rewrite Qfloor_Z in Hle. exact Hle.
  - apply floor_below.
    (* the exact dimension is a fraction over the larger side *)
    assert (Hfrac : exists m : Z,
               (0 < m <= 4294967295)%Z
               /\ ideal == inject_Z (n * 2560) / inject_Z m).
    { destruct (Qlt_le_dec (inject_Z a) (inject_Z b)) as [Hab | Hba].
      - exists b. split; [exact Hb|]. unfold ideal.
        rewrite Q.min_r.
        + rewrite inject_Z_mult. change (inject_Z 2560) with 2560.
          field. lra.
        + apply Qle_shift_div_l; [exact Haq|].
          assert (E : 2560 / inject_Z b * inject_Z a
                      == 2560 - 2560 * (inject_Z b - inject_Z a)
                                / inject_Z b) by (field; lra).
          rewrite E.
          assert (0 <= 2560 * (inject_Z b - inject_Z a) / inject_Z b)
            by (apply Qle_shift_div_l; lra).
          lra.
      - exists a. split; [exact Ha|]. unfold ideal.
        rewrite Q.min_l.
        + rewrite inject_Z_mult. change (inject_Z 2560) with 2560.
          field. lra.
        + apply Qle_shift_div_l; [exact Hbq|].
          assert (E : 2560 / inject_Z a * inject_Z b
                      == 2560 - 2560 * (inject_Z a - inject_Z b)
                                / inject_Z a) by (field; lra).
          rewrite E.
          assert (0 <= 2560 * (inject_Z a - inject_Z b) / inject_Z a)
            by (apply Qle_shift_div_l; lra).
          lra. }
    destruct Hfrac as (m & Hm & Hexact).
    pose proof (floor_gap (n * 2560) m ltac:(lia)) as Hgap.
    rewrite (Qfloor_comp _ _ Hexact).
    pose proof (positive_Q _ (proj1 Hm)) as Hmq.
    assert (Hinv : (1 # 4294967295) <= 1 / inject_Z m).
    { apply Qle_shift_div_l; [exact Hmq|].
      assert (Hm' : inject_Z m <= 4294967295).
      { change 4294967295 with (inject_Z 4294967295).
        rewrite <- Zle_Qle. lia. }
      lra. }
    set (g := 1 / inject_Z m) in *.
    set (fraction := inject_Z (n * 2560) / inject_Z m) in *.
    set (c := inject_Z (Qfloor fraction + 1)) in *.
    lra.
Qed.

Section Render.
Variable measureText : string -> string -> Q.

(** With a 2D context the call returns a canvas of the size [drawSize]
    computes. *)
Lemma drawOverlayOnBitmap_size (canvas : Canvas) (image : Image)
    (readings : TemperatureReadings) (fontScale : option Q) :
  context2d canvas = true ->
  (0 < naturalWidth image)%Z -> (0 < naturalHeight image)%Z ->
  exists out,
    drawOverlayOnBitmap measureText canvas image readings fontScale
    = Normal out
    /\ canvasWidth out = inject_Z (fst (drawSize image))
    /\ canvasHeight out = inject_Z (snd (drawSize image)).
Proof.
  intros Hctx Hw Hh.
  assert (Hrange : (0 <= fst (drawSize image) <= 2147483647)%Z
                   /\ (0 <= snd (drawSize image) <= 2147483647)%Z).
  { pose proof (drawSize_bounds image Hw Hh). lia. }
  unfold drawOverlayOnBitmap. rewrite Hctx. cbn [negb].
  destruct (drawSize image) as [dw dh]. cbn [fst snd] in Hrange.
  eexists. split; [reflexivity|].
  cbn [canvasWidth canvasHeight draw setWidth setHeight fst snd].
  split; apply CanvasFacts.canvasDimension_integer; lia.
Qed.
End Render.

End Compositor.

Section CompositorClaims.
Import OverlayUtils Compositor Examples.
Variable measureText : string -> string -> Q.

(** C3, as stated, fails where rounding moves a product below an
    integer.  For a 4928x3264 image the exact value of [width * r] is
    2560, but the double nearest to [2560 / 4928], times 4928, rounds to
    a double below 2560: the canvas is 2559 wide, not 2560. *)
Lemma exact_floor_fails_at_4928x3264 :
  Qfloor (4928 * Qmin (2560 / 4928) (2560 / 3264)) = 2560%Z
  /\ Qfloor (3264 * Qmin (2560 / 4928) (2560 / 3264)) = 1695%Z
  /\ drawSize image4928x3264 = (2559, 1695)%Z
  /\ exists out,
      drawOverlayOnBitmap measure0 (createCanvas true) image4928x3264
                          (readings0 "12.5") None = Normal out
      /\ canvasWidth out == 2559 /\ canvasHeight out == 1695
      /\ ~ canvasWidth out
           == inject_Z (Qfloor (4928 * Qmin (2560 / 4928) (2560 / 3264))).
Proof.
  split; [reflexivity|]. split; [reflexivity|].
  split; [vm_compute; reflexivity|].
  destruct (drawOverlayOnBitmap_size measure0 (createCanvas true)
              image4928x3264 (readings0 "12.5") None eq_refl eq_refl
              eq_refl) as (out & Hout & Ew & Eh).
  exists out. split; [exact Hout|]. rewrite Ew, Eh.
  assert (E : drawSize image4928x3264 = (2559, 1695)%Z)
    by (vm_compute; reflexivity).
  rewrite E. cbn [fst snd].
  split; [reflexivity|]. split; [reflexivity|]. discriminate.
Qed.

(** C3, amended.  For a source image of positive natural size drawn on a
    canvas with a 2D context: if a natural dimension exceeds 2560 the
    canvas gets the dimensions [floor(width * r)] and [floor(height * r)]
    computed on doubles, for the one ratio
    [r = min(2560 / width, 2560 / height)]; each is the floor of the exact
    value or one less.  Otherwise the canvas gets the natural dimensions.
    In both cases no dimension grows.  A 3000x1500 image gives a 2560x1280
    canvas, a 1200x800 image a 1200x800 canvas and a 4928x3264 image a
    2559x1695 canvas. *)
Theorem downscale_guard (canvas : Canvas) (image : Image)
    (readings : TemperatureReadings) (fontScale : option Q) :
  context2d canvas = true ->
  (0 < naturalWidth image <= 4294967295)%Z ->
  (0 < naturalHeight image <= 4294967295)%Z ->
  exists out,
    drawOverlayOnBitmap measureText canvas image readings fontScale
    = Normal out
    /\ let wd := inject_Z (naturalWidth image) in
       let ht := inject_Z (naturalHeight image) in
       let r := Qmin (2560 / wd) (2560 / ht) in
       let ratio := Math_min (Double.div 2560 wd) (Double.div 2560 ht) in
       (2560 < wd \/ 2560 < ht ->
        canvasWidth out == inject_Z (Qfloor (Double.mul wd ratio))
        /\ canvasHeight out == inject_Z (Qfloor (Double.mul ht ratio))
        /\ inject_Z (Qfloor (wd * r)) - 1 <= canvasWidth out
           <= inject_Z (Qfloor (wd * r))
        /\ inject_Z (Qfloor (ht * r)) - 1 <= canvasHeight out
           <= inject_Z (Qfloor (ht * r)))
       /\ (wd <= 2560 /\ ht <= 2560 ->
           canvasWidth out == wd /\ canvasHeight out == ht)
       /\ canvasWidth out <= wd /\ canvasHeight out <= ht
       /\ (image = image3000x1500 ->
           canvasWidth out == 2560 /\ canvasHeight out == 1280)
       /\ (image = image1200x800 ->
           canvasWidth out == 1200 /\ canvasHeight out == 800)
       /\ (image = image4928x3264 ->
           canvasWidth out == 2559 /\ canvasHeight out == 1695).
Proof.
  intros Hctx Hw Hh.
  destruct (drawOverlayOnBitmap_size measureText canvas image readings
              fontScale Hctx (proj1 Hw) (proj1 Hh))
    as (out & Hout & Ew & Eh).
  exists out. split; [exact Hout|]. cbv zeta. rewrite Ew, Eh.
  split; [|split; [|split; [|split; [|split; [|split]]]]].
  - intros Hbig. change 2560 with (inject_Z 2560) in Hbig.
    rewrite <- !Zlt_Qlt in Hbig.
    rewrite drawSize_large by exact Hbig. cbn [fst snd].
    split; [reflexivity|]. split; [reflexivity|].
    pose proof (scaled_floor_near (naturalWidth image) _ _ Hw Hh
                  (or_introl eq_refl)) as Bw.
    pose proof (scaled_floor_near (naturalHeight image) _ _ Hw Hh
                  (or_intror eq_refl)) as Bh.
    cbv zeta in Bw, Bh. unfold Math_min.
    set (fw := Qfloor (inject_Z (naturalWidth image) * _)) in *.
    set (fh := Qfloor (inject_Z (naturalHeight image) * _)) in *.
    set (dw := Qfloor (Double.mul (inject_Z (naturalWidth image)) _)) in *.
    set (dh := Qfloor (Double.mul (inject_Z (naturalHeight image)) _)) in *.
    assert (E : forall k, inject_Z k - 1 == inject_Z (k - 1)).
    { intros k. unfold Z.sub. rewrite inject_Z_plus, inject_Z_opp.
      reflexivity. }
    rewrite !E, <- !Zle_Qle. lia.
  - intros [Hsw Hsh]. change 2560 with (inject_Z 2560) in Hsw, Hsh.
    rewrite <- Zle_Qle in Hsw, Hsh.
    rewrite drawSize_small by assumption. cbn. split; reflexivity.
  - rewrite <- Zle_Qle. apply drawSize_no_upscale; lia.
  - rewrite <- Zle_Qle. apply drawSize_no_upscale; lia.
  - intros ->. split; vm_compute; reflexivity.
  - intros ->. split; reflexivity.
  - intros ->. split; vm_compute; reflexivity.
Qed.

(** C8.  Without a 2D context [drawOverlayOnBitmap] returns normally and
    leaves the canvas as it found it: dimensions and content. *)
Theorem no_context_no_output (canvas : Canvas) (image : Image)
    (readings : TemperatureReadings) (fontScale : option Q) :
  context2d canvas = false ->
  drawOverlayOnBitmap measureText canvas image readings fontScale
  = Normal canvas.
Proof.
  intros Hctx. unfold drawOverlayOnBitmap. rewrite Hctx. reflexivity.
Qed.

(** C10.  For the source size 10000x2 the downscale guard computes the
    height [floor(2 * 2560 / 10000) = 0]: the canvas of the compositor is
    2560 wide and 0 high. *)
Theorem extreme_aspect_zero_dimension
    (readings : TemperatureReadings) (fontScale : option Q) :
  Qfloor (2 * (2560 / 10000)) = 0%Z
  /\ drawSize image10000x2 = (2560, 0)%Z
  /\ exists out,
      drawOverlayOnBitmap measureText (createCanvas true) image10000x2
                          readings fontScale = Normal out
      /\ canvasWidth out == 2560 /\ canvasHeight out == 0.
Proof.
  assert (E : drawSize image10000x2 = (2560, 0)%Z)
    by (vm_compute; reflexivity).
  split; [reflexivity|]. split; [exact E|].
  destruct (drawOverlayOnBitmap_size measureText (createCanvas true)
              image10000x2 readings fontScale eq_refl eq_refl eq_refl)
    as (out & Hout & Ew & Eh).
  exists out. split; [exact Hout|]. rewrite Ew, Eh, E.
  split; reflexivity.
Qed.

End CompositorClaims.

Lemma downscale_guard_witness :
  exists out,
    OverlayUtils.drawOverlayOnBitmap Examples.measure0 (createCanvas true)
      Examples.image4928x3264 (Examples.readings0 "12.5") None = Normal out
    /\ canvasWidth out == 2559 /\ canvasHeight out == 1695.
Proof.
  destruct (downscale_guard Examples.measure0 (createCanvas true)
              Examples.image4928x3264 (Examples.readings0 "12.5") None)
    as (out & Hout & _ & _ & _ & _ & _ & _ & H4928).
  - reflexivity.
  - cbn. lia.
  - cbn. lia.
  - exists out. split; [exact Hout|]. apply H4928. reflexivity.
Defined.

Lemma no_context_no_output_witness :
  OverlayUtils.drawOverlayOnBitmap Examples.measure0 (createCanvas false)
    Examples.image3000x1500 (Examples.readings0 "12.5") None
  = Normal (createCanvas false).
Proof.
  apply (no_context_no_output Examples.measure0 (createCanvas false)).
  reflexivity.
Defined.

(** ** The text lines *)

Section LinesClaims.
Import OverlayUtils Examples.
Local Open Scope string_scope.

Lemma trim_empty (s : string) : is_empty s = true -> trim s = EmptyString.
Proof. destruct s; [reflexivity | discriminate]. Qed.

(** The four mandatory lines follow the format of the specification. *)
Lemma mandatory_lines (r : TemperatureReadings) :
  firstn 4 (overlayLines r)
  = [ readingLine "t1" (t1 r); readingLine "t2" (t2 r);
      readingLine "t3" (t3 r); readingLine "t4" (t4 r) ].
Proof.
  unfold overlayLines.
  destruct (negb (is_empty (pt r))
            && negb (String.eqb (trim (pt r)) EmptyString));
    reflexivity.
Qed.

(** C2, as stated, fails on the fifth line: for [pt = "12.5"] the
    compositor renders five lines and the fifth is [P.T: 12.5°C], with a
    dot in the label, not [PT: 12.5°C]. *)
Lemma fifth_line_is_not_PT :
  List.length (overlayLines (readings0 "12.5")) = 5%nat
  /\ nth_error (overlayLines (readings0 "12.5")) 4 = Some "P.T: 12.5°C"
  /\ readingLine "pt" "12.5" = "PT: 12.5°C"
  /\ nth_error (overlayLines (readings0 "12.5")) 4 <> Some "PT: 12.5°C".
Proof.
  repeat split; try reflexivity. discriminate.
Qed.

(** C2, amended.  The lines are those of t1, t2, t3, t4 in this order,
    each [<KEY>: <value>°C] with the key in upper case, followed, when the
    trimmed value of pt is not empty, by the one line [P.T: <pt>°C].  So a
    record with an empty or blank pt gives exactly four lines and
    [pt = "12.5"] gives five, the fifth being [P.T: 12.5°C]. *)
Theorem overlay_lines_format (r : TemperatureReadings) :
  overlayLines r
  = List.app
      [ readingLine "t1" (t1 r); readingLine "t2" (t2 r);
        readingLine "t3" (t3 r); readingLine "t4" (t4 r) ]
      (if String.eqb (trim (pt r)) EmptyString then []
       else [ "P.T: " ++ pt r ++ "°C" ])
  /\ List.length
       (overlayLines {| t1 := t1 r; t2 := t2 r; t3 := t3 r; t4 := t4 r;
                        pt := EmptyString |}) = 4%nat
  /\ List.length
       (overlayLines {| t1 := t1 r; t2 := t2 r; t3 := t3 r; t4 := t4 r;
                        pt := "  " |}) = 4%nat
  /\ overlayLines {| t1 := t1 r; t2 := t2 r; t3 := t3 r; t4 := t4 r;
                     pt := "12.5" |}
     = [ readingLine "t1" (t1 r); readingLine "t2" (t2 r);
         readingLine "t3" (t3 r); readingLine "t4" (t4 r);
         "P.T: 12.5°C" ].
Proof.
  split; [|repeat split; reflexivity].
  unfold overlayLines. destruct (is_empty (pt r)) eqn:He.
  - rewrite (trim_empty _ He). reflexivity.
  - cbn [negb andb].
    destruct (String.eqb (trim (pt r)) EmptyString); reflexivity.
Qed.

End LinesClaims.

(** ** Machine doubles on the examples *)

Section DoubleRemarks.
Import PrimFloat Doubles.
Local Open Scope float_scope.

(** On the sizes 3000x1500 and 10000x2 the doubles agree with the exact
    values: the products are 2560 and 1280, respectively 2560 and a number
    strictly between 0 and 1. *)
Remark doubles_agree_on_examples :
  (scaled 3000 3000 1500 =? 2560) = true
  /\ (scaled 1500 3000 1500 =? 1280) = true
  /\ (scaled 10000 10000 2 =? 2560) = true
  /\ (0 <? scaled 2 10000 2) = true /\ (scaled 2 10000 2 <? 1) = true.
Proof. repeat split; reflexivity. Qed.

(** They do not agree everywhere: for a square image of side 5104 the
    product rounds to a double below 2560, so its floor is 2559 where the
    exact value is 2560. *)
Remark doubles_round_below_at_5104 :
  (scaled 5104 5104 5104 <? 2560) = true
  /\ (2559 <? scaled 5104 5104 5104) = true.
Proof. split; reflexivity. Qed.

(** [Double] computes what the machine computes: on these sizes the
    scaled dimensions are the same numbers, and so are the quotient
    [1 / 10], which is not the rational one tenth, and the product
    [57 / 100 * 100], which is below 57. *)
Remark double_model_agrees_with_machine :
  sameNumber (scaled 4928 4928 3264) (scaledModel 4928 4928 3264) = true
  /\ sameNumber (scaled 3264 4928 3264) (scaledModel 3264 4928 3264) = true
  /\ sameNumber (scaled 5104 5104 5104) (scaledModel 5104 5104 5104) = true
  /\ sameNumber (scaled 3000 3000 1500) (scaledModel 3000 3000 1500) = true
  /\ sameNumber (scaled 2 10000 2) (scaledModel 2 10000 2) = true
  /\ sameNumber (1 / 10) (Double.div 1 10) = true
  /\ sameNumber (1 / 10) (1 # 10)%Q = false
  /\ sameNumber (57 / 100 * 100) (Double.mul (Double.div 57 100) 100) = true
  /\ (57 / 100 * 100 <? 57) = true.
Proof. repeat split; vm_compute; reflexivity. Qed.

End DoubleRemarks.

(** * Further properties of the code *)

(** ** The crop engine: what a gesture update keeps *)

Module CropEngineFacts.
Import ImageCropper CropEngine Edges.

(** From a normalized rectangle, the update is normalized exactly when a
    west or north edge is not dragged further out than the room the start
    width, respectively height, leaves below 100. *)
Lemma newCrop_normalized_iff act start dX dY :
  NormalizedRect start ->
  (NormalizedRect (newCrop act start dX dY)
   <-> (if dragsWest act then w start - 100 <= dX else True)
       /\ (if dragsNorth act then h start - 100 <= dY else True)).
Proof.
  unfold NormalizedRect. intros (Hx & Hy & Hxw & Hyh & Hw & Hh).
  destruct act; cbn; split.
  all: try (intros _; repeat split; minmax_lra).
  all: try (intros (H1 & H2 & H3 & H4 & H5 & H6); split;
            try exact I; minmax_lra).
  all: intros (H1 & H2); repeat split; minmax_lra.
Qed.

(** The edge opposite to a dragged west edge stays where it was exactly
    when the dragged edge stays inside the image. *)
Lemma newCrop_west_opposite act start dX dY :
  dragsWest act = true ->
  let r := newCrop act start dX dY in
  (x r + w r == x start + w start
   <-> 0 <= x start + Qmin (w start - 10) dX).
Proof.
  destruct act; cbn; try discriminate; intros _; split; intros H;
    minmax_lra.
Qed.

Lemma newCrop_north_opposite act start dX dY :
  dragsNorth act = true ->
  let r := newCrop act start dX dY in
  (y r + h r == y start + h start
   <-> 0 <= y start + Qmin (h start - 10) dY).
Proof.
  destruct act; cbn; try discriminate; intros _; split; intros H;
    minmax_lra.
Qed.

(** An action that does not drag the west (north) edge leaves [x] ([y]). *)
Lemma newCrop_origin_kept act start dX dY :
  let r := newCrop act start dX dY in
  (if dragsWest act || is_move act then True else x r = x start)
  /\ (if dragsNorth act || is_move act then True else y r = y start).
Proof. destruct act; cbn; split; trivial. Qed.

(** With no displacement the update is the start rectangle. *)
Lemma newCrop_zero act start dX dY :
  NormalizedRect start -> dX == 0 -> dY == 0 ->
  let r := newCrop act start dX dY in
  x r == x start /\ y r == y start /\ w r == w start /\ h r == h start.
Proof.
  unfold NormalizedRect. intros (Hx & Hy & Hxw & Hyh & Hw & Hh) HdX HdY.
  destruct act; cbn; repeat split; try reflexivity; minmax_lra.
Qed.

End CropEngineFacts.

Section CropEngineExtras.
Import ImageCropper CropEngine Edges CropEngineFacts Examples.

(** X1.  Whatever the action and the pointer position, a gesture update
    from a normalized start rectangle returns a rectangle with [x >= 0],
    [y >= 0], [w >= 10] and [h >= 10]. *)
Theorem gesture_keeps_lower_bounds (s : State) (box : DOMRect)
    (e : PointerEvent) (act : Action) :
  isDragging s = true -> action s = Some act ->
  NormalizedRect (startCrop s) ->
  ~ width box == 0 -> ~ height box == 0 ->
  exists s',
    handlePointerMove s (Some box) e = Normal s'
    /\ 0 <= x (crop s') /\ 0 <= y (crop s')
    /\ 10 <= w (crop s') /\ 10 <= h (crop s').
Proof.
  intros Hd Ha Hn _ _. eexists. split.
  - apply handlePointerMove_dragging; eassumption.
  - apply (newCrop_lower_bounds act (startCrop s)); exact Hn.
Qed.

Lemma gesture_keeps_lower_bounds_witness :
  exists s',
    handlePointerMove (session0 nw) (Some box0) left0 = Normal s'
    /\ 0 <= x (crop s') /\ 0 <= y (crop s')
    /\ 10 <= w (crop s') /\ 10 <= h (crop s').
Proof.
  apply (gesture_keeps_lower_bounds (session0 nw) box0 left0 nw).
  - reflexivity.
  - reflexivity.
  - apply normalizedRectb_spec. reflexivity.
  - vm_compute. discriminate.
  - vm_compute. discriminate.
Defined.

(** X2.  A gesture update from a normalized start rectangle is normalized
    exactly when the west edge, if the action drags it, is not dragged
    left by more than [100 - startCrop.w], and the north edge, if dragged,
    not up by more than [100 - startCrop.h].  In particular a move and a
    drag of the south-east handle always return a normalized rectangle. *)
Theorem gesture_normalized_iff (s : State) (box : DOMRect)
    (e : PointerEvent) (act : Action) :
  isDragging s = true -> action s = Some act ->
  NormalizedRect (startCrop s) ->
  ~ width box == 0 -> ~ height box == 0 ->
  exists s',
    handlePointerMove s (Some box) e = Normal s'
    /\ (NormalizedRect (crop s')
        <-> (if dragsWest act
             then w (startCrop s) - 100 <= deltaX s box e else True)
            /\ (if dragsNorth act
                then h (startCrop s) - 100 <= deltaY s box e else True)).
Proof.
  intros Hd Ha Hn _ _. eexists. split.
  - apply handlePointerMove_dragging; eassumption.
  - apply (newCrop_normalized_iff act (startCrop s)); exact Hn.
Qed.

Lemma gesture_normalized_iff_witness :
  exists s',
    handlePointerMove (session0 nw) (Some box0) left0 = Normal s'
    /\ NormalizedRect (crop s').
Proof.
  destruct (gesture_normalized_iff (session0 nw) box0 left0 nw)
    as (s' & Hs & Hiff).
  - reflexivity.
  - reflexivity.
  - apply normalizedRectb_spec. reflexivity.
  - vm_compute. discriminate.
  - vm_compute. discriminate.
  - exists s'. split; [exact Hs|]. apply Hiff.
    split; vm_compute; discriminate.
Defined.

(** X3.  In a resize the edge opposite to a dragged west edge keeps its
    place, [x + w = startCrop.x + startCrop.w], exactly when the dragged
    edge stays inside the image, that is when
    [startCrop.x + min(startCrop.w - 10, deltaX) >= 0]; likewise for the
    north edge.  An action that drags neither the west edge nor the whole
    rectangle leaves [x] untouched, and likewise [y]. *)
Theorem resize_keeps_opposite_edge (s : State) (box : DOMRect)
    (e : PointerEvent) (act : Action) :
  isDragging s = true -> action s = Some act ->
  ~ width box == 0 -> ~ height box == 0 ->
  exists s',
    handlePointerMove s (Some box) e = Normal s'
    /\ (if dragsWest act then
          x (crop s') + w (crop s') == x (startCrop s) + w (startCrop s)
          <-> 0 <= x (startCrop s)
                   + Qmin (w (startCrop s) - 10) (deltaX s box e)
        else is_move act = true \/ x (crop s') = x (startCrop s))
    /\ (if dragsNorth act then
          y (crop s') + h (crop s') == y (startCrop s) + h (startCrop s)
          <-> 0 <= y (startCrop s)
                   + Qmin (h (startCrop s) - 10) (deltaY s box e)
        else is_move act = true \/ y (crop s') = y (startCrop s)).
Proof.
  intros Hd Ha _ _. eexists. split.
  - apply handlePointerMove_dragging; eassumption.
  - cbn [crop setCrop].
    pose proof (newCrop_west_opposite act (startCrop s) (deltaX s box e)
                  (deltaY s box e)) as HW.
    pose proof (newCrop_north_opposite act (startCrop s) (deltaX s box e)
                  (deltaY s box e)) as HN.
    pose proof (newCrop_origin_kept act (startCrop s) (deltaX s box e)
                  (deltaY s box e)) as [HX HY].
    split.
    + destruct (dragsWest act); [apply HW; reflexivity|].
      destruct (is_move act); [left; reflexivity | right; exact HX].
    + destruct (dragsNorth act); [apply HN; reflexivity|].
      destruct (is_move act); [left; reflexivity | right; exact HY].
Qed.

Lemma resize_keeps_opposite_edge_witness :
  exists s',
    handlePointerMove (session0 sw) (Some box0) left0 = Normal s'
    /\ ~ x (crop s') + w (crop s') == 70
    /\ y (crop s') = 30.
Proof.
  destruct (resize_keeps_opposite_edge (session0 sw) box0 left0 sw)
    as (s' & Hs & Hw & Hn).
  - reflexivity.
  - reflexivity.
  - vm_compute. discriminate.
  - vm_compute. discriminate.
  - exists s'. split; [exact Hs|]. split.
    + intros Heq. cbn in Hw. apply Hw in Heq. vm_compute in Heq.
      apply Heq. reflexivity.
    + destruct Hn as [Hn | Hn]; [discriminate Hn | exact Hn].
Defined.

(** X4.  A pointer-down followed by a pointer-move at the same position
    leaves a normalized rectangle as it is, whatever the action. *)
Theorem press_without_displacement (s : State) (box : DOMRect)
    (e : PointerEvent) (act : Action) :
  NormalizedRect (crop s) ->
  ~ width box == 0 -> ~ height box == 0 ->
  exists s1 s2,
    handlePointerDown s (Some box) e (Some act) = Normal s1
    /\ handlePointerMove s1 (Some box) e = Normal s2
    /\ x (crop s2) == x (crop s) /\ y (crop s2) == y (crop s)
    /\ w (crop s2) == w (crop s) /\ h (crop s2) == h (crop s).
Proof.
  intros Hn _ _. eexists. eexists. split; [reflexivity|].
  split; [reflexivity|]. cbn [crop setCrop startCrop dragStart px py].
  apply (newCrop_zero act (crop s)); [exact Hn | |];
    unfold Qdiv; ring.
Qed.

Lemma press_without_displacement_witness :
  exists s1 s2,
    handlePointerDown initial (Some box0) down0 (Some nw) = Normal s1
    /\ handlePointerMove s1 (Some box0) down0 = Normal s2
    /\ x (crop s2) == 0 /\ y (crop s2) == 0
    /\ w (crop s2) == 100 /\ h (crop s2) == 100.
Proof.
  apply (press_without_displacement initial box0 down0 nw).
  - apply normalizedRectb_spec. reflexivity.
  - vm_compute. discriminate.
  - vm_compute. discriminate.
Defined.

(** An update is computed from the start rectangle and the current
    pointer position only, so after any pointer move a further move gives
    what it would have given alone. *)
Lemma updates_are_absolute (s : State) (box : option DOMRect)
    (e1 e2 : PointerEvent) :
  exists s1,
    handlePointerMove s box e1 = Normal s1
    /\ handlePointerMove s1 box e2 = handlePointerMove s box e2.
Proof.
  unfold handlePointerMove.
  destruct (isDragging s) eqn:Hd; cbn [negb];
    [| eexists; split; [reflexivity|]; rewrite Hd; reflexivity ].
  destruct box as [b|];
    [| eexists; split; [reflexivity|]; rewrite Hd; reflexivity ].
  destruct (action s) as [act|] eqn:Ha;
    [| eexists; split; [reflexivity|]; rewrite Hd, Ha; reflexivity ].
  eexists. split; [reflexivity|]. cbn. rewrite Hd, Ha. reflexivity.
Qed.

(** X6.  A whole gesture, pointer-down, pointer-move, pointer-up, ends in
    a state that is idle (not dragging, no action, no pointer capture),
    whose rectangle is the update computed from the rectangle at
    pointer-down and the displacement between the two events, and in which
    every further pointer move is ignored. *)
Theorem gesture_lifecycle (s : State) (box : DOMRect)
    (e0 e1 e2 : PointerEvent) (act : Action) :
  ~ width box == 0 -> ~ height box == 0 ->
  exists s1 s2 s3,
    handlePointerDown s (Some box) e0 (Some act) = Normal s1
    /\ handlePointerMove s1 (Some box) e1 = Normal s2
    /\ handlePointerUp s2 e2 = Normal s3
    /\ crop s3
       = newCrop act (crop s)
           ((clientX e1 - clientX e0) / width box * 100)
           ((clientY e1 - clientY e0) / height box * 100)
    /\ isDragging s3 = false /\ action s3 = None /\ capture s3 = None
    /\ forall box' e', handlePointerMove s3 box' e' = Normal s3.
Proof.
  intros _ _. do 3 eexists.
  split; [reflexivity|]. split; [reflexivity|]. split; [reflexivity|].
  cbn. repeat (split; [reflexivity|]). intros box' e'. reflexivity.
Qed.

Lemma gesture_lifecycle_witness :
  exists s3,
    isDragging s3 = false /\ action s3 = None
    /\ normalizedRectb (crop s3) = false.
Proof.
  destruct (gesture_lifecycle initial box0 down0 left0 left0 nw)
    as (s1 & s2 & s3 & _ & _ & _ & Hc & Hd & Ha & _).
  - vm_compute. discriminate.
  - vm_compute. discriminate.
  - exists s3. split; [exact Hd|]. split; [exact Ha|].
    rewrite Hc. reflexivity.
Defined.

End CropEngineExtras.

(** ** The crop export: the source region *)

Section CropExportExtras.
Import ImageCropper Examples DoubleFacts.
Variable Blob : Type.
Variable toBlob : Canvas -> string -> Q -> option Blob.

Lemma scaled_bounds (a n lo hi : Q) :
  0 <= n -> lo <= a -> a <= hi ->
  (lo / 100) * n <= (a / 100) * n <= (hi / 100) * n.
Proof.
  intros Hn Hlo Hhi.
  assert (H1 : 0 <= (a - lo) * n) by (apply Qmult_le_0_compat; lra).
  assert (H2 : 0 <= (hi - a) * n) by (apply Qmult_le_0_compat; lra).
  assert (E : forall b, (b / 100) * n == (b * n) * (1 # 100))
    by (intros; field).
  rewrite !E. split; nra.
Qed.

(** The source region of a normalized rectangle. *)
Lemma rectToPixels_bounds (r : Rect) (naturalW naturalH : Z) :
  NormalizedRect r -> (0 <= naturalW)%Z -> (0 <= naturalH)%Z ->
  let p := rectToPixels r naturalW naturalH in
  0 <= pixelX p /\ 0 <= pixelY p
  /\ pixelX p + pixelW p <= inject_Z naturalW
  /\ pixelY p + pixelH p <= inject_Z naturalH
  /\ inject_Z naturalW / 10 <= pixelW p
  /\ inject_Z naturalH / 10 <= pixelH p.
Proof.
  unfold NormalizedRect. intros (Hx & Hy & Hxw & Hyh & Hw & Hh) HW HH.
  assert (HWq : 0 <= inject_Z naturalW)
    by (change 0 with (inject_Z 0); rewrite <- Zle_Qle; exact HW).
  assert (HHq : 0 <= inject_Z naturalH)
    by (change 0 with (inject_Z 0); rewrite <- Zle_Qle; exact HH).
  assert (Bx := scaled_bounds (x r) _ 0 100 HWq ltac:(lra) ltac:(lra)).
  assert (By := scaled_bounds (y r) _ 0 100 HHq ltac:(lra) ltac:(lra)).
  assert (Bw := scaled_bounds (w r) _ 10 100 HWq ltac:(lra) ltac:(lra)).
  assert (Bh := scaled_bounds (h r) _ 10 100 HHq ltac:(lra) ltac:(lra)).
  assert (Bxw := scaled_bounds (x r + w r) _ 0 100 HWq
                   ltac:(lra) ltac:(lra)).
  assert (Byh := scaled_bounds (y r + h r) _ 0 100 HHq
                   ltac:(lra) ltac:(lra)).
  assert (Ew : (x r / 100) * inject_Z naturalW
               + (w r / 100) * inject_Z naturalW
               == ((x r + w r) / 100) * inject_Z naturalW) by field.
  assert (Eh : (y r / 100) * inject_Z naturalH
               + (h r / 100) * inject_Z naturalH
               == ((y r + h r) / 100) * inject_Z naturalH) by field.
  assert (Tw : (10 / 100) * inject_Z naturalW == inject_Z naturalW / 10)
    by field.
  assert (Th : (10 / 100) * inject_Z naturalH == inject_Z naturalH / 10)
    by field.
  assert (Hw1 : (100 / 100) * inject_Z naturalW == inject_Z naturalW)
    by field.
  assert (Hh1 : (100 / 100) * inject_Z naturalH == inject_Z naturalH)
    by field.
  assert (Zw : (0 / 100) * inject_Z naturalW == 0) by field.
  assert (Zh : (0 / 100) * inject_Z naturalH == 0) by field.
  rewrite Zw, Hw1 in Bx, Bxw. rewrite Zh, Hh1 in By, Byh.
  rewrite Tw in Bw. rewrite Th in Bh.
  destruct Bx as [Bx _], By as [By _], Bxw as [_ Bxw], Byh as [_ Byh],
    Bw as [Bw _], Bh as [Bh _].
  cbv zeta. unfold rectToPixels. cbn [pixelX pixelY pixelW pixelH].
  split; [exact Bx|]. split; [exact By|].
  split; [rewrite Ew; exact Bxw|]. split; [rewrite Eh; exact Byh|].
  split; [exact Bw | exact Bh].
Qed.

(** A coordinate on doubles against the exact one. *)
Lemma pixel_near (a n : Q) :
  0 <= a -> 0 <= n ->
  0 <= Double.mul (Double.div a 100) n
  /\ (a / 100) * n * (1 - Double.unit_roundoff)
     * (1 - Double.unit_roundoff)
     <= Double.mul (Double.div a 100) n
     <= (a / 100) * n * (1 + Double.unit_roundoff)
        * (1 + Double.unit_roundoff).
Proof.
  intros Ha Hn.
  destruct (div_near a 100 Ha ltac:(lra)) as (_ & Hnear).
  apply mul_near_l; [exact Hn | | exact Hnear].
  apply Qle_shift_div_l; lra.
Qed.

(** The integer part of a side of the region, for an image side [n]. *)
Lemma side_floor (v ideal : Q) (n : Z) :
  (0 < n <= 2147483647)%Z ->
  inject_Z n / 10 <= ideal -> ideal <= inject_Z n ->
  ideal * (1 - Double.unit_roundoff) * (1 - Double.unit_roundoff) <= v
  <= ideal * (1 + Double.unit_roundoff) * (1 + Double.unit_roundoff) ->
  0 < v
  /\ (Qfloor v <= n)%Z
  /\ inject_Z n / 10 - 1 <= inject_Z (Qfloor v).
Proof.
  rewrite unit_roundoff_value. intros Hn Hlo Hhi [Vlo Vhi].
  assert (Hn1 : 1 <= inject_Z n)
    by (change 1 with (inject_Z 1); rewrite <- Zle_Qle; lia).
  assert (Hn2 : inject_Z n <= 2147483647)
    by (change 2147483647 with (inject_Z 2147483647);
        rewrite <- Zle_Qle; lia).
  assert (E10 : inject_Z n / 10 == inject_Z n * (1 # 10)) by field.
  rewrite E10 in *. set (q := inject_Z n) in *.
  split; [lra|]. split.
  - apply Compositor.floor_below. rewrite inject_Z_plus. fold q.
    change (inject_Z 1) with 1. lra.
  - pose proof (Qlt_floor v) as Hc. rewrite inject_Z_plus in Hc.
    change (inject_Z 1) with 1 in Hc.
    set (k := Qfloor v) in *.
    assert (Hz : (n - 1 < 10 * k + 10)%Z).
    { rewrite Zlt_Qlt. unfold Z.sub.
      rewrite !inject_Z_plus, inject_Z_mult, inject_Z_opp. fold q.
      change (inject_Z 1) with 1. change (inject_Z 10) with 10. lra. }
    assert (Hz' : (n <= 10 * k + 10)%Z) by lia.
    rewrite Zle_Qle in Hz'.
    rewrite inject_Z_plus, inject_Z_mult in Hz'. fold q in Hz'.
    change (inject_Z 10) with 10 in Hz'. lra.
Qed.

(** What [performCrop] does with an element that is loaded and a source
    region that is not empty. *)
Lemma performCrop_loaded (s : State) (img : ImageElement) :
  requestState img = completelyAvailable ->
  (0 < naturalWidth (imageOf img))%Z ->
  (0 < naturalHeight (imageOf img))%Z ->
  let p := pixelRect (crop s) (naturalWidth (imageOf img))
                     (naturalHeight (imageOf img)) in
  0 < pixelW p -> 0 < pixelH p ->
  let canvas :=
    {| canvasWidth := canvasDimension 300 (pixelW p);
       canvasHeight := canvasDimension 150 (pixelH p);
       context2d := true;
       drawn := [drawImage9 (imageOf img) (pixelX p) (pixelY p)
                            (pixelW p) (pixelH p) 0 0 (pixelW p)
                            (pixelH p)] |} in
  performCrop Blob toBlob s (Some img) true
  = Normal (Some canvas,
            match toBlob canvas "image/jpeg" 0.92 with
            | Some blob => [blob]
            | None => []
            end).
Proof.
  intros Hstate Hw Hh p Hpw Hph canvas. unfold performCrop.
  cbn [Dom.context2d setHeight setWidth createCanvas].
  unfold drawImageRegion, usability. rewrite Hstate.
  destruct (Z.eqb_spec (naturalWidth (imageOf img)) 0); [lia|].
  destruct (Z.eqb_spec (naturalHeight (imageOf img)) 0); [lia|].
  cbn [orb]. fold p.
  assert (Ew : Qeq_bool (pixelW p) 0 = false).
  { destruct (Qeq_bool (pixelW p) 0) eqn:E; [|reflexivity].
    apply Qeq_bool_iff in E. lra. }
  assert (Eh : Qeq_bool (pixelH p) 0 = false).
  { destruct (Qeq_bool (pixelH p) 0) eqn:E; [|reflexivity].
    apply Qeq_bool_iff in E. lra. }
  rewrite Ew, Eh. cbn [orb].
  change (draw (setHeight (setWidth (createCanvas true) (pixelW p))
                          (pixelH p))
               [drawImage9 (imageOf img) (pixelX p) (pixelY p) (pixelW p)
                           (pixelH p) 0 0 (pixelW p) (pixelH p)])
    with canvas.
  destruct (toBlob canvas "image/jpeg" 0.92); reflexivity.
Qed.

(** X7.  For a normalized rectangle and a loaded image whose sides are
    between 1 and 2147483647, [performCrop] returns with a canvas that
    received one drawing call: the source region, computed on doubles, is
    drawn at its own size.  The canvas keeps the integer parts of the
    width and the height of the region.  The region starts inside the
    image and ends at most a millionth of a pixel beyond it; the canvas
    is not larger than the image and at least a tenth of it, less one
    pixel, in each direction. *)
Theorem crop_region_within_image (s : State) (img : ImageElement) :
  NormalizedRect (crop s) ->
  requestState img = completelyAvailable ->
  (0 < naturalWidth (imageOf img) <= 2147483647)%Z ->
  (0 < naturalHeight (imageOf img) <= 2147483647)%Z ->
  exists canvas calls,
    let p := pixelRect (crop s) (naturalWidth (imageOf img))
                       (naturalHeight (imageOf img)) in
    let wd := inject_Z (naturalWidth (imageOf img)) in
    let ht := inject_Z (naturalHeight (imageOf img)) in
    performCrop Blob toBlob s (Some img) true = Normal (Some canvas, calls)
    /\ drawn canvas
       = [drawImage9 (imageOf img) (pixelX p) (pixelY p) (pixelW p)
                     (pixelH p) 0 0 (pixelW p) (pixelH p)]
    /\ canvasWidth canvas = inject_Z (Qfloor (pixelW p))
    /\ canvasHeight canvas = inject_Z (Qfloor (pixelH p))
    /\ 0 <= pixelX p /\ 0 <= pixelY p
    /\ pixelX p + pixelW p <= wd + (1 # 1000000)
    /\ pixelY p + pixelH p <= ht + (1 # 1000000)
    /\ wd / 10 - 1 <= canvasWidth canvas <= wd
    /\ ht / 10 - 1 <= canvasHeight canvas <= ht.
Proof.
  intros Hn Hstate HW HH.
  pose proof (rectToPixels_bounds (crop s) _ _ Hn
                (Z.lt_le_incl _ _ (proj1 HW))
                (Z.lt_le_incl _ _ (proj1 HH))) as Hb.
  cbv zeta in Hb. unfold rectToPixels in Hb.
  cbn [pixelX pixelY pixelW pixelH] in Hb.
  destruct Hb as (Ex & Ey & Exw & Eyh & Ew & Eh).
  destruct Hn as (Hx & Hy & Hxw & Hyh & Hw & Hh).
  assert (HWq : 0 <= inject_Z (naturalWidth (imageOf img)))
    by (change 0 with (inject_Z 0); rewrite <- Zle_Qle; lia).
  assert (HHq : 0 <= inject_Z (naturalHeight (imageOf img)))
    by (change 0 with (inject_Z 0); rewrite <- Zle_Qle; lia).
  assert (HWm : inject_Z (naturalWidth (imageOf img)) <= 2147483647)
    by (change 2147483647 with (inject_Z 2147483647);
        rewrite <- Zle_Qle; lia).
  assert (HHm : inject_Z (naturalHeight (imageOf img)) <= 2147483647)
    by (change 2147483647 with (inject_Z 2147483647);
        rewrite <- Zle_Qle; lia).
  destruct (pixel_near (x (crop s)) _ Hx HWq) as (Px0 & Px).
  destruct (pixel_near (y (crop s)) _ Hy HHq) as (Py0 & Py).
  destruct (pixel_near (w (crop s)) _ ltac:(lra) HWq) as (Pw0 & Pw).
  destruct (pixel_near (h (crop s)) _ ltac:(lra) HHq) as (Ph0 & Ph).
  assert (Hwle : w (crop s) / 100 * inject_Z (naturalWidth (imageOf img))
                 <= inject_Z (naturalWidth (imageOf img))) by lra.
  assert (Hhle : h (crop s) / 100 * inject_Z (naturalHeight (imageOf img))
                 <= inject_Z (naturalHeight (imageOf img))) by lra.
  destruct (side_floor _ _ _ HW Ew Hwle Pw) as (Sw0 & Sw1 & Sw2).
  destruct (side_floor _ _ _ HH Eh Hhle Ph) as (Sh0 & Sh1 & Sh2).
  pose proof (performCrop_loaded s img Hstate (proj1 HW) (proj1 HH)
                Sw0 Sh0) as Hrun.
  cbv zeta in Hrun. do 2 eexists. cbv zeta.
  split; [exact Hrun|]. cbn [drawn canvasWidth canvasHeight].
  unfold pixelRect. cbn [pixelX pixelY pixelW pixelH].
  rewrite !CanvasFacts.canvasDimension_floor
    by (try (apply Qlt_le_weak; assumption); lia).
  rewrite unit_roundoff_value in *.
  split; [reflexivity|]. split; [reflexivity|]. split; [reflexivity|].
  split; [exact Px0|]. split; [exact Py0|].
  assert (Lw : inject_Z (Qfloor (Double.mul (Double.div (w (crop s)) 100)
                 (inject_Z (naturalWidth (imageOf img)))))
               <= inject_Z (naturalWidth (imageOf img)))
    by (rewrite <- Zle_Qle; exact Sw1).
  assert (Lh : inject_Z (Qfloor (Double.mul (Double.div (h (crop s)) 100)
                 (inject_Z (naturalHeight (imageOf img)))))
               <= inject_Z (naturalHeight (imageOf img)))
    by (rewrite <- Zle_Qle; exact Sh1).
  set (ex := x (crop s) / 100 * inject_Z (naturalWidth (imageOf img))) in *.
  set (ey := y (crop s) / 100 * inject_Z (naturalHeight (imageOf img)))
    in *.
  set (ew := w (crop s) / 100 * inject_Z (naturalWidth (imageOf img))) in *.
  set (eh := h (crop s) / 100 * inject_Z (naturalHeight (imageOf img)))
    in *.
  repeat split; try assumption; lra.
Qed.

End CropExportExtras.

Lemma crop_region_within_image_witness :
  exists canvas calls,
    ImageCropper.performCrop unit Examples.noBlob
      (Examples.session0 ImageCropper.move)
      (Some (Examples.loaded Examples.image1001x667)) true
    = Normal (Some canvas, calls)
    /\ canvasWidth canvas == 500 /\ canvasHeight canvas == 266.
Proof.
  destruct (crop_region_within_image unit Examples.noBlob
              (Examples.session0 ImageCropper.move)
              (Examples.loaded Examples.image1001x667))
    as (canvas & calls & Hrun & _ & Hw & Hh & _).
  - apply normalizedRectb_spec. reflexivity.
  - reflexivity.
  - cbn. lia.
  - cbn. lia.
  - exists canvas, calls. split; [exact Hrun|]. rewrite Hw, Hh.
    split; vm_compute; reflexivity.
Defined.

(** A crop of a tenth of a 1001x667 image in each direction gives a canvas
    of 100 by 66, and a broken element makes [performCrop] throw. *)
Example performCrop_truncates_1001x667 :
  exists canvas,
    ImageCropper.performCrop unit Examples.noBlob
      (ImageCropper.setCrop ImageCropper.initial
         {| ImageCropper.x := 0; ImageCropper.y := 0;
            ImageCropper.w := 10; ImageCropper.h := 10 |})
      (Some (Examples.loaded Examples.image1001x667)) true
    = Normal (Some canvas, [])
    /\ canvasWidth canvas == 100 /\ canvasHeight canvas == 66.
Proof.
  eexists. split; [vm_compute; reflexivity|]. split; reflexivity.
Qed.

Example performCrop_broken_throws :
  ImageCropper.performCrop unit Examples.noBlob ImageCropper.initial
    (Some Examples.brokenElement) true
  = Throw "InvalidStateError".
Proof. reflexivity. Qed.

(** ** The compositor: what it draws *)

Module LayoutFacts.
Import OverlayUtils Compositor Layout.
Local Open Scope string_scope.

Section Measure.
Variable measureText : string -> string -> Q.



(** The canvas [drawOverlayOnBitmap] leaves, written out. *)
Lemma drawOverlayOnBitmap_drawn (canvas : Canvas) (image : Image)
    (readings : TemperatureReadings) (fontScale : option Q) :
  context2d canvas = true ->
  let dw := inject_Z (fst (drawSize image)) in
  let dh := inject_Z (snd (drawSize image)) in
  let cw := canvasDimension 300 dw in
  let ch := canvasDimension 150 dh in
  let size := fontSize cw (scaleOf fontScale) in
  let fs := inject_Z size in
  let lines := overlayLines readings in
  let boxWidth := maxTextWidth measureText (fontOf size) lines + fs * 2 in
  let boxHeight :=
    inject_Z (Z.of_nat (List.length lines)) * (fs * 1.4) + fs * 2 in
  drawOverlayOnBitmap measureText canvas image readings fontScale
  = Normal
      {| canvasWidth := cw; canvasHeight := ch; context2d := true;
         drawn :=
           drawImage5 image 0 0 dw dh
           :: fill "rgba(0, 0, 0, 0.6)"
                   (boxPath fs fs boxWidth boxHeight (fs * 0.5))
           :: fillLines (fontOf size) (fs + fs) (fs + fs) (fs * 1.4) 0
                        lines |}.
Proof.
  intros Hctx. unfold drawOverlayOnBitmap. rewrite Hctx. cbn [negb].
  destruct (drawSize image) as [w h].
  unfold setWidth, setHeight, draw.
  cbn [canvasWidth canvasHeight Dom.context2d drawn fst snd app].
  rewrite Hctx. destruct fontScale; reflexivity.
Qed.
End Measure.

Lemma fillLines_nth (font : string) (tx ty0 lineHeight : Q)
    (lines : list string) (index i : nat) :
  nth_error (fillLines font tx ty0 lineHeight index lines) i
  = option_map
      (fun line =>
         fillText font "#FFFFFF" "top" line tx
                  (ty0 + inject_Z (Z.of_nat (index + i)) * lineHeight))
      (nth_error lines i).
Proof.
  revert index i. induction lines as [|l rest IH]; intros index i.
  - destruct i; reflexivity.
  - destruct i as [|i]; cbn.
    + rewrite Nat.add_0_r. reflexivity.
    + rewrite IH. rewrite Nat.add_succ_r. reflexivity.
Qed.

Lemma fillLines_texts (font : string) (tx ty0 lineHeight : Q)
    (lines : list string) (index : nat) :
  texts (fillLines font tx ty0 lineHeight index lines) = lines.
Proof.
  revert index. induction lines as [|l rest IH]; intros index; cbn.
  - reflexivity.
  - f_equal. apply IH.
Qed.

Lemma fillLines_length (font : string) (tx ty0 lineHeight : Q)
    (lines : list string) (index : nat) :
  List.length (fillLines font tx ty0 lineHeight index lines)
  = List.length lines.
Proof.
  revert index. induction lines as [|l rest IH]; intros index; cbn.
  - reflexivity.
  - f_equal. apply IH.
Qed.

End LayoutFacts.

Section CompositorExtras.
Import OverlayUtils Compositor Layout LayoutFacts Examples.
Local Open Scope string_scope.
Variable measureText : string -> string -> Q.

(** X8.  Drawn on a canvas with a 2D context, an image of positive natural
    size leaves a canvas whose width and height lie between 0 and 2560. *)
Theorem output_within_max_dimension (canvas : Canvas) (image : Image)
    (readings : TemperatureReadings) (fontScale : option Q) :
  context2d canvas = true ->
  (0 < naturalWidth image)%Z -> (0 < naturalHeight image)%Z ->
  exists out,
    drawOverlayOnBitmap measureText canvas image readings fontScale
    = Normal out
    /\ 0 <= canvasWidth out <= 2560 /\ 0 <= canvasHeight out <= 2560.
Proof.
  intros Hctx Hw Hh.
  destruct (drawOverlayOnBitmap_size measureText canvas image readings
              fontScale Hctx Hw Hh) as (out & Hout & Ew & Eh).
  destruct (drawSize_bounds image Hw Hh) as [[W0 W1] [H0 H1]].
  exists out. split; [exact Hout|]. rewrite Ew, Eh.
  change 0 with (inject_Z 0). change 2560 with (inject_Z 2560).
  rewrite <- !Zle_Qle. lia.
Qed.



(** X11.  For an image of positive natural size the canvas receives
    these drawing calls and no other, in this order: first the image,
    filling the whole canvas; second the box, filled with
    [rgba(0, 0, 0, 0.6)]; then, for each text line in the order of the
    lines, one [fillText] of that line in white, so that line [i] is call
    [2 + i] and no text is drawn before the box. *)
Theorem lines_drawn_once_in_order (canvas : Canvas) (image : Image)
    (readings : TemperatureReadings) (fontScale : option Q) :
  context2d canvas = true ->
  (0 < naturalWidth image)%Z -> (0 < naturalHeight image)%Z ->
  exists out box,
    drawOverlayOnBitmap measureText canvas image readings fontScale
    = Normal out
    /\ nth_error (drawn out) 0
       = Some (drawImage5 image 0 0 (canvasWidth out) (canvasHeight out))
    /\ nth_error (drawn out) 1 = Some (fill "rgba(0, 0, 0, 0.6)" box)
    /\ (forall i line,
          nth_error (overlayLines readings) i = Some line ->
          exists font tx ty,
            nth_error (drawn out) (2 + i)
            = Some (fillText font "#FFFFFF" "top" line tx ty))
    /\ texts (drawn out) = overlayLines readings
    /\ List.length (drawn out)
       = (2 + List.length (overlayLines readings))%nat.
Proof.
  intros Hctx Hw Hh.
  destruct (drawSize_bounds image Hw Hh) as [Bw Bh].
  pose proof (drawOverlayOnBitmap_drawn measureText canvas image readings
                fontScale Hctx) as Hrun.
  cbv zeta in Hrun.
  rewrite !CanvasFacts.canvasDimension_integer in Hrun by lia.
  do 2 eexists. split; [exact Hrun|].
  cbn [drawn canvasWidth canvasHeight nth_error].
  split; [reflexivity|]. split; [reflexivity|]. split; [|split].
  - intros i line Hi. cbn [plus nth_error].
    rewrite fillLines_nth, Hi. cbn [option_map]. eauto.
  - cbn [texts flat_map app]. apply fillLines_texts.
  - cbn [List.length]. rewrite fillLines_length. reflexivity.
Qed.

End CompositorExtras.

Lemma output_within_max_dimension_witness :
  exists out,
    OverlayUtils.drawOverlayOnBitmap Examples.measure0 (createCanvas true)
      Examples.image10000x2 (Examples.readings0 "12.5") None = Normal out
    /\ 0 <= canvasWidth out <= 2560 /\ 0 <= canvasHeight out <= 2560.
Proof.
  apply (output_within_max_dimension Examples.measure0 (createCanvas true)
           Examples.image10000x2).
  - reflexivity.
  - reflexivity.
  - reflexivity.
Defined.



Lemma lines_drawn_once_in_order_witness :
  exists out,
    OverlayUtils.drawOverlayOnBitmap Examples.measure0 (createCanvas true)
      Examples.image1200x800 (Examples.readings0 "12.5") None = Normal out
    /\ List.length (drawn out) = 7%nat.
Proof.
  destruct (lines_drawn_once_in_order Examples.measure0
              (createCanvas true) Examples.image1200x800
              (Examples.readings0 "12.5") None)
    as (out & box & Hrun & _ & _ & _ & _ & Hlen).
  - reflexivity.
  - reflexivity.
  - reflexivity.
  - exists out. split; [exact Hrun | exact Hlen].
Defined.

(** ** The off-screen processing of one file *)

Section ProcessImageExtras.
Import OverlayUtils ProcessImage.
Local Open Scope string_scope.
Variable File Blob : Type.
Variable fileName : File -> string.
Variable loadImage : File -> option Image.
Variable measureText : string -> string -> Q.
Variable toBlob : Canvas -> string -> Q -> option Blob.

(** X12.  [processImageFromFile] creates one object URL for the file and
    revokes it only when it succeeds.  It resolves, with the file itself as
    [original] and the encoder's bytes for the drawn canvas as [processed],
    when the image loads and the encoder yields bytes; it rejects with
    [Failed to load image <name>] when the image does not load and with
    [Canvas conversion failed] when the encoder yields nothing, and in both
    cases leaves the URL unrevoked. *)
Theorem process_outcomes (offscreen2d : bool) (file : File)
    (readings : TemperatureReadings) (fontScale : Q) :
  exists events outcome,
    processImageFromFile File Blob fileName loadImage offscreen2d
      measureText toBlob file readings fontScale = (events, outcome)
    /\ match outcome with
       | Resolved result =>
           events = [createObjectURL file; revokeObjectURL file]
           /\ original result = file
           /\ exists img canvas,
               loadImage file = Some img
               /\ drawOverlayOnBitmap measureText
                    (createCanvas offscreen2d) img readings
                    (Some fontScale) = Normal canvas
               /\ toBlob canvas "image/jpeg" 0.92
                  = Some (processed result)
       | Rejected message =>
           events = [createObjectURL file]
           /\ (loadImage file = None
               /\ message = "Failed to load image " ++ fileName file
               \/ loadImage file <> None
                  /\ message = "Canvas conversion failed")
       end.
Proof.
  unfold processImageFromFile.
  destruct (loadImage file) as [img|] eqn:Hload.
  2: { do 2 eexists. split; [reflexivity|]. cbn. auto. }
  destruct (drawOverlayOnBitmap measureText (createCanvas offscreen2d) img
              readings (Some fontScale)) as [canvas|name] eqn:Hdraw.
  2: { exfalso. revert Hdraw. unfold drawOverlayOnBitmap.
       destruct (negb (context2d (createCanvas offscreen2d)));
         [discriminate|].
       destruct (drawSize img). discriminate. }
  unfold canvasToBlob.
  destruct (toBlob canvas "image/jpeg" 0.92) as [blob|] eqn:Hblob.
  - do 2 eexists. split; [reflexivity|]. cbn.
    split; [reflexivity|]. split; [reflexivity|].
    exists img, canvas. auto.
  - do 2 eexists. split; [reflexivity|]. cbn.
    split; [reflexivity|]. right. split; [discriminate | reflexivity].
Qed.

(** X13.  When an off-screen canvas yields no 2D context, a file whose
    image loads is processed without any error as long as the encoder
    yields bytes for a blank canvas: the promise resolves, the URL is
    revoked, and [processed] is the encoding of an untouched canvas of
    300 by 150.  So the result depends neither on the image nor on the
    readings nor on the font scale, and nothing reports the missing
    overlay. *)
Theorem process_without_context (file : File) (img : Image)
    (readings : TemperatureReadings) (fontScale : Q) (blob : Blob) :
  loadImage file = Some img ->
  toBlob (createCanvas false) "image/jpeg" 0.92 = Some blob ->
  processImageFromFile File Blob fileName loadImage false
    measureText toBlob file readings fontScale
  = ([createObjectURL file; revokeObjectURL file],
     Resolved {| original := file; processed := blob |})
  /\ canvasWidth (createCanvas false) == 300
  /\ canvasHeight (createCanvas false) == 150
  /\ drawn (createCanvas false) = [].
Proof.
  intros Hload Hblob. unfold processImageFromFile. rewrite Hload.
  cbn [drawOverlayOnBitmap context2d createCanvas negb].
  unfold canvasToBlob. cbn [createCanvas] in Hblob. rewrite Hblob.
  repeat split; reflexivity.
Qed.

End ProcessImageExtras.

Lemma process_without_context_witness :
  ProcessImage.processImageFromFile string nat AppExamples.fileName0
    AppExamples.loadImage0 false Examples.measure0 AppExamples.toBlob0
    "a.jpg"%string (Examples.readings0 "12.5") 1
  = ([ProcessImage.createObjectURL "a.jpg"%string;
      ProcessImage.revokeObjectURL "a.jpg"%string],
     Resolved {| ProcessImage.original := "a.jpg"%string;
                 ProcessImage.processed := 0%nat |}).
Proof.
  apply (process_without_context string nat AppExamples.fileName0
           AppExamples.loadImage0 Examples.measure0 AppExamples.toBlob0
           "a.jpg"%string Examples.image1200x800
           (Examples.readings0 "12.5") 1 0%nat).
  - reflexivity.
  - reflexivity.
Defined.

(** ** The persistence service *)

Module SortFacts.
Import JSArray Database RecordOrder.

Section Sorting.
Variable File Blob : Type.

Lemma newer_true (x y : ExperimentRecord File Blob) :
  (0 <? newestFirst x y)%Z = true -> (timestamp x < timestamp y)%Z.
Proof. unfold newestFirst. intros H. apply Z.ltb_lt in H. lia. Qed.

Lemma newer_false (x y : ExperimentRecord File Blob) :
  (0 <? newestFirst x y)%Z = false -> (timestamp y <= timestamp x)%Z.
Proof. unfold newestFirst. intros H. apply Z.ltb_ge in H. lia. Qed.

Lemma insert_perm (x : ExperimentRecord File Blob) (l : list (ExperimentRecord File Blob)) :
  Permutation (x :: l) (insert newestFirst x l).
Proof.
  induction l as [|y rest IH]; cbn.
  - apply Permutation_refl.
  - destruct (0 <? newestFirst x y)%Z.
    + eapply Permutation_trans; [apply perm_swap|].
      apply perm_skip. exact IH.
    + apply Permutation_refl.
Qed.

Lemma sort_perm (l : list (ExperimentRecord File Blob)) : Permutation l (sort newestFirst l).
Proof.
  induction l as [|x rest IH]; cbn.
  - apply perm_nil.
  - eapply Permutation_trans; [apply perm_skip; exact IH|].
    apply insert_perm.
Qed.

Lemma insert_sorted (x : ExperimentRecord File Blob) (l : list (ExperimentRecord File Blob)) :
  StronglySorted notOlder l ->
  StronglySorted notOlder (insert newestFirst x l).
Proof.
  induction 1 as [|y rest Hs IH Hall]; cbn.
  - constructor; constructor.
  - destruct (0 <? newestFirst x y)%Z eqn:E.
    + apply newer_true in E. constructor; [exact IH|].
      apply (Permutation_Forall (insert_perm x rest)).
      constructor; [unfold notOlder; lia | exact Hall].
    + apply newer_false in E. constructor; [constructor; assumption|].
      constructor; [unfold notOlder; lia|].
      eapply Forall_impl; [|exact Hall].
      unfold notOlder. intros z Hz. lia.
Qed.

Lemma sort_sorted (l : list (ExperimentRecord File Blob)) :
  StronglySorted notOlder (sort newestFirst l).
Proof.
  induction l as [|x rest IH]; cbn.
  - constructor.
  - apply insert_sorted. exact IH.
Qed.

Lemma filter_sorted (p : ExperimentRecord File Blob -> bool) (l : list (ExperimentRecord File Blob)) :
  StronglySorted notOlder l -> StronglySorted notOlder (filter p l).
Proof.
  induction 1 as [|y rest Hs IH Hall]; cbn.
  - constructor.
  - destruct (p y); [|exact IH].
    constructor; [exact IH|].
    apply Forall_forall. intros z Hz. apply filter_In in Hz.
    rewrite Forall_forall in Hall. apply Hall. tauto.
Qed.

Lemma insert_front (x : ExperimentRecord File Blob) (l : list (ExperimentRecord File Blob)) :
  Forall (notOlder x) l -> insert newestFirst x l = x :: l.
Proof.
  destruct l as [|y rest]; cbn; [reflexivity|].
  intros Hall. inversion_clear Hall as [|? ? Hy _].
  destruct (0 <? newestFirst x y)%Z eqn:E; [|reflexivity].
  apply newer_true in E. unfold notOlder in Hy. lia.
Qed.

Lemma filter_insert (p : ExperimentRecord File Blob -> bool) (x : ExperimentRecord File Blob) (l : list (ExperimentRecord File Blob)) :
  StronglySorted notOlder l ->
  filter p (insert newestFirst x l)
  = if p x then insert newestFirst x (filter p l) else filter p l.
Proof.
  induction 1 as [|y rest Hs IH Hall]; cbn.
  - destruct (p x); reflexivity.
  - destruct (0 <? newestFirst x y)%Z eqn:E.
    + cbn. rewrite IH. destruct (p y), (p x); cbn; try reflexivity.
      rewrite E. reflexivity.
    + apply newer_false in E. rename E into Hold.
      cbn. destruct (p x) eqn:Hpx; [|reflexivity].
      symmetry. apply insert_front.
      apply Forall_forall. intros z Hz.
      assert (Hin : In z (y :: rest)).
      { destruct (p y); [|right; apply filter_In in Hz; tauto].
        destruct Hz as [<- | Hz]; [left; reflexivity|].
        right. apply filter_In in Hz. tauto. }
      rewrite Forall_forall in Hall. unfold notOlder in *.
      destruct Hin as [<- | Hin]; [lia|].
      specialize (Hall z Hin). lia.
Qed.

(** Sorting commutes with dropping records. *)
Lemma sort_filter (p : ExperimentRecord File Blob -> bool) (l : list (ExperimentRecord File Blob)) :
  filter p (sort newestFirst l) = sort newestFirst (filter p l).
Proof.
  induction l as [|x rest IH]; [reflexivity|].
  change (sort newestFirst (x :: rest))
    with (insert newestFirst x (sort newestFirst rest)).
  rewrite filter_insert by apply sort_sorted. rewrite IH. cbn [filter].
  destruct (p x); reflexivity.
Qed.

Lemma sort_same_time (t : Z) (l : list (ExperimentRecord File Blob)) :
  Forall (fun r => timestamp r = t) l -> sort newestFirst l = l.
Proof.
  induction 1 as [|x rest Hx Hall IH]; [reflexivity|].
  change (sort newestFirst (x :: rest))
    with (insert newestFirst x (sort newestFirst rest)).
  rewrite IH. apply insert_front.
  eapply Forall_impl; [|exact Hall].
  unfold notOlder. intros z Hz. lia.
Qed.

(** Records of one timestamp keep the order of their keys. *)
Lemma sort_stable (t : Z) (l : list (ExperimentRecord File Blob)) :
  filter (fun r => (timestamp r =? t)%Z) (sort newestFirst l)
  = filter (fun r => (timestamp r =? t)%Z) l.
Proof.
  rewrite sort_filter. apply (sort_same_time t).
  apply Forall_forall. intros z Hz. apply filter_In in Hz.
  destruct Hz as [_ Hz]. apply Z.eqb_eq. exact Hz.
Qed.

Lemma ascending_weaken (lo lo' : Z) (l : list (ExperimentRecord File Blob)) :
  (lo' <= lo)%Z -> ascending lo l -> ascending lo' l.
Proof. destruct l; cbn; [trivial|]. intros H [H1 H2]. split; [lia|exact H2]. Qed.

Lemma ascending_filter (p : ExperimentRecord File Blob -> bool) (lo : Z) (l : list (ExperimentRecord File Blob)) :
  ascending lo l -> ascending lo (filter p l).
Proof.
  revert lo. induction l as [|y rest IH]; intros lo; cbn; [trivial|].
  intros [H1 H2]. destruct (p y); cbn.
  - split; [exact H1 | apply IH; exact H2].
  - apply ascending_weaken with (id y + 1)%Z; [lia | apply IH; exact H2].
Qed.

Lemma below_filter (p : ExperimentRecord File Blob -> bool) (hi : Z) (l : list (ExperimentRecord File Blob)) :
  below hi l -> below hi (filter p l).
Proof.
  induction l as [|y rest IH]; cbn; [trivial|].
  intros [H1 H2]. destruct (p y); cbn; auto.
Qed.

Lemma below_In (hi : Z) (l : list (ExperimentRecord File Blob)) (r : ExperimentRecord File Blob) :
  below hi l -> In r l -> (id r < hi)%Z.
Proof.
  induction l as [|y rest IH]; cbn; [intros _ []|].
  intros [H1 H2] [<- | Hin]; auto.
Qed.

Lemma ascending_snoc (lo : Z) (l : list (ExperimentRecord File Blob)) (r : ExperimentRecord File Blob) :
  (lo <= id r)%Z -> ascending lo l -> below (id r) l ->
  ascending lo (l ++ [r]).
Proof.
  revert lo. induction l as [|y rest IH]; intros lo Hlo; cbn.
  - auto.
  - intros [H1 H2] [H3 H4]. split; [exact H1|].
    apply IH; [lia | exact H2 | exact H4].
Qed.

Lemma below_snoc (hi : Z) (l : list (ExperimentRecord File Blob)) (r : ExperimentRecord File Blob) :
  below hi l -> (id r < hi + 1)%Z -> below (hi + 1) (l ++ [r]).
Proof.
  induction l as [|y rest IH]; cbn.
  - auto.
  - intros [H1 H2] Hr. split; [lia | apply IH; assumption].
Qed.

End Sorting.
End SortFacts.

Section DatabaseExtras.
Import JSArray Database RecordOrder SortFacts.
Variable File Blob : Type.

(** X14.  [getAllReadings] returns the records of the store, each once,
    newest first; records with the same timestamp keep the order of their
    keys. *)
Theorem history_newest_first (db : ObjectStore File Blob) :
  Permutation (records db) (getAllReadings db)
  /\ StronglySorted notOlder (getAllReadings db)
  /\ forall t,
       filter (fun r => (timestamp r =? t)%Z) (getAllReadings db)
       = filter (fun r => (timestamp r =? t)%Z) (records db).
Proof.
  unfold getAllReadings. split; [apply sort_perm|].
  split; [apply sort_sorted|]. intros t. apply sort_stable.
Qed.

(** X15.  In a well-formed store [saveReading] resolves to a key no stored
    record has; afterwards the store is well-formed again and
    [getAllReadings] returns what it returned before together with the
    new record, which carries that key, the time of the call, the readings
    and the two blobs. *)
Theorem save_then_list (db : ObjectStore File Blob) (now : Z)
    (rd : OverlayUtils.TemperatureReadings) (originalBlob : File)
    (processedBlob : Blob) :
  wellFormed db ->
  let saved := saveReading db now rd originalBlob processedBlob in
  let record := {| id := snd saved; timestamp := now; readings := rd;
                   originalImageBlob := originalBlob;
                   processedImageBlob := processedBlob |} in
  wellFormed (fst saved)
  /\ (forall r, In r (records db) -> id r <> snd saved)
  /\ In record (getAllReadings (fst saved))
  /\ Permutation (record :: getAllReadings db) (getAllReadings (fst saved)).
Proof.
  intros (Hgen & Hasc & Hbel). cbn.
  set (record := {| id := keyGenerator db; timestamp := now;
                    readings := rd; originalImageBlob := originalBlob;
                    processedImageBlob := processedBlob |}).
  assert (Hperm : Permutation (record :: getAllReadings db)
                    (getAllReadings
                       {| records := records db ++ [record];
                          keyGenerator := (keyGenerator db + 1)%Z |})).
  { unfold getAllReadings. cbn [records].
    eapply Permutation_trans; [|apply sort_perm].
    eapply Permutation_trans; [|apply Permutation_cons_append].
    apply perm_skip. apply Permutation_sym. apply sort_perm. }
  split; [|split; [|split]].
  - unfold wellFormed. cbn [records keyGenerator]. split; [lia|]. split.
    + apply ascending_snoc; [exact Hgen | exact Hasc | exact Hbel].
    + apply below_snoc; [exact Hbel | cbn; lia].
  - intros r Hr Heq. pose proof (below_In _ _ _ _ r Hbel Hr). lia.
  - eapply Permutation_in; [exact Hperm | left; reflexivity].
  - exact Hperm.
Qed.

(** A key below the key generator that no record carries stays so,
    whatever requests the store serves. *)
Lemma key_stays_out (key : Z) (later : list (Request File Blob))
    (db : ObjectStore File Blob) :
  (key < keyGenerator db)%Z ->
  (forall r, In r (records db) -> id r <> key) ->
  (key < keyGenerator (serveAll db later))%Z
  /\ forall r, In r (records (serveAll db later)) -> id r <> key.
Proof.
  revert db. induction later as [|request rest IH]; intros db Hgen Hout.
  - split; assumption.
  - unfold serveAll. cbn [fold_left]. apply IH.
    + destruct request; cbn [serve saveReading deleteReading fst
                               keyGenerator]; lia.
    + destruct request as [now rd originalBlob processedBlob | key'];
        cbn [serve saveReading deleteReading fst records]; intros r Hr.
      * apply in_app_or in Hr. destruct Hr as [Hr | [<- | []]].
        -- apply Hout. exact Hr.
        -- cbn [id]. lia.
      * apply filter_In in Hr. apply Hout. apply Hr.
Qed.

(** The key generator never goes back. *)
Lemma keyGenerator_monotone (later : list (Request File Blob))
    (db : ObjectStore File Blob) :
  (keyGenerator db <= keyGenerator (serveAll db later))%Z.
Proof.
  revert db. induction later as [|request rest IH]; intros db.
  - cbn. lia.
  - unfold serveAll. cbn [fold_left].
    eapply Z.le_trans; [|apply IH].
    destruct request; cbn [serve saveReading deleteReading fst
                             keyGenerator]; lia.
Qed.

(** X16.  [deleteReading] removes the records with the given key and no
    other: [getAllReadings] afterwards is [getAllReadings] before without
    them, in the same order.  The store stays well-formed and a key that
    is not stored leaves it as it is.  The key of a deleted record is
    never given out again: whatever saves and deletes the store serves
    after the deletion, no record carries that key and the next
    [saveReading] resolves to another key, because the key generator
    never goes back. *)
Theorem delete_then_list (db : ObjectStore File Blob) (key : Z) :
  wellFormed db ->
  getAllReadings (deleteReading db key)
  = filter (fun r => negb (id r =? key)%Z) (getAllReadings db)
  /\ (forall r, In r (getAllReadings (deleteReading db key)) -> id r <> key)
  /\ wellFormed (deleteReading db key)
  /\ ((forall r, In r (records db) -> id r <> key) ->
      deleteReading db key = db)
  /\ ((exists r, In r (records db) /\ id r = key) ->
      forall later now rd originalBlob processedBlob,
        let db' := serveAll (deleteReading db key) later in
        (keyGenerator db <= keyGenerator db')%Z
        /\ (forall r, In r (records db') -> id r <> key)
        /\ snd (saveReading db' now rd originalBlob processedBlob) <> key).
Proof.
  intros (Hgen & Hasc & Hbel).
  assert (Hlist : getAllReadings (deleteReading db key)
                  = filter (fun r => negb (id r =? key)%Z)
                           (getAllReadings db)).
  { unfold getAllReadings, deleteReading. cbn [records].
    symmetry. apply sort_filter. }
  split; [exact Hlist|]. split; [|split; [|split]].
  - intros r Hr. rewrite Hlist in Hr. apply filter_In in Hr.
    destruct Hr as [_ Hr]. apply negb_true_iff in Hr.
    apply Z.eqb_neq. exact Hr.
  - unfold wellFormed, deleteReading. cbn [records keyGenerator].
    split; [exact Hgen|]. split.
    + apply ascending_filter. exact Hasc.
    + apply below_filter. exact Hbel.
  - intros Habsent. destruct db as [recs gen]. unfold deleteReading.
    cbn [records keyGenerator] in *. f_equal.
    clear Hasc Hbel Hlist. induction recs as [|y rest IH]; [reflexivity|].
    cbn. assert (Hy : id y <> key) by (apply Habsent; left; reflexivity).
    apply Z.eqb_neq in Hy. rewrite Hy. cbn. f_equal.
    apply IH. intros r Hr. apply Habsent. right. exact Hr.
  - intros (r & Hr & <-) later now rd originalBlob processedBlob.
    pose proof (below_In _ _ _ _ r Hbel Hr) as Hbelow.
    destruct (key_stays_out (id r) later (deleteReading db (id r)))
      as [Hkey Hout].
    + cbn [deleteReading keyGenerator]. exact Hbelow.
    + intros r' Hr'. cbn [deleteReading records] in Hr'.
      apply filter_In in Hr'. destruct Hr' as [_ Hr'].
      apply negb_true_iff in Hr'. apply Z.eqb_neq. exact Hr'.
    + cbv zeta. split; [|split].
      * apply (keyGenerator_monotone later (deleteReading db (id r))).
      * exact Hout.
      * cbn [saveReading snd]. lia.
Qed.

End DatabaseExtras.

Lemma save_then_list_witness :
  Database.wellFormed
    (fst (Database.saveReading (@Database.createObjectStore nat unit)
            1700000000000 (Examples.readings0 "12.5") 0%nat tt))
  /\ snd (Database.saveReading (@Database.createObjectStore nat unit)
            1700000000000 (Examples.readings0 "12.5") 0%nat tt) = 1%Z.
Proof.
  destruct (save_then_list nat unit (@Database.createObjectStore nat unit)
              1700000000000 (Examples.readings0 "12.5") 0%nat tt)
    as (Hwf & _).
  - repeat split; cbn; lia.
  - split; [exact Hwf | reflexivity].
Defined.

Lemma delete_then_list_witness :
  Database.getAllReadings
    (Database.deleteReading
       (fst (Database.saveReading (@Database.createObjectStore nat unit)
               1700000000000 (Examples.readings0 "12.5") 0%nat tt))
       1)
  = []
  /\ snd (Database.saveReading
            (Database.serveAll
               (Database.deleteReading
                  (fst (Database.saveReading
                          (@Database.createObjectStore nat unit)
                          1700000000000 (Examples.readings0 "12.5") 0%nat
                          tt))
                  1)
               [Database.deleteRequest 1;
                Database.saveRequest 1700000000001
                  (Examples.readings0 EmptyString) 1%nat tt;
                Database.deleteRequest 2])
            1700000000002 (Examples.readings0 "12.5") 2%nat tt)
     <> 1%Z.
Proof.
  destruct (delete_then_list nat unit
              (fst (Database.saveReading
                      (@Database.createObjectStore nat unit)
                      1700000000000 (Examples.readings0 "12.5") 0%nat tt))
              1)
    as (Hlist & _ & _ & _ & Hlater).
  - repeat split; cbn; lia.
  - split; [rewrite Hlist; reflexivity|].
    apply Hlater. eexists. split; [left; reflexivity | reflexivity].
Defined.

(** ** The history gallery *)

Section GalleryExtras.
Import Database HistoryGallery SortFacts.
Local Open Scope string_scope.
Variable File Blob : Type.

(** X17.  A confirmed [handleDelete] removes the record from the store,
    shows the remaining history, newest first and without the deleted key,
    and closes the detail view if it showed that record, leaving any other
    selection as it is; a declined one changes nothing. *)
Theorem confirmed_delete_clears_record (s : State File Blob)
    (db : ObjectStore File Blob) (key : Z) :
  let after := handleDelete s db true key in
  snd after = deleteReading db key
  /\ history (fst after)
     = filter (fun r => negb (id r =? key)%Z) (getAllReadings db)
  /\ loading (fst after) = false
  /\ (forall r, In r (history (fst after)) -> id r <> key)
  /\ selectedRecord (fst after)
     = match selectedRecord s with
       | Some r => if (id r =? key)%Z then None else Some r
       | None => None
       end
  /\ handleDelete s db false key = (s, db).
Proof.
  assert (Hlist : getAllReadings (deleteReading db key)
                  = filter (fun r => negb (id r =? key)%Z)
                           (getAllReadings db)).
  { unfold getAllReadings, deleteReading. cbn [records].
    symmetry. apply sort_filter. }
  unfold handleDelete, loadHistory. cbv zeta.
  destruct (selectedRecord s) as [r|] eqn:Hsel;
    [destruct (id r =? key)%Z eqn:Hid|];
    cbn [fst snd history loading HistoryGallery.selectedRecord];
    rewrite ?Hsel; repeat (split; [first [reflexivity | exact Hlist]|]);
    (split; [|split; reflexivity]);
    intros r' Hr'; rewrite Hlist in Hr'; apply filter_In in Hr';
    destruct Hr' as [_ Hr']; apply negb_true_iff in Hr';
    apply Z.eqb_neq; exact Hr'.
Qed.

End GalleryExtras.

Section ReadingsExtras.
Import OverlayUtils HistoryGallery.
Local Open Scope string_scope.

Lemma filled_spec (value : string) :
  filled value = negb (String.eqb (trim value) EmptyString).
Proof.
  unfold filled. destruct (is_empty value) eqn:He; [|reflexivity].
  rewrite (trim_empty _ He). reflexivity.
Qed.

Lemma overlayLines_length (r : TemperatureReadings) :
  List.length (overlayLines r) = if filled (pt r) then 5%nat else 4%nat.
Proof.
  unfold overlayLines, filled.
  destruct (negb (is_empty (pt r))
            && negb (String.eqb (trim (pt r)) EmptyString));
    reflexivity.
Qed.

(** X18.  A card of the gallery never shows more readings than the
    overlay has lines, since the overlay draws T1 to T4 even when they are
    blank while the card leaves blank readings out; and the card shows
    [pt] exactly when the overlay has its fifth line. *)
Theorem card_shows_no_more_than_overlay (r : TemperatureReadings) :
  (List.length (shownEntries r) <= List.length (overlayLines r))%nat
  /\ (In "pt" (map fst (shownEntries r))
      <-> List.length (overlayLines r) = 5%nat).
Proof.
  rewrite overlayLines_length. unfold shownEntries, entries.
  cbn [filter snd].
  destruct (filled (t1 r)), (filled (t2 r)), (filled (t3 r)),
    (filled (t4 r)), (filled (pt r)); cbn; (split; [lia|]);
    (split; intros H;
     [ first [ reflexivity
             | repeat (destruct H as [H | H]; try discriminate H);
               contradiction ]
     | first [ discriminate H
             | repeat (first [left; reflexivity | right]) ] ]).
Qed.

(** X19.  Whenever [canSave] holds, at least one file is selected and the
    card of a record saved with these readings shows t1, t2, t3, t4, and
    pt if it is filled, in this order: as many readings as the overlay has
    lines. *)
Theorem enabled_save_shows_all_readings (File : Type)
    (s : App.State File) :
  App.canSave s = true ->
  App.selectedFiles s <> []
  /\ map fst (shownEntries (App.readings s))
     = List.app ["t1"; "t2"; "t3"; "t4"]
                (if filled (pt (App.readings s)) then ["pt"] else [])
  /\ List.length (shownEntries (App.readings s))
     = List.length (overlayLines (App.readings s)).
Proof.
  unfold App.canSave. rewrite !andb_true_iff.
  intros ((((Hfiles & H1) & H2) & H3) & H4).
  rewrite <- filled_spec in H1, H2, H3, H4.
  split.
  - intros Hnil. rewrite Hnil in Hfiles. discriminate Hfiles.
  - rewrite overlayLines_length. unfold shownEntries, entries.
    cbn [filter snd]. rewrite H1, H2, H3, H4.
    destruct (filled (pt (App.readings s))); split; reflexivity.
Qed.

End ReadingsExtras.

Lemma enabled_save_shows_all_readings_witness :
  map fst
      (HistoryGallery.shownEntries (Examples.readings0 EmptyString))
  = ["t1"; "t2"; "t3"; "t4"]%string.
Proof.
  destruct (enabled_save_shows_all_readings nat
              {| App.selectedFiles := [0%nat];
                 App.readings := Examples.readings0 EmptyString;
                 App.fontScale := 1; App.isProcessing := false;
                 App.refreshHistory := 0 |})
    as (_ & Hkeys & _).
  - reflexivity.
  - exact Hkeys.
Defined.

(** ** Apply and save *)

Module AppFacts.
Import OverlayUtils ProcessImage App.

Section Batch.
Variable File Blob : Type.
Variable fileName : File -> string.
Variable loadImage : File -> option Image.
Variable offscreen2d : bool.
Variable measureText : string -> string -> Q.
Variable toBlob : Canvas -> string -> Q -> option Blob.
Variable now : nat -> Z.

(** The loop saves one record for each file of a prefix whose files all
    process, and goes on with the rest. *)
Lemma batch_prefix (before rest : list File) (w : World File Blob)
    (count : Z) :
  (forall f, In f before ->
     exists result,
       snd (processImageFromFile File Blob fileName loadImage offscreen2d
              measureText toBlob f (readings (state w))
              (fontScale (state w))) = Resolved result) ->
  exists w1 added,
    batch File Blob fileName loadImage offscreen2d measureText toBlob now
          (before ++ rest) w count
    = batch File Blob fileName loadImage offscreen2d measureText toBlob now
            rest w1 (count + Z.of_nat (List.length before))
    /\ state w1 = state w /\ imageRef w1 = imageRef w
    /\ canvasRef w1 = canvasRef w /\ downloads w1 = downloads w
    /\ alerts w1 = alerts w /\ consoleErrors w1 = consoleErrors w
    /\ Database.records (db w1) = Database.records (db w) ++ added
    /\ map Database.originalImageBlob added = before
    /\ Forall (fun r => Database.readings r = readings (state w)) added.
Proof.
  revert w count. induction before as [|f bs IH]; intros w count Hok.
  - exists w, []. cbn [app List.length Z.of_nat].
    rewrite Z.add_0_r, app_nil_r. repeat split; constructor.
  - destruct (Hok f (or_introl eq_refl)) as [result Hres].
    cbn [app batch].
    destruct (processImageFromFile File Blob fileName loadImage offscreen2d
                measureText toBlob f (readings (state w))
                (fontScale (state w))) as [events outcome].
    cbn [snd] in Hres. subst outcome.
    set (w2 := save File Blob now (logUrls File Blob w (map (liftUrl File Blob) events)) f
                    (processed result)).
    destruct (IH w2 (count + 1)%Z) as (w1 & added & Hrun & Hrest).
    { intros g Hg. apply Hok. right. exact Hg. }
    destruct Hrest as (Hs & Hi & Hc & Hd & Ha & He & Hr & Ho & Hrd).
    exists w1. eexists. split.
    + rewrite Hrun. f_equal. cbn [List.length]. lia.
    + rewrite Hs, Hi, Hc, Hd, Ha, He, Hr. unfold w2.
      repeat (split; [reflexivity|]).
      split; [cbn [db save Database.saveReading fst Database.records];
              rewrite <- app_assoc; reflexivity|].
      split; [cbn [map Database.originalImageBlob app]; rewrite Ho;
              reflexivity|].
      constructor; [reflexivity | exact Hrd].
Qed.

(** Whatever happens in the loop, it leaves the state, the alerts, the
    error log and the downloads alone, and only adds records. *)
Lemma batch_frame (files : list File) (w : World File Blob) (count : Z) :
  exists w1 outcome added,
    batch File Blob fileName loadImage offscreen2d measureText toBlob now
          files w count = (w1, outcome)
    /\ state w1 = state w /\ downloads w1 = downloads w
    /\ alerts w1 = alerts w /\ consoleErrors w1 = consoleErrors w
    /\ Database.records (db w1) = Database.records (db w) ++ added
    /\ (List.length added <= List.length files)%nat.
Proof.
  revert w count. induction files as [|f rest IH]; intros w count.
  - exists w, (Resolved count), []. cbn. rewrite app_nil_r.
    repeat split; reflexivity || lia.
  - cbn [batch].
    destruct (processImageFromFile File Blob fileName loadImage offscreen2d
                measureText toBlob f (readings (state w))
                (fontScale (state w))) as [events [result|message]].
    + destruct (IH (save File Blob now
                      (logUrls File Blob w (map (liftUrl File Blob) events))
                      f (processed result)) (count + 1)%Z)
        as (w1 & outcome & added & Hrun & Hs & Hd & Ha & He & Hr & Hlen).
      exists w1, outcome. eexists. split; [exact Hrun|].
      rewrite Hs, Hd, Ha, He, Hr. repeat (split; [reflexivity|]).
      split; [cbn [db save Database.saveReading fst Database.records];
              rewrite <- app_assoc; reflexivity|].
      cbn [List.length app]. lia.
    + do 2 eexists. exists []. split; [reflexivity|]. cbn.
      rewrite app_nil_r. repeat split; reflexivity || lia.
Qed.

End Batch.
End AppFacts.

Section AppExtras.
Import OverlayUtils ProcessImage App AppFacts.
Variable File Blob : Type.
Variable fileName : File -> string.
Variable loadImage : File -> option Image.
Variable offscreen2d : bool.
Variable measureText : string -> string -> Q.
Variable toBlob : Canvas -> string -> Q -> option Blob.
Variable now : nat -> Z.

(** X20.  With two or more files selected that all process,
    [handleApplyAndSave] saves one record for each file, in the order of
    the selection and with the readings of the form, announces the number
    of files, asks the gallery to refresh, downloads nothing, logs no
    error and ends with [isProcessing] off. *)
Theorem batch_saves_every_file (w : World File Blob) :
  (2 <= List.length (selectedFiles (state w)))%nat ->
  (forall f, In f (selectedFiles (state w)) ->
     exists result,
       snd (processImageFromFile File Blob fileName loadImage offscreen2d
              measureText toBlob f (readings (state w))
              (fontScale (state w))) = Resolved result) ->
  let w' := handleApplyAndSave File Blob fileName loadImage offscreen2d
              measureText toBlob now w in
  isProcessing (state w') = false
  /\ refreshHistory (state w') = (refreshHistory (state w) + 1)%Z
  /\ alerts w'
     = alerts w
       ++ [successMessage
             (Z.of_nat (List.length (selectedFiles (state w))))]
  /\ consoleErrors w' = consoleErrors w
  /\ downloads w' = downloads w
  /\ exists added,
       Database.records (db w') = Database.records (db w) ++ added
       /\ map Database.originalImageBlob added = selectedFiles (state w)
       /\ Forall (fun r => Database.readings r = readings (state w)) added.
Proof.
  intros Hlen Hok. unfold handleApplyAndSave.
  destruct (selectedFiles (state w)) as [|first rest] eqn:Hfiles;
    [cbn in Hlen; lia|].
  unfold tryBlock.
  cbn [state setIsProcessing withState selectedFiles].
  rewrite Hfiles.
  destruct (Nat.ltb_spec 1 (List.length (first :: rest))) as [_ | Hbad];
    [| lia].
  destruct (batch_prefix File Blob fileName loadImage offscreen2d
              measureText toBlob now (first :: rest) []
              (setIsProcessing File Blob w true) 0)
    as (w1 & added & Hrun & Hs & _ & _ & Hd & Ha & He & Hr & Ho & Hrd).
  { intros f Hf. apply Hok. exact Hf. }
  rewrite app_nil_r in Hrun. rewrite Hrun. cbn [batch]. cbv zeta.
  cbn [state setIsProcessing withState alert bumpRefreshHistory
       isProcessing refreshHistory alerts consoleErrors downloads db
       selectedFiles readings fontScale].
  rewrite Hs, Hd, Ha, He, Hr.
  cbn [state setIsProcessing withState alert bumpRefreshHistory
       isProcessing refreshHistory alerts consoleErrors downloads db
       selectedFiles readings fontScale].
  repeat (split; [reflexivity|]).
  exists added. split; [reflexivity|]. split; [exact Ho | exact Hrd].
Qed.

(** X21.  With two or more files selected, the first file that fails to
    process ends the batch: the files before it are saved, one record
    each, the failing file and the files after it are not, the error is
    logged and [Failed to process image(s).] is announced, and the gallery
    is not asked to refresh although records were added. *)
Theorem batch_stops_at_first_failure (w : World File Blob)
    (before after : list File) (bad : File) (message : string) :
  selectedFiles (state w) = before ++ bad :: after ->
  (1 <= List.length before + List.length after)%nat ->
  (forall f, In f before ->
     exists result,
       snd (processImageFromFile File Blob fileName loadImage offscreen2d
              measureText toBlob f (readings (state w))
              (fontScale (state w))) = Resolved result) ->
  snd (processImageFromFile File Blob fileName loadImage offscreen2d
         measureText toBlob bad (readings (state w))
         (fontScale (state w))) = Rejected message ->
  let w' := handleApplyAndSave File Blob fileName loadImage offscreen2d
              measureText toBlob now w in
  isProcessing (state w') = false
  /\ refreshHistory (state w') = refreshHistory (state w)
  /\ alerts w' = alerts w ++ ["Failed to process image(s)."%string]
  /\ consoleErrors w' = consoleErrors w ++ [message]
  /\ downloads w' = downloads w
  /\ exists added,
       Database.records (db w') = Database.records (db w) ++ added
       /\ map Database.originalImageBlob added = before
       /\ Forall (fun r => Database.readings r = readings (state w)) added.
Proof.
  intros Hfiles Hlen Hok Hbad. unfold handleApplyAndSave.
  destruct (selectedFiles (state w)) as [|first rest] eqn:Hsel;
    [destruct before; discriminate Hfiles|].
  unfold tryBlock.
  cbn [state setIsProcessing withState selectedFiles].
  rewrite Hsel, Hfiles.
  destruct (Nat.ltb_spec 1 (List.length (before ++ bad :: after)))
    as [_ | Hshort];
    [| rewrite length_app in Hshort; cbn in Hshort; lia].
  destruct (batch_prefix File Blob fileName loadImage offscreen2d
              measureText toBlob now before (bad :: after)
              (setIsProcessing File Blob w true) 0)
    as (w1 & added & Hrun & Hs & _ & _ & Hd & Ha & He & Hr & Ho & Hrd).
  { intros f Hf. apply Hok. exact Hf. }
  rewrite Hrun. cbn [batch]. rewrite Hs.
  cbn [state setIsProcessing withState readings fontScale].
  destruct (processImageFromFile File Blob fileName loadImage offscreen2d
              measureText toBlob bad (readings (state w))
              (fontScale (state w))) as [events outcome].
  cbn [snd] in Hbad. subst outcome. cbv zeta.
  cbn [state setIsProcessing withState alert consoleError logUrls
       isProcessing refreshHistory alerts consoleErrors downloads db
       selectedFiles readings fontScale].
  rewrite Hs, Hd, Ha, He, Hr.
  cbn [state setIsProcessing withState alert consoleError logUrls
       isProcessing refreshHistory alerts consoleErrors downloads db
       selectedFiles readings fontScale].
  repeat (split; [reflexivity|]).
  exists added. split; [reflexivity|]. split; [exact Ho | exact Hrd].
Qed.

(** One selected file, both refs bound: the run of the single branch. *)
Lemma single_run (w : World File Blob) (file : File) (image : Image)
    (canvas canvas' : Canvas) (blob : Blob) :
  selectedFiles (state w) = [file] ->
  imageRef w = Some image -> canvasRef w = Some canvas ->
  drawOverlayOnBitmap measureText canvas image (readings (state w))
                      (Some (fontScale (state w))) = Normal canvas' ->
  toBlob canvas' "image/jpeg"%string 0.92 = Some blob ->
  let w' := handleApplyAndSave File Blob fileName loadImage offscreen2d
              measureText toBlob now w in
  isProcessing (state w') = false
  /\ refreshHistory (state w') = (refreshHistory (state w) + 1)%Z
  /\ canvasRef w' = Some canvas'
  /\ Database.records (db w')
     = Database.records (db w)
       ++ [ {| Database.id := Database.keyGenerator (db w);
               Database.timestamp := now (clock w);
               Database.readings := readings (state w);
               Database.originalImageBlob := file;
               Database.processedImageBlob := blob |} ]
  /\ downloads w'
     = downloads w
       ++ [(("sash_overlay_" ++ string_of_Z (now (S (clock w))) ++ ".jpg")
              %string, blob)]
  /\ urls w'
     = urls w ++ [createObjectURL (inr blob); revokeObjectURL (inr blob)]
  /\ alerts w' = alerts w ++ ["Image processed and saved!"%string]
  /\ consoleErrors w' = consoleErrors w.
Proof.
  intros Hsel Himg Hcan Hdraw Hblob. unfold handleApplyAndSave.
  rewrite Hsel. unfold tryBlock.
  cbn [state setIsProcessing withState selectedFiles readings fontScale
       imageRef canvasRef].
  rewrite Hsel, Himg, Hcan. cbn [List.length Nat.ltb Nat.leb].
  rewrite Hdraw. unfold canvasToBlob. rewrite Hblob. cbv zeta.
  cbn. rewrite <- app_assoc. repeat split; reflexivity.
Qed.

(** X22.  With one file selected, both refs bound and an encoder that
    yields bytes for the drawn canvas, [handleApplyAndSave] leaves the
    drawn canvas behind the ref, saves one record (the next key, the time
    of a first [Date.now()], the readings, the selected file, the bytes),
    downloads the bytes under [sash_overlay_<t>.jpg] where [t] is a second
    [Date.now()], creates and revokes one URL for the bytes, announces
    success, asks the gallery to refresh and ends with [isProcessing]
    off. *)
Theorem single_saves_and_downloads (w : World File Blob) (file : File)
    (image : Image) (canvas canvas' : Canvas) (blob : Blob) :
  selectedFiles (state w) = [file] ->
  imageRef w = Some image -> canvasRef w = Some canvas ->
  drawOverlayOnBitmap measureText canvas image (readings (state w))
                      (Some (fontScale (state w))) = Normal canvas' ->
  toBlob canvas' "image/jpeg"%string 0.92 = Some blob ->
  let w' := handleApplyAndSave File Blob fileName loadImage offscreen2d
              measureText toBlob now w in
  isProcessing (state w') = false
  /\ refreshHistory (state w') = (refreshHistory (state w) + 1)%Z
  /\ canvasRef w' = Some canvas'
  /\ Database.records (db w')
     = Database.records (db w)
       ++ [ {| Database.id := Database.keyGenerator (db w);
               Database.timestamp := now (clock w);
               Database.readings := readings (state w);
               Database.originalImageBlob := file;
               Database.processedImageBlob := blob |} ]
  /\ downloads w'
     = downloads w
       ++ [(("sash_overlay_" ++ string_of_Z (now (S (clock w))) ++ ".jpg")
              %string, blob)]
  /\ urls w'
     = urls w ++ [createObjectURL (inr blob); revokeObjectURL (inr blob)]
  /\ alerts w' = alerts w ++ ["Image processed and saved!"%string]
  /\ consoleErrors w' = consoleErrors w.
Proof. exact (single_run w file image canvas canvas' blob). Qed.

(** X23.  With one file selected and a hidden canvas that yields no 2D
    context, [handleApplyAndSave] saves and downloads the encoding of the
    canvas as it found it, without overlay, and announces success: no
    error is logged. *)
Theorem single_without_context_saves_bare_canvas (w : World File Blob)
    (file : File) (image : Image) (canvas : Canvas) (blob : Blob) :
  selectedFiles (state w) = [file] ->
  imageRef w = Some image -> canvasRef w = Some canvas ->
  context2d canvas = false ->
  toBlob canvas "image/jpeg"%string 0.92 = Some blob ->
  let w' := handleApplyAndSave File Blob fileName loadImage offscreen2d
              measureText toBlob now w in
  canvasRef w' = Some canvas
  /\ (exists record,
        Database.records (db w') = Database.records (db w) ++ [record]
        /\ Database.originalImageBlob record = file
        /\ Database.processedImageBlob record = blob)
  /\ (exists name, downloads w' = downloads w ++ [(name, blob)])
  /\ alerts w' = alerts w ++ ["Image processed and saved!"%string]
  /\ consoleErrors w' = consoleErrors w.
Proof.
  intros Hsel Himg Hcan Hctx Hblob.
  assert (Hdraw : drawOverlayOnBitmap measureText canvas image
                    (readings (state w)) (Some (fontScale (state w)))
                  = Normal canvas)
    by (unfold drawOverlayOnBitmap; rewrite Hctx; reflexivity).
  destruct (single_run w file image canvas canvas blob Hsel Himg Hcan
              Hdraw Hblob)
    as (_ & _ & Hc & Hr & Hd & _ & Ha & He).
  split; [exact Hc|]. split; [eexists; split; [exact Hr|]; split;
                              reflexivity|].
  split; [eexists; exact Hd|]. split; [exact Ha | exact He].
Qed.

(** X24.  Whatever the world, [handleApplyAndSave] leaves the selection,
    the readings and the font scale as they are and only adds records, at
    most one for each selected file.  With no file selected it does
    nothing at all; otherwise it ends with [isProcessing] off.  When it
    logs an error it logs one, announces [Failed to process image(s).],
    and then neither asks the gallery to refresh nor downloads
    anything. *)
Theorem apply_only_adds (w : World File Blob) :
  let w' := handleApplyAndSave File Blob fileName loadImage offscreen2d
              measureText toBlob now w in
  selectedFiles (state w') = selectedFiles (state w)
  /\ readings (state w') = readings (state w)
  /\ fontScale (state w') = fontScale (state w)
  /\ (selectedFiles (state w) = [] /\ w' = w
      \/ selectedFiles (state w) <> [] /\ isProcessing (state w') = false)
  /\ (exists added,
        Database.records (db w') = Database.records (db w) ++ added
        /\ (List.length added <= List.length (selectedFiles (state w)))%nat)
  /\ (consoleErrors w' = consoleErrors w
      \/ exists message,
           consoleErrors w' = consoleErrors w ++ [message]
           /\ alerts w' = alerts w ++ ["Failed to process image(s)."%string]
           /\ refreshHistory (state w') = refreshHistory (state w)
           /\ downloads w' = downloads w).
Proof.
  unfold handleApplyAndSave.
  destruct (selectedFiles (state w)) as [|first rest] eqn:Hsel.
  { cbv zeta. rewrite Hsel. repeat (split; [reflexivity|]).
    split; [left; split; reflexivity|].
    split; [exists []; rewrite app_nil_r; split; [reflexivity | cbn; lia]|].
    left; reflexivity. }
  unfold tryBlock.
  cbn [state setIsProcessing withState selectedFiles readings fontScale
       imageRef canvasRef].
  rewrite Hsel.
  destruct (1 <? List.length (first :: rest))%nat.
  - destruct (batch_frame File Blob fileName loadImage offscreen2d
                measureText toBlob now (first :: rest)
                (setIsProcessing File Blob w true) 0)
      as (w1 & outcome & added & Hrun & Hs & Hd & Ha & He & Hr & Hlen).
    rewrite Hrun. cbv zeta.
    destruct outcome as [count|message];
      cbn [state setIsProcessing withState alert consoleError
           bumpRefreshHistory isProcessing refreshHistory alerts
           consoleErrors downloads db selectedFiles readings fontScale];
      rewrite ?Hs, ?Hd, ?Ha, ?He, ?Hr;
      cbn [state setIsProcessing withState alert consoleError
           bumpRefreshHistory isProcessing refreshHistory alerts
           consoleErrors downloads db selectedFiles readings fontScale];
      rewrite ?Hsel;
      repeat (split; [reflexivity|]);
      (split; [right; split; [discriminate | reflexivity]|]);
      (split; [exists added; split; [reflexivity | exact Hlen]|]).
    + left; reflexivity.
    + right. exists message. repeat split; reflexivity.
  - destruct (imageRef w) as [image|], (canvasRef w) as [canvas|].
    2-4: cbv zeta; cbn; rewrite ?Hsel;
         repeat (split; [reflexivity|]);
         (split; [right; split; [discriminate | reflexivity]|]);
         (split; [exists []; rewrite app_nil_r; split;
                  [reflexivity | cbn; lia]|]);
         left; reflexivity.
    destruct (drawOverlayOnBitmap measureText canvas image
                (readings (state w)) (Some (fontScale (state w))))
      as [canvas'|name].
    2: { cbv zeta; cbn; rewrite ?Hsel;
         repeat (split; [reflexivity|]);
         (split; [right; split; [discriminate | reflexivity]|]);
         (split; [exists []; rewrite app_nil_r; split;
                  [reflexivity | cbn; lia]|]).
         right. exists name. repeat split; reflexivity. }
    unfold canvasToBlob.
    destruct (toBlob canvas' "image/jpeg"%string 0.92) as [blob|].
    + cbv zeta; cbn; rewrite ?Hsel;
        repeat (split; [reflexivity|]);
        (split; [right; split; [discriminate | reflexivity]|]).
      split; [eexists; split; [reflexivity | cbn; lia]|].
      left; reflexivity.
    + cbv zeta; cbn; rewrite ?Hsel;
        repeat (split; [reflexivity|]);
        (split; [right; split; [discriminate | reflexivity]|]);
        (split; [exists []; rewrite app_nil_r; split;
                 [reflexivity | cbn; lia]|]).
      right. eexists. repeat split; reflexivity.
Qed.

End AppExtras.

Section AppWitnesses.
Import AppExamples.
Local Open Scope string_scope.

Lemma batch_saves_every_file_witness :
  App.alerts (apply0 (world0 ["a.jpg"; "b.jpg"])) = [App.successMessage 2]
  /\ App.isProcessing (App.state (apply0 (world0 ["a.jpg"; "b.jpg"])))
     = false.
Proof.
  destruct (batch_saves_every_file string nat fileName0 loadImage0 true
              Examples.measure0 toBlob0 now0 (world0 ["a.jpg"; "b.jpg"]))
    as (Hp & _ & Ha & _).
  - cbn. lia.
  - intros f [<- | [<- | []]]; eexists; reflexivity.
  - split; [exact Ha | exact Hp].
Defined.

Lemma batch_stops_at_first_failure_witness :
  App.alerts (apply0 (world0 ["a.jpg"; "bad.jpg"; "c.jpg"]))
  = ["Failed to process image(s)."]
  /\ App.consoleErrors (apply0 (world0 ["a.jpg"; "bad.jpg"; "c.jpg"]))
     = ["Failed to load image bad.jpg"]
  /\ App.refreshHistory
       (App.state (apply0 (world0 ["a.jpg"; "bad.jpg"; "c.jpg"]))) = 0%Z.
Proof.
  destruct (batch_stops_at_first_failure string nat fileName0 loadImage0
              true Examples.measure0 toBlob0 now0
              (world0 ["a.jpg"; "bad.jpg"; "c.jpg"]) ["a.jpg"] ["c.jpg"]
              "bad.jpg" "Failed to load image bad.jpg")
    as (_ & Hr & Ha & He & _).
  - reflexivity.
  - cbn. lia.
  - intros f [<- | []]; eexists; reflexivity.
  - reflexivity.
  - split; [exact Ha|]. split; [exact He | exact Hr].
Defined.

Lemma single_saves_and_downloads_witness :
  App.downloads (apply0 (world0 ["a.jpg"]))
  = [("sash_overlay_1700000000001.jpg", 7%nat)]
  /\ App.alerts (apply0 (world0 ["a.jpg"]))
     = ["Image processed and saved!"].
Proof.
  destruct (single_saves_and_downloads string nat fileName0 loadImage0
              true Examples.measure0 toBlob0 now0 (world0 ["a.jpg"])
              "a.jpg" Examples.image1200x800 (createCanvas true)
              (match OverlayUtils.drawOverlayOnBitmap Examples.measure0
                       (createCanvas true) Examples.image1200x800
                       (Examples.readings0 "12.5") (Some 1) with
               | Normal c => c
               | Throw _ => createCanvas true
               end)
              7%nat)
    as (_ & _ & _ & _ & Hd & _ & Ha & _).
  - reflexivity.
  - reflexivity.
  - reflexivity.
  - reflexivity.
  - reflexivity.
  - split; [exact Hd | exact Ha].
Defined.

Lemma single_without_context_saves_bare_canvas_witness :
  App.alerts (apply0 (world0_no_context ["a.jpg"]))
  = ["Image processed and saved!"]
  /\ App.consoleErrors (apply0 (world0_no_context ["a.jpg"])) = [].
Proof.
  destruct (single_without_context_saves_bare_canvas string nat fileName0
              loadImage0 true Examples.measure0 toBlob0 now0
              (world0_no_context ["a.jpg"]) "a.jpg"
              Examples.image1200x800 (createCanvas false) 0%nat)
    as (_ & _ & _ & Ha & He).
  - reflexivity.
  - reflexivity.
  - reflexivity.
  - reflexivity.
  - reflexivity.
  - split; [exact Ha | exact He].
Defined.

End AppWitnesses.

(** ** Selection, preview and cropping: the life of the object URLs *)

Section SelectionExtras.
Import Selection.
Variable File Blob : Type.

Lemma sameUrl_fresh (old : option nat) (n : nat) :
  (forall url, old = Some url -> (url < n)%nat) ->
  sameUrl old (Some n) = false.
Proof.
  destruct old as [u|]; cbn; [|reflexivity].
  intros H. specialize (H u eq_refl). apply Nat.eqb_neq. lia.
Qed.

Lemma cleanup_created (w : World File) :
  urlsCreated w ->
  Forall (fun url => (url < created w)%nat) (cleanup (state w)).
Proof.
  intros (Hp & Ho & _). unfold cleanup. apply Forall_app. split.
  - destruct (previewUrl (state w)) as [u|]; constructor; auto.
  - destruct (originalFileUrl (state w)) as [u|]; constructor; auto.
Qed.

(** After a selection of files, rendered. *)
Lemma select_rendered (w : World File) (first : File) (rest : list File) :
  urlsCreated w ->
  rerender w (handleFileChange w (first :: rest))
  = {| state := state (handleFileChange w (first :: rest));
       created := S (created w);
       revoked := List.app (revoked w) (cleanup (state w)) |}.
Proof.
  intros (Hp & Ho & _). unfold rerender.
  cbn [handleFileChange state previewUrl originalFileUrl created revoked].
  rewrite (sameUrl_fresh _ _ Hp). reflexivity.
Qed.

(** After a completed crop, rendered. *)
Lemma crop_rendered (w : World File) (blob : Blob) :
  (forall url, previewUrl (state w) = Some url -> (url < created w)%nat) ->
  rerender w (handleCropComplete w blob)
  = {| state := state (handleCropComplete w blob);
       created := S (created w);
       revoked := List.app (revoked w) (cleanup (state w)) |}.
Proof.
  intros Hp. unfold rerender.
  cbn [handleCropComplete state previewUrl originalFileUrl created
       revoked].
  rewrite (sameUrl_fresh _ _ Hp). reflexivity.
Qed.

(** X25.  Selecting files makes one URL for the first file, used both as
    preview and as original, which is not revoked; the URLs the state
    referred to before are revoked by the cleanup; the crop modal is
    closed; the readings and the font scale are reset when nothing was
    selected before and kept otherwise. *)
Theorem reselect_releases_urls (w : World File) (first : File)
    (rest : list File) :
  urlsCreated w ->
  let w1 := rerender w (handleFileChange w (first :: rest)) in
  selectedFiles (state w1) = first :: rest
  /\ previewUrl (state w1) = Some (created w)
  /\ originalFileUrl (state w1) = Some (created w)
  /\ isCropping (state w1) = false
  /\ ~ In (created w) (revoked w1)
  /\ (forall url,
        previewUrl (state w) = Some url
        \/ originalFileUrl (state w) = Some url ->
        In url (revoked w1))
  /\ match selectedFiles (state w) with
     | [] =>
         readings (state w1)
         = {| OverlayUtils.t1 := EmptyString;
              OverlayUtils.t2 := EmptyString;
              OverlayUtils.t3 := EmptyString;
              OverlayUtils.t4 := EmptyString;
              OverlayUtils.pt := EmptyString |}
         /\ fontScale (state w1) == 1
     | _ :: _ =>
         readings (state w1) = readings (state w)
         /\ fontScale (state w1) = fontScale (state w)
     end
  /\ urlsCreated w1.
Proof.
  intros Hwf. cbv zeta. rewrite (select_rendered w first rest Hwf).
  pose proof (cleanup_created w Hwf) as Hclean.
  destruct Hwf as (Hp & Ho & Hr).
  cbn [state handleFileChange selectedFiles previewUrl originalFileUrl
       isCropping readings fontScale created revoked].
  repeat (split; [reflexivity|]).
  split; [|split; [|split]].
  - intros Hin. apply in_app_or in Hin. rewrite Forall_forall in Hr, Hclean.
    destruct Hin as [Hin | Hin];
      [apply Hr in Hin | apply Hclean in Hin]; lia.
  - intros url Hurl. apply in_or_app. right. unfold cleanup.
    apply in_or_app. destruct Hurl as [-> | ->];
      [left | right]; left; reflexivity.
  - destruct (selectedFiles (state w)); cbn; split; reflexivity.
  - unfold urlsCreated.
    cbn [state previewUrl originalFileUrl created revoked].
    split; [intros url E; injection E as <-; lia|].
    split; [intros url E; injection E as <-; lia|].
    apply Forall_app. split.
    + eapply Forall_impl; [|exact Hr]. cbn. intros; lia.
    + eapply Forall_impl; [|exact Hclean]. cbn. intros; lia.
Qed.

(** X26.  After a crop has completed, the state still holds the URL of the
    original file, but the cleanup of the previous render has revoked it:
    the preview has a new URL that is not revoked, and the crop modal, when
    opened again for the one selected file, is given the revoked URL as
    its image source. *)
Theorem crop_revokes_original_url (w : World File) (file : File)
    (blob : Blob) :
  urlsCreated w ->
  let w1 := rerender w (handleFileChange w [file]) in
  let w2 := rerender w1 (handleCropComplete w1 blob) in
  originalFileUrl (state w2) = Some (created w)
  /\ In (created w) (revoked w2)
  /\ previewUrl (state w2) = Some (S (created w))
  /\ ~ In (S (created w)) (revoked w2)
  /\ cropperSource (state (startCropping w2)) = Some (created w).
Proof.
  intros Hwf. cbv zeta. rewrite (select_rendered w file [] Hwf).
  pose proof (cleanup_created w Hwf) as Hclean.
  destruct Hwf as (Hp & Ho & Hr).
  rewrite crop_rendered
    by (cbn [handleFileChange state previewUrl created];
        intros url E; injection E as <-; lia).
  cbn [handleCropComplete handleFileChange state previewUrl
       originalFileUrl created revoked cleanup app
       startCropping cropperSource isCropping selectedFiles List.length
       Nat.eqb andb].
  split; [reflexivity|]. split.
  - apply in_or_app. right. left. reflexivity.
  - split; [reflexivity|]. split; [|reflexivity].
    intros Hin. rewrite Forall_forall in Hr, Hclean.
    apply in_app_or in Hin. destruct Hin as [Hin | Hin].
    + apply in_app_or in Hin.
      destruct Hin as [Hin | Hin];
        [apply Hr in Hin | apply Hclean in Hin]; lia.
    + cbn in Hin. lia.
Qed.

End SelectionExtras.

Lemma reselect_releases_urls_witness :
  Selection.previewUrl
    (Selection.state
       (Selection.rerender Selection.initial
          (Selection.handleFileChange Selection.initial
             ["a.jpg"%string; "b.jpg"%string])))
  = Some 0%nat.
Proof.
  destruct (reselect_releases_urls string Selection.initial
              "a.jpg"%string ["b.jpg"%string])
    as (_ & Hp & _).
  - repeat split; try discriminate. constructor.
  - exact Hp.
Defined.

Lemma crop_revokes_original_url_witness :
  In 0%nat
     (Selection.revoked
        (Selection.rerender
           (Selection.rerender Selection.initial
              (Selection.handleFileChange Selection.initial
                 ["a.jpg"%string]))
           (Selection.handleCropComplete
              (Selection.rerender Selection.initial
                 (Selection.handleFileChange Selection.initial
                    ["a.jpg"%string]))
              7%nat))).
Proof.
  destruct (crop_revokes_original_url string nat Selection.initial
              "a.jpg"%string 7%nat)
    as (_ & Hin & _).
  - repeat split; try discriminate. constructor.
  - exact Hin.
Defined.

(** ** Streams of pointer moves and the crop callback *)

Section StreamExtras.
Import ImageCropper GestureStream.

(** X5.  Gesture updates are absolute, not cumulative: after any stream
    of pointer moves the state is the one the last move alone would have
    given.  Outside a gesture (not dragging, or no action) a stream of
    pointer moves leaves the state as it is. *)
Theorem last_move_wins (s : State) (box : option DOMRect)
    (events : list PointerEvent) (e : PointerEvent) :
  pointerMoves s box (List.app events [e]) = handlePointerMove s box e
  /\ match isDragging s, action s with
     | true, Some _ => True
     | _, _ => pointerMoves s box events = Normal s
     end.
Proof.
  split.
  - revert s. induction events as [|e1 rest IH]; intros s.
    + cbn. destruct (handlePointerMove s box e); reflexivity.
    + cbn [app pointerMoves].
      destruct (updates_are_absolute s box e1 e) as (s1 & H1 & H2).
      rewrite H1, IH. exact H2.
  - assert (Hidle : isDragging s = false \/ action s = None ->
                    pointerMoves s box events = Normal s).
    { intros H. induction events as [|e1 rest IH]; [reflexivity|].
      cbn [pointerMoves].
      rewrite (CropEngine.handlePointerMove_idle s box e1)
        by (destruct H; auto).
      exact IH. }
    destruct (isDragging s); [destruct (action s)|]; auto.
Qed.

Variable Blob : Type.
Variable toBlob : Canvas -> string -> Q -> option Blob.

(** X27.  [performCrop] throws only where [drawImage] does: exactly when
    the image element is bound, the new canvas yields a 2D context and
    the element is broken, and then an [InvalidStateError].  Otherwise it
    returns, and has called [onCrop] at most once: exactly when the image
    element is bound, the canvas yields a context and the encoder yields
    bytes for the drawn canvas, and then with these bytes. *)
Theorem onCrop_called_iff (s : State) (imageRef : option ImageElement)
    (ctx : bool) :
  match performCrop Blob toBlob s imageRef ctx with
  | Throw name =>
      name = "InvalidStateError"%string /\ ctx = true
      /\ exists img, imageRef = Some img /\ requestState img = broken
  | Normal (canvas, calls) =>
      (forall img,
          imageRef = Some img -> ctx = true -> requestState img <> broken)
      /\ match calls with
         | [] =>
             imageRef = None \/ ctx = false
             \/ exists built,
                  canvas = Some built
                  /\ toBlob built "image/jpeg"%string 0.92 = None
         | [blob] =>
             imageRef <> None /\ ctx = true
             /\ exists built,
                  canvas = Some built
                  /\ toBlob built "image/jpeg"%string 0.92 = Some blob
         | _ :: _ :: _ => False
         end
  end.
Proof.
  unfold performCrop. destruct imageRef as [img|].
  2: { split; [discriminate|]. left. reflexivity. }
  destruct ctx; cbn [Dom.context2d setHeight setWidth createCanvas].
  2: { split; [discriminate|]. right. left. reflexivity. }
  match goal with |- context [drawImageRegion ?c ?i ?a1 ?a2 ?a3 ?a4 ?a5
                                               ?a6 ?a7 ?a8] =>
    destruct (requestState img) eqn:Hstate;
    [ destruct (drawImageRegion_returns c i a1 a2 a3 a4 a5 a6 a7 a8)
        as (built & -> & _); [rewrite Hstate; discriminate|] ..
    | rewrite (drawImageRegion_broken c i a1 a2 a3 a4 a5 a6 a7 a8 Hstate) ]
  end.
  4: { split; [reflexivity|]. split; [reflexivity|].
       exists img. split; [reflexivity | exact Hstate]. }
  all: destruct (toBlob built "image/jpeg"%string 0.92) as [blob|] eqn:Hblob.
  all: split; [intros img' E _; injection E as <-; rewrite Hstate;
               discriminate|].
  all: first [ split; [discriminate|]; split; [reflexivity|];
               exists built; split; [reflexivity | exact Hblob]
             | right; right; exists built;
               split; [reflexivity | exact Hblob] ].
Qed.

End StreamExtras.
